(** * Kekopoly: session and state-coordination core

    A shallow embedding of the parts of the Kekopoly client and backend that
    the specification's claims are about:

    - [Backoff]: [SocketService.handleDisconnect] (socketService.js), the
      reconnection policy of the game socket;
    - [Frames]: [SocketService.handleMessage] and [processRecoveredMessage],
      the recovery from coalesced JSON frames;
    - [Store]: the two Redux player stores, [stateAdapterMiddleware] and the
      socket handlers that write hosts, turns and player records;
    - [Auth]: [JWTMiddleware], [GenerateJWT], [SolanaValidator.VerifySignature]
      and [AuthHandler.WalletConnect] of the Go backend;
    - [Grace]: the disconnection state machine of the architecture document;
    - [Lanes]: the migration script that assigns a priority to every
      [SendToPlayer] call site.

    JavaScript objects with optional fields are records of [option] values,
    JavaScript exceptions are an explicit outcome, effects (socket sends,
    timers, callbacks) are collected in an output list. *)

From Stdlib Require Import Bool List String Ascii ZArith QArith Qpower Lia.
From Stdlib Require Import DecimalString.
Import ListNotations.

Local Open Scope string_scope.
Local Open Scope list_scope.

(* ================================================================== *)
(** * Reconnection policy of the game socket *)
(* ================================================================== *)

Module Backoff.

(** The fields of [SocketService] that [handleDisconnect] reads or writes.
    [stateIsNavigating] is [connectionState.isNavigating], the value
    [loadState('isNavigating', false)] returns; [reconnectTimer] records
    whether a timer handle is stored. Delays are milliseconds. *)
Record Service := mkService {
  reconnectAttempts : nat;
  maxReconnectAttempts : nat;
  reconnectInterval : Q;
  reconnectTimer : bool;
  isNavigating : bool;
  preserveConnection : bool;
  stateIsNavigating : bool
}.

(** The class-field initialisers (socketService.js lines 56-59, 78-79). *)
Definition initialService : Service :=
  {| reconnectAttempts := 0;
     maxReconnectAttempts := 5;
     reconnectInterval := 1000;
     reconnectTimer := false;
     isNavigating := false;
     preserveConnection := false;
     stateIsNavigating := false |}.

(** The part of a [CloseEvent] the handler branches on. *)
Record CloseEvent := mkClose { wasClean : bool }.

(** What a timer started by [handleDisconnect] will run. *)
Inductive TimerTask :=
| NavigationReconnect
| BackoffReconnect (attempt : nat)
| CleanReconnect.

Inductive Effect :=
| ConnectionChange (status : string)
| ClearTimeout
| SetTimeout (delay : Q) (task : TimerTask).

(** [Math.pow(1.5, k)]. The doubles involved are exact dyadic rationals
    as long as [125 * 3^k < 2^53], that is for [k <= 29]. *)
Definition pow15 (k : nat) : Q := (3 # 2) ^ (Z.of_nat k).

Definition backoffDelay (interval : Q) (attempt : nat) : Q :=
  interval * pow15 (attempt - 1).

(** [handleDisconnect] (socketService.js lines 729-880). The [saveState]
    calls at the top only write the [lastDisconnect*] keys and are left
    out; they never touch [connectionState.isNavigating]. *)
Definition handleDisconnect (s : Service) (event : CloseEvent)
  : Service * list Effect :=
  let notify := [ConnectionChange "disconnected"] in
  if isNavigating s || preserveConnection s || stateIsNavigating s then
    let clear := if reconnectTimer s then [ClearTimeout] else [] in
    ({| reconnectAttempts := 0;
        maxReconnectAttempts := maxReconnectAttempts s;
        reconnectInterval := reconnectInterval s;
        reconnectTimer := true;
        isNavigating := isNavigating s;
        preserveConnection := preserveConnection s;
        stateIsNavigating := stateIsNavigating s |},
     notify ++ clear ++ [SetTimeout 100 NavigationReconnect])
  else if negb (wasClean event)
          && (reconnectAttempts s <? maxReconnectAttempts s)%nat then
    let n := S (reconnectAttempts s) in
    ({| reconnectAttempts := n;
        maxReconnectAttempts := maxReconnectAttempts s;
        reconnectInterval := reconnectInterval s;
        reconnectTimer := true;
        isNavigating := isNavigating s;
        preserveConnection := preserveConnection s;
        stateIsNavigating := stateIsNavigating s |},
     notify ++ [SetTimeout (backoffDelay (reconnectInterval s) n)
                           (BackoffReconnect n)])
  else if wasClean event then (s, notify)
  else (s, notify ++ [ConnectionChange "failed"]).

(** The rejection handler of the [connect] promise inside the back-off
    timer (lines 861-872): one more try without the saved player data,
    a fixed second later, while the counter is below the cap. *)
Definition backoffConnectRejected (s : Service) (savedPlayerData : bool)
  : list Effect :=
  if savedPlayerData
     && (reconnectAttempts s <? maxReconnectAttempts s)%nat
  then [SetTimeout 1000 CleanReconnect] else [].

(** The timers a list of effects starts. *)
Fixpoint timers (es : list Effect) : list (Q * TimerTask) :=
  match es with
  | [] => []
  | SetTimeout d t :: es' => (d, t) :: timers es'
  | _ :: es' => timers es'
  end.

(** A socket that keeps failing: every failed attempt ends in an unclean
    close event, handled by [handleDisconnect] again. Returns the delays
    of the timers started along the way. *)
Fixpoint uncleanCloses (k : nat) (s : Service) : list Q :=
  match k with
  | O => []
  | S k' =>
      let '(s', es) := handleDisconnect s (mkClose false) in
      map fst (timers es) ++ uncleanCloses k' s'
  end.

Definition navigating (s : Service) : bool :=
  isNavigating s || preserveConnection s || stateIsNavigating s.

End Backoff.

(* ================================================================== *)
(** * JavaScript control flow: exceptions, try/catch, loops *)
(* ================================================================== *)

Module Js.

Inductive Exn :=
| JsonSyntaxError        (* a SyntaxError whose message mentions JSON *)
| OtherError (msg : string).

(** The result of running a piece of JavaScript on a state: it completes,
    or it throws and leaves the state as it was at the [throw]. *)
Inductive Outcome (S : Type) :=
| Normal (s : S)
| Throw (e : Exn) (s : S).
Arguments Normal {S} s.
Arguments Throw {S} e s.

Definition Action (S : Type) := S -> Outcome S.

Definition andThen {S} (m1 m2 : Action S) : Action S :=
  fun s => match m1 s with
           | Normal s' => m2 s'
           | Throw e s' => Throw e s'
           end.

Definition tryCatch {S} (body : Action S) (handler : Exn -> Action S)
  : Action S :=
  fun s => match body s with
           | Normal s' => Normal s'
           | Throw e s' => handler e s'
           end.

Definition pureStep {S} (f : S -> S) : Action S := fun s => Normal (f s).

(** [for (let i = 0; i < xs.length; i++) body(xs[i])] *)
Fixpoint forEach {S X} (xs : list X) (body : X -> Action S) : Action S :=
  match xs with
  | [] => fun s => Normal s
  | x :: xs' => andThen (body x) (forEach xs' body)
  end.

Definition completes {S} (o : Outcome S) : Prop :=
  match o with Normal _ => True | Throw _ _ => False end.

Definition finalOf {S} (o : Outcome S) : S :=
  match o with Normal s => s | Throw _ s => s end.

End Js.

(* ================================================================== *)
(** * Recovery from coalesced JSON frames *)
(* ================================================================== *)

Module Frames.

Import Js.

(** ** String primitives used by the handler

    The text of a frame is modelled as its UTF-8 bytes; every delimiter the
    handler looks for is ASCII. *)

Definition open_brace : ascii := "{"%char.
Definition close_brace : ascii := "}"%char.

Definition startsWith (s p : string) : bool := String.prefix p s.

Fixpoint includes (s sub : string) : bool :=
  String.prefix sub s
  || match s with
     | EmptyString => false
     | String _ rest => includes rest sub
     end.

Fixpoint lastChar (s : string) : option ascii :=
  match s with
  | EmptyString => None
  | String c EmptyString => Some c
  | String _ rest => lastChar rest
  end.

(** [s.endsWith('}')] *)
Definition endsWithClose (s : string) : bool :=
  match lastChar s with
  | Some c => Ascii.eqb c close_brace
  | None => false
  end.

(** The white space and line terminators removed by
    [String.prototype.trim], as UTF-8: TAB, LF, VT, FF, CR and SPACE in one
    byte; U+00A0 in two; U+1680, U+2000 to U+200A, U+2028, U+2029, U+202F,
    U+205F, U+3000 and U+FEFF in three. *)
Definition isSpace (c : ascii) : bool :=
  let n := nat_of_ascii c in
  ((9 <=? n) && (n <=? 13))%nat || (n =? 32)%nat.

Definition isSpace2 (a b : ascii) : bool :=
  ((nat_of_ascii a =? 194) && (nat_of_ascii b =? 160))%nat.

Definition isSpace3 (a b c : ascii) : bool :=
  let x := nat_of_ascii a in
  let y := nat_of_ascii b in
  let z := nat_of_ascii c in
  (((x =? 225) && (y =? 154) && (z =? 128))
   || ((x =? 226) && (y =? 128)
       && (((128 <=? z) && (z <=? 138)) || (z =? 168) || (z =? 169) || (z =? 175)))
   || ((x =? 226) && (y =? 129) && (z =? 159))
   || ((x =? 227) && (y =? 128) && (z =? 128))
   || ((x =? 239) && (y =? 187) && (z =? 191)))%nat.

Fixpoint trimStart (s : string) : string :=
  match s with
  | EmptyString => EmptyString
  | String a rest1 =>
      if isSpace a then trimStart rest1 else
      match rest1 with
      | EmptyString => s
      | String b rest2 =>
          if isSpace2 a b then trimStart rest2 else
          match rest2 with
          | EmptyString => s
          | String c rest3 => if isSpace3 a b c then trimStart rest3 else s
          end
      end
  end.

Fixpoint reverse (s : string) : string :=
  match s with
  | EmptyString => EmptyString
  | String c rest => (reverse rest ++ String c EmptyString)%string
  end.

(** [trimStart] on the reversed text: the bytes of a white-space character
    come last byte first. *)
Fixpoint trimStartReversed (s : string) : string :=
  match s with
  | EmptyString => EmptyString
  | String a rest1 =>
      if isSpace a then trimStartReversed rest1 else
      match rest1 with
      | EmptyString => s
      | String b rest2 =>
          if isSpace2 b a then trimStartReversed rest2 else
          match rest2 with
          | EmptyString => s
          | String c rest3 =>
              if isSpace3 c b a then trimStartReversed rest3 else s
          end
      end
  end.

Definition trimEnd (s : string) : string :=
  reverse (trimStartReversed (reverse s)).

Definition trim (s : string) : string := trimEnd (trimStart s).

(** [rawData.split(/(?<=\})(?=\{)/)]: cut at every position that has a
    closing brace on its left and an opening brace on its right. *)
Fixpoint splitBoundary (s : string) : list string :=
  match s with
  | EmptyString => [EmptyString]
  | String c rest =>
      match splitBoundary rest with
      | [] => [String c EmptyString]
      | p :: ps =>
          if Ascii.eqb c close_brace && startsWith rest "{"
          then String c EmptyString :: p :: ps
          else String c p :: ps
      end
  end.

(** One match of
    [/\{(?:[^{}]|(?:\{(?:[^{}]|(?:\{[^{}]*\}))*\}))*\}/] at the start of
    the string. The pattern is three nested copies of "an opening brace,
    then characters that are no braces or a group of the next level, then
    a closing brace"; the innermost level admits no group. Both
    alternatives of every star start with different characters and a
    group ends with a closing brace, so the greedy star never has a
    second way to match: the match is the balanced run from the first
    brace to its partner, provided the nesting never exceeds three.
    [scanObject room level s] has read some opening braces: [level] of
    them are unclosed and [room] more may still be opened. *)
Fixpoint scanObject (room level : nat) (s : string) : option string :=
  match s with
  | EmptyString => None
  | String c rest =>
      if Ascii.eqb c close_brace then
        match level with
        | O => None
        | S O => Some (String c EmptyString)
        | S l => option_map (String c) (scanObject (S room) l rest)
        end
      else if Ascii.eqb c open_brace then
        match room with
        | O => None
        | S r => option_map (String c) (scanObject r (S level) rest)
        end
      else
        match level with
        | O => None
        | S _ => option_map (String c) (scanObject room level rest)
        end
  end.

Definition jsonPatternAt (s : string) : option string := scanObject 3 0 s.

(** [rawData.match(jsonPattern)] with the [g] flag: all matches, left to
    right, the search resuming where the previous match ended. [skip] is
    the number of characters still covered by the last match. *)
Fixpoint matchAllFrom (skip : nat) (s : string) : list string :=
  match s with
  | EmptyString => []
  | String _ rest =>
      match skip with
      | S k => matchAllFrom k rest
      | O =>
          match jsonPatternAt s with
          | Some m => m :: matchAllFrom (String.length m - 1) rest
          | None => matchAllFrom 0 rest
          end
      end
  end.

Definition matchJsonPattern (s : string) : list string := matchAllFrom 0 s.

(** A serialised object as the server writes it: it starts and ends with
    a brace and has no ["}{"] inside (which valid JSON can only have
    within a string). *)
Definition objectText (o : string) : Prop :=
  startsWith o "{" = true /\ endsWithClose o = true /\ includes o "}{" = false.

(** Several messages run together in one frame. *)
Definition coalesce (objects : list string) : string :=
  fold_right String.append EmptyString objects.

Section Handler.

(** Parsed JSON values and [JSON.parse]; [None] is the SyntaxError. *)
Variable Json : Type.
Variable JSON_parse : string -> option Json.

(** The application state the individual handlers work on (Redux store,
    service fields), and the two routing switches: the one of
    [handleMessage] and the one inside [processRecoveredMessage]. Either
    may throw. *)
Variable App : Type.
Variable routeMessage : Json -> Action App.
Variable routeRecovered : Json -> Action App.

Record World := mkWorld {
  app : App;
  socketOpen : bool;
  outbox : list string;         (* types of the messages sent *)
  recovered : list Json         (* arguments of processRecoveredMessage *)
}.

Definition onApp (m : Action App) : Action World :=
  fun w => match m (app w) with
           | Normal a => Normal (mkWorld a (socketOpen w) (outbox w) (recovered w))
           | Throw e a => Throw e (mkWorld a (socketOpen w) (outbox w) (recovered w))
           end.

Definition sendMessage (type : string) (w : World) : World :=
  if socketOpen w
  then mkWorld (app w) (socketOpen w) (outbox w ++ [type]) (recovered w)
  else w.

(** [attemptSyncRecovery] (lines 3825-3844). *)
Definition attemptSyncRecovery (w : World) : World :=
  if negb (socketOpen w) then w
  else sendMessage "get_active_players" (sendMessage "get_game_state" w).

(** [handleSyncError] (lines 3802-3822): logging, then recovery. *)
Definition handleSyncError (w : World) : World := attemptSyncRecovery w.

Definition noteRecovered (data : Json) (w : World) : World :=
  mkWorld (app w) (socketOpen w) (outbox w) (recovered w ++ [data]).

(** [processRecoveredMessage] (lines 1133-1247): the whole switch sits
    in a [try] whose [catch] only logs. *)
Definition processRecoveredMessage (data : Json) : Action World :=
  andThen (pureStep (noteRecovered data))
          (tryCatch (onApp (routeRecovered data)) (fun _ w => Normal w)).

(** [JSON.parse(part)] followed by the continuation, as one statement
    sequence inside a [try]. *)
Definition parseThen (part : string) (k : Json -> Action World)
  : Action World :=
  match JSON_parse part with
  | Some data => k data
  | None => fun w => Throw JsonSyntaxError w
  end.

(** The body of the loops at lines 1075-1088 and 1102-1112. *)
Definition recoverPart (part : string) : Action World :=
  tryCatch (parseThen part processRecoveredMessage)
           (fun _ w => Normal w).

(** The [catch] block of [handleMessage] for a SyntaxError (lines
    1057-1124). [event.data] is a text frame. *)
Definition recoverFrame (rawData : string) : Action World :=
  andThen
    (tryCatch
       (if includes rawData "}{" then
          forEach (splitBoundary rawData)
                  (fun part => recoverPart (trim part))
        else if startsWith (trim rawData) "{"
                && endsWithClose (trim rawData) then
          forEach (matchJsonPattern rawData) recoverPart
        else fun w => Normal w)
       (fun _ w => Normal w))
    (pureStep attemptSyncRecovery).

(** [handleMessage] (lines 901-1130). *)
Definition handleMessage (rawData : string) : Action World :=
  tryCatch
    (parseThen rawData (fun data => onApp (routeMessage data)))
    (fun error =>
       match error with
       | JsonSyntaxError => recoverFrame rawData
       | OtherError _ => pureStep handleSyncError
       end).

(** The lobby socket: [data.type === 'new_game_created'] and the
    registered [onNewGameCallback], if any. *)
Variable isNewGame : Json -> bool.
Variable onNewGameCallback : option (Json -> Action App).

(** The body of the loop at lines 639-652; the objects given to the
    callback are recorded like the recovered game messages. *)
Definition recoverLobbyPart (part : string) : Action World :=
  tryCatch
    (parseThen part
       (fun extractedData =>
          match onNewGameCallback with
          | Some callback =>
              if isNewGame extractedData
              then andThen (pureStep (noteRecovered extractedData))
                           (onApp (callback extractedData))
              else fun w => Normal w
          | None => fun w => Normal w
          end))
    (fun _ w => Normal w).

(** [handleLobbyMessage] (lines 599-661). *)
Definition handleLobbyMessage (rawData : string) : Action World :=
  tryCatch
    (parseThen (trim rawData)
       (fun data =>
          if isNewGame data then
            match onNewGameCallback with
            | Some callback => onApp (callback data)
            | None => fun w => Normal w
            end
          else fun w => Normal w))
    (fun _ =>
       tryCatch (forEach (matchJsonPattern rawData) recoverLobbyPart)
                (fun _ w => Normal w)).

(** The parts the recovery tries to parse, in order. *)
Definition frameParts (rawData : string) : list string :=
  if includes rawData "}{" then map trim (splitBoundary rawData)
  else if startsWith (trim rawData) "{" && endsWithClose (trim rawData)
       then matchJsonPattern rawData
       else [].

Fixpoint parsedParts (parts : list string) : list Json :=
  match parts with
  | [] => []
  | p :: ps =>
      match JSON_parse p with
      | Some j => j :: parsedParts ps
      | None => parsedParts ps
      end
  end.

End Handler.

Arguments app {Json App} w.
Arguments socketOpen {Json App} w.
Arguments outbox {Json App} w.
Arguments recovered {Json App} w.
Arguments mkWorld {Json App}.

(** A small concrete instance, used to run the handler on sample frames:
    the parser accepts exactly the flat objects [{"type":"<letters>"}]
    and returns the type; the recovered-message switch throws on
    [game_started]. *)
Definition dquote : ascii := ascii_of_nat 34.
Definition quoted (s : string) : string :=
  String dquote (s ++ String dquote EmptyString).

Fixpoint lettersThenClose (s : string) : option string :=
  match s with
  | String c rest =>
      if Ascii.eqb c dquote then
        if String.eqb rest "}" then Some EmptyString else None
      else if (let n := nat_of_ascii c in (97 <=? n) && (n <=? 122))%nat
              || Ascii.eqb c "_"%char
           then option_map (String c) (lettersThenClose rest)
           else None
  | EmptyString => None
  end.

Definition toyPrefix : string := "{" ++ quoted "type" ++ ":" ++ String dquote "".

Definition toyParse (s : string) : option string :=
  if String.prefix toyPrefix s
  then lettersThenClose (substring 9 (String.length s - 9) s)
  else None.

(** [{"type":"<t>"}] *)
Definition toyObject (t : string) : string :=
  toyPrefix ++ t ++ String dquote "}".

Definition toyRoute (data : string) : Action (list string) :=
  fun log => if String.eqb data "game_started"
             then Throw (OtherError "dispatch is not initialised") log
             else Normal (log ++ [data]).

Definition toyWorld : World string (list string) :=
  mkWorld [] true [] [].

End Frames.


(* ================================================================== *)
(** * The two player stores and the handlers that write them *)
(* ================================================================== *)

Module Store.

Import Js.

(** ** JavaScript values of the player objects

    A field that is absent or [undefined] is [None]. Player ids are strings
    (architecture document: [playerId: string]); an absent id is the empty
    string, which every guard of the code ([!player.id]) treats like
    [undefined]. Numbers are the integers the game uses. *)

Definition truthyS (v : option string) : bool :=
  match v with
  | Some s => negb (String.eqb s "")
  | None => false
  end.

(** [a || b] on strings *)
Definition orS (a b : option string) : option string :=
  if truthyS a then a else b.

(** [a || false], [a || 0], [a || d] on booleans, numbers and objects *)
Definition orFalse (a : option bool) : bool :=
  match a with Some true => true | _ => false end.

Definition orZ (a : option Z) (d : Z) : Z :=
  match a with
  | Some z => if (z =? 0)%Z then d else z
  | None => d
  end.

Definition orElse {A} (a : option A) (d : A) : A :=
  match a with Some x => x | None => d end.

(** [a !== b] on optional strings and booleans *)
Definition neqS (a b : option string) : bool :=
  match a, b with
  | Some x, Some y => negb (String.eqb x y)
  | None, None => false
  | _, _ => true
  end.

Definition neqB (a b : option bool) : bool :=
  match a, b with
  | Some x, Some y => negb (Bool.eqb x y)
  | None, None => false
  | _, _ => true
  end.

Record Kekels := mkKekels { k100 : Z; k50 : Z; k10 : Z }.

Definition defaultKekels : Kekels := mkKekels 2 5 10.

(** The bust-in-silhouette emoji U+1F464, the default avatar. *)
Definition defaultEmoji : string :=
  String (ascii_of_nat 240) (String (ascii_of_nat 159)
    (String (ascii_of_nat 145) (String (ascii_of_nat 164) EmptyString))).

Record Player := mkPlayer {
  id : string;
  name : option string;
  token : option string;
  characterToken : option string;
  emoji : option string;
  color : option string;
  status : option string;
  walletAddress : option string;
  position : option Z;
  balance : option Z;
  jailTurns : option Z;
  isReady : option bool;
  isHost : option bool;
  inJail : option bool;
  properties : option (list string);
  kekels : option Kekels
}.

(** The [updates] object of [updatePlayer]. *)
Record Updates := mkUpdates {
  u_name : option string;
  u_token : option string;
  u_characterToken : option string;
  u_emoji : option string;
  u_color : option string;
  u_status : option string;
  u_position : option Z;
  u_balance : option Z;
  u_jailTurns : option Z;
  u_isReady : option bool;
  u_isHost : option bool;
  u_inJail : option bool;
  u_properties : option (list string)
}.

Definition noUpdates : Updates :=
  mkUpdates None None None None None None None None None None None None None.

Definition over {A} (new old : option A) : option A :=
  match new with Some _ => new | None => old end.

(** [{...player, ...updates}] *)
Definition applyUpdates (p : Player) (u : Updates) : Player :=
  {| id := id p;
     name := over (u_name u) (name p);
     token := over (u_token u) (token p);
     characterToken := over (u_characterToken u) (characterToken p);
     emoji := over (u_emoji u) (emoji p);
     color := over (u_color u) (color p);
     status := over (u_status u) (status p);
     walletAddress := walletAddress p;
     position := over (u_position u) (position p);
     balance := over (u_balance u) (balance p);
     jailTurns := over (u_jailTurns u) (jailTurns p);
     isReady := over (u_isReady u) (isReady p);
     isHost := over (u_isHost u) (isHost p);
     inJail := over (u_inJail u) (inJail p);
     properties := over (u_properties u) (properties p);
     kekels := kekels p |}.

(** ** The Redux state *)

Record GameMessage := mkGameMessage {
  gm_type : string;
  gm_content : string
}.

(** [state.players.players] is an object keyed by player id, kept here in
    insertion order (the order of [Object.keys] and [Object.values]);
    [state.game.players] is an array. *)
Record State := mkState {
  playerSlice : list (string * Player);
  gamePlayers : list Player;
  hostId : option string;
  currentPlayer : option string;
  gameStarted : bool;
  gamePhase : option string;
  gameStatus : option string;
  gameStartedTimestamp : option Z;
  gameMessages : list GameMessage
}.

Definition initialState : State :=
  mkState [] [] None None false None None None [].

Fixpoint lookupPlayer (k : string) (m : list (string * Player)) : option Player :=
  match m with
  | [] => None
  | (k', p) :: m' => if String.eqb k k' then Some p else lookupPlayer k m'
  end.

(** [obj[k] = p]: an existing key keeps its place, a new key goes last. *)
Fixpoint assignPlayer (k : string) (p : Player) (m : list (string * Player))
  : list (string * Player) :=
  match m with
  | [] => [(k, p)]
  | (k', q) :: m' =>
      if String.eqb k k' then (k, p) :: m' else (k', q) :: assignPlayer k p m'
  end.

Fixpoint deletePlayer (k : string) (m : list (string * Player))
  : list (string * Player) :=
  match m with
  | [] => []
  | (k', q) :: m' =>
      if String.eqb k k' then m' else (k', q) :: deletePlayer k m'
  end.

Inductive ActionT :=
| AddPlayer (playerId : string) (playerData : Player)   (* players/addPlayer *)
| UpdatePlayer (playerId : string) (updates : Updates)  (* players/updatePlayer *)
| RemovePlayer (playerId : string)                      (* players/removePlayer *)
| SetPlayers (players : list Player) (isSync : bool)    (* game/setPlayers *)
| MovePlayer (playerId : string) (newPosition : Z)      (* game/movePlayer *)
| SetHost (h : string)
| SetCurrentPlayer (p : string)
| SetGameStarted (b : bool)
| SetGamePhase (phase : string)
| SyncGameStatus (s : string)
| SetGameStartedTimestamp (t : Z)
| AddGameMessage (type content : string)
| ForceTurnUpdate (p : string).                         (* game/forceTurnUpdate *)

Definition withPlayerSlice (m : list (string * Player)) (st : State) : State :=
  mkState m (gamePlayers st) (hostId st) (currentPlayer st) (gameStarted st)
          (gamePhase st) (gameStatus st) (gameStartedTimestamp st)
          (gameMessages st).

Definition withGamePlayers (l : list Player) (st : State) : State :=
  mkState (playerSlice st) l (hostId st) (currentPlayer st) (gameStarted st)
          (gamePhase st) (gameStatus st) (gameStartedTimestamp st)
          (gameMessages st).

(** Modelled from the spec: the slice reducers ([playerSlice.js],
    [gameSlice.js]) are not among the sources. Each action writes the one
    field its creator is named after, as the callers in [socketService.js]
    and the synchronisation note rely on: [addPlayer] stores the record
    under its id, [updatePlayer] merges the updates into an existing
    record, [removePlayer] deletes it, [setPlayers] replaces the array,
    [movePlayer] moves one array entry, [setHost] and [setCurrentPlayer]
    store the room's host and turn holder. [game/forceTurnUpdate] has no
    reducer of its own. *)
Definition reduce (a : ActionT) (st : State) : State :=
  match a with
  | AddPlayer k p => withPlayerSlice (assignPlayer k p (playerSlice st)) st
  | UpdatePlayer k u =>
      match lookupPlayer k (playerSlice st) with
      | Some p => withPlayerSlice (assignPlayer k (applyUpdates p u) (playerSlice st)) st
      | None => st
      end
  | RemovePlayer k => withPlayerSlice (deletePlayer k (playerSlice st)) st
  | SetPlayers l _ => withGamePlayers l st
  | MovePlayer k pos =>
      withGamePlayers
        (map (fun p => if String.eqb (id p) k
                       then applyUpdates p
                              (mkUpdates None None None None None None (Some pos)
                                         None None None None None None)
                       else p)
             (gamePlayers st)) st
  | SetHost h =>
      mkState (playerSlice st) (gamePlayers st) (Some h) (currentPlayer st)
              (gameStarted st) (gamePhase st) (gameStatus st)
              (gameStartedTimestamp st) (gameMessages st)
  | SetCurrentPlayer p =>
      mkState (playerSlice st) (gamePlayers st) (hostId st) (Some p)
              (gameStarted st) (gamePhase st) (gameStatus st)
              (gameStartedTimestamp st) (gameMessages st)
  | SetGameStarted b =>
      mkState (playerSlice st) (gamePlayers st) (hostId st) (currentPlayer st)
              b (gamePhase st) (gameStatus st)
              (gameStartedTimestamp st) (gameMessages st)
  | SetGamePhase ph =>
      mkState (playerSlice st) (gamePlayers st) (hostId st) (currentPlayer st)
              (gameStarted st) (Some ph) (gameStatus st)
              (gameStartedTimestamp st) (gameMessages st)
  | SyncGameStatus s =>
      mkState (playerSlice st) (gamePlayers st) (hostId st) (currentPlayer st)
              (gameStarted st) (gamePhase st) (Some s)
              (gameStartedTimestamp st) (gameMessages st)
  | SetGameStartedTimestamp t =>
      mkState (playerSlice st) (gamePlayers st) (hostId st) (currentPlayer st)
              (gameStarted st) (gamePhase st) (gameStatus st)
              (Some t) (gameMessages st)
  | AddGameMessage ty content =>
      mkState (playerSlice st) (gamePlayers st) (hostId st) (currentPlayer st)
              (gameStarted st) (gamePhase st) (gameStatus st)
              (gameStartedTimestamp st)
              (gameMessages st ++ [mkGameMessage ty content])
  | ForceTurnUpdate _ => st
  end.

(** ** The client: store, window flags, service fields, output *)

Record Sent := mkSent {
  msgType : string;
  payload : list (string * string)
}.

(** What a [setTimeout] callback of the handlers will do. *)
Inductive Task :=
| RequestActivePlayers
| RequestCurrentTurn
| RequestStateAndPlayers
| RecheckTurn (expected : string)
| LogState
| NavigateToGameBoard.

(** [kekopoly_player_token_data] in [localStorage], parsed. *)
Record TokenData := mkTokenData {
  td_token : option string;
  td_emoji : option string;
  td_color : option string;
  td_name : option string
}.

Record Client := mkClient {
  store : State;
  syncInProgress : bool;          (* window._isPlayerSyncInProgress *)
  gameStartProcessed : bool;      (* window._gameStartProcessed *)
  socketOpen : bool;
  playerId : string;
  localPlayerId : string;
  gameId : string;
  storedTokenData : option TokenData;
  confirmedFirstTurn : bool;
  isNavigating : bool;
  preserveConnection : bool;
  isTransitioningToGame : bool;
  sent : list Sent;
  timers : list (Z * Task)
}.

Definition withStore (st : State) (c : Client) : Client :=
  mkClient st (syncInProgress c) (gameStartProcessed c) (socketOpen c)
           (playerId c) (localPlayerId c) (gameId c) (storedTokenData c)
           (confirmedFirstTurn c) (isNavigating c) (preserveConnection c)
           (isTransitioningToGame c) (sent c) (timers c).

Definition withSync (b : bool) (c : Client) : Client :=
  mkClient (store c) b (gameStartProcessed c) (socketOpen c)
           (playerId c) (localPlayerId c) (gameId c) (storedTokenData c)
           (confirmedFirstTurn c) (isNavigating c) (preserveConnection c)
           (isTransitioningToGame c) (sent c) (timers c).

Definition withSent (l : list Sent) (c : Client) : Client :=
  mkClient (store c) (syncInProgress c) (gameStartProcessed c) (socketOpen c)
           (playerId c) (localPlayerId c) (gameId c) (storedTokenData c)
           (confirmedFirstTurn c) (isNavigating c) (preserveConnection c)
           (isTransitioningToGame c) l (timers c).

Definition withTimers (l : list (Z * Task)) (c : Client) : Client :=
  mkClient (store c) (syncInProgress c) (gameStartProcessed c) (socketOpen c)
           (playerId c) (localPlayerId c) (gameId c) (storedTokenData c)
           (confirmedFirstTurn c) (isNavigating c) (preserveConnection c)
           (isTransitioningToGame c) (sent c) l.

Definition withConfirmedFirstTurn (b : bool) (c : Client) : Client :=
  mkClient (store c) (syncInProgress c) (gameStartProcessed c) (socketOpen c)
           (playerId c) (localPlayerId c) (gameId c) (storedTokenData c)
           b (isNavigating c) (preserveConnection c)
           (isTransitioningToGame c) (sent c) (timers c).

Definition withStoredTokenData (t : option TokenData) (c : Client) : Client :=
  mkClient (store c) (syncInProgress c) (gameStartProcessed c) (socketOpen c)
           (playerId c) (localPlayerId c) (gameId c) t
           (confirmedFirstTurn c) (isNavigating c) (preserveConnection c)
           (isTransitioningToGame c) (sent c) (timers c).

(** The flags [handleGameStarted] raises at its start. *)
Definition startTransition (c : Client) : Client :=
  mkClient (store c) (syncInProgress c) true (socketOpen c)
           (playerId c) (localPlayerId c) (gameId c) (storedTokenData c)
           (confirmedFirstTurn c) true true true (sent c) (timers c).

(** [sendMessage] (lines 474-481). *)
Definition sendMessage (type : string) (fields : list (string * string))
  (c : Client) : Client :=
  if socketOpen c then withSent (sent c ++ [mkSent type fields]) c else c.

Definition setTimeout (delay : Z) (t : Task) (c : Client) : Client :=
  withTimers (timers c ++ [(delay, t)]) c.

(** ** stateAdapterMiddleware *)

(** The array entry built from a [playerSlice] record (lines 42-60 and
    85-103). *)
Definition toGamePlayer (player : Player) : Player :=
  {| id := id player;
     name := orS (name player)
                 (Some ("Player_" ++ substring 0 4 (id player))%string);
     token := orS (token player)
                  (orS (characterToken player)
                       (orS (emoji player) (Some defaultEmoji)));
     characterToken := None;
     emoji := None;
     color := orS (color player) (Some "gray.500");
     status := None;
     walletAddress := orS (walletAddress player) (Some "");
     position := Some (orElse (position player) 0%Z);
     balance := Some (orElse (balance player) 1500%Z);
     jailTurns := Some (orZ (jailTurns player) 0);
     isReady := Some (orFalse (isReady player));
     isHost := Some (orFalse (isHost player));
     inJail := Some (orFalse (inJail player));
     properties := Some (orElse (properties player) []);
     kekels := Some (orElse (kekels player) defaultKekels) |}.

(** The record added to [playerSlice] for an array entry that is missing
    there (lines 141-164). *)
Definition toSlicePlayer (player : Player) : Player :=
  {| id := id player;
     name := name player;
     token := orS (token player)
                  (orS (characterToken player)
                       (orS (emoji player) (Some defaultEmoji)));
     characterToken := orS (characterToken player)
                           (orS (token player)
                                (orS (emoji player) (Some defaultEmoji)));
     emoji := orS (emoji player) (Some defaultEmoji);
     color := orS (color player) (Some "gray.500");
     status := None;
     walletAddress := orS (walletAddress player) (Some "");
     position := Some (orElse (position player) 0%Z);
     balance := Some (orElse (balance player) 1500%Z);
     jailTurns := Some (orZ (jailTurns player) 0);
     isReady := Some (orFalse (isReady player));
     isHost := Some (orFalse (isHost player));
     inJail := Some (orFalse (inJail player));
     properties := Some (orElse (properties player) []);
     kekels := Some (orElse (kekels player) defaultKekels) |}.

(** The [updates] sent to [playerSlice] for an array entry that is already
    there (lines 169-185). *)
Definition sliceUpdates (player existingPlayer : Player) : Updates :=
  {| u_name := orS (name player) (name existingPlayer);
     u_token := orS (token player)
                    (orS (characterToken player)
                         (orS (emoji player)
                              (orS (token existingPlayer) (Some defaultEmoji))));
     u_characterToken :=
       orS (characterToken player)
           (orS (token player)
                (orS (emoji player)
                     (orS (characterToken existingPlayer) (Some defaultEmoji))));
     u_emoji := orS (emoji player)
                    (orS (emoji existingPlayer) (Some defaultEmoji));
     u_color := orS (color player)
                    (orS (color existingPlayer) (Some "gray.500"));
     u_status := None;
     u_position := Some (match position player with
                         | Some z => z
                         | None => orZ (position existingPlayer) 0
                         end);
     u_balance := Some (match balance player with
                        | Some z => z
                        | None => orZ (balance existingPlayer) 1500
                        end);
     u_jailTurns := Some (match jailTurns player with
                          | Some z => z
                          | None => orZ (jailTurns existingPlayer) 0
                          end);
     u_isReady := Some (match isReady player with
                        | Some b => b
                        | None => orFalse (isReady existingPlayer)
                        end);
     u_isHost := Some (match isHost player with
                       | Some b => b
                       | None => orFalse (isHost existingPlayer)
                       end);
     u_inJail := Some (match inJail player with
                       | Some b => b
                       | None => orFalse (inJail existingPlayer)
                       end);
     u_properties := Some (match properties player with
                           | Some l => l
                           | None => orElse (properties existingPlayer) []
                           end) |}.

(** The middleware, with [nested] standing for [store.dispatch] as the
    body calls it (lines 13-227). *)
Definition middleware (nested : ActionT -> Client -> Client)
  (action : ActionT) (c : Client) : Client :=
  let c1 := withStore (reduce action (store c)) c in      (* next(action) *)
  let state := store c1 in
  if syncInProgress c1 then c1 else
  match action with
  | AddPlayer _ _ =>
      if negb (List.length (playerSlice state) =? List.length (gamePlayers state))%nat
      then
        let playersArray := map (fun kp => toGamePlayer (snd kp)) (playerSlice state) in
        withSync false (nested (SetPlayers playersArray true) (withSync true c1))
      else c1
  | UpdatePlayer _ _ =>
      let playersArray := map (fun kp => toGamePlayer (snd kp)) (playerSlice state) in
      withSync false (nested (SetPlayers playersArray true) (withSync true c1))
  | SetPlayers _ isSync =>
      if isSync then c1 else
      let playerSlicePlayers := playerSlice state in
      withSync false
        (fold_left
           (fun acc player =>
              if String.eqb (id player) "" then acc else
              match lookupPlayer (id player) playerSlicePlayers with
              | None => nested (AddPlayer (id player) (toSlicePlayer player)) acc
              | Some existingPlayer =>
                  nested (UpdatePlayer (id player)
                                       (sliceUpdates player existingPlayer)) acc
              end)
           (gamePlayers state) (withSync true c1))
  | MovePlayer k newPosition =>
      withSync false
        (nested (UpdatePlayer k (mkUpdates None None None None None None
                                            (Some newPosition)
                                            None None None None None None))
                (withSync true c1))
  | _ => c1
  end.

Definition reduceOnly (a : ActionT) (c : Client) : Client :=
  withStore (reduce a (store c)) c.

(** [store.dispatch]: the middleware in front of the reducers. A dispatch
    made by the middleware itself enters the middleware again. *)
Definition dispatch : ActionT -> Client -> Client :=
  middleware (middleware reduceOnly).

(** Are the two rosters the same set of ids? *)
Definition sliceIds (st : State) : list string := map fst (playerSlice st).
Definition arrayIds (st : State) : list string := map id (gamePlayers st).

Definition sameIds (st : State) : Prop :=
  forall k, In k (sliceIds st) <-> In k (arrayIds st).

Definition initialClient : Client :=
  mkClient initialState false false true "p1" "p1" "room1" None false
           false false false [] [].

(** ** Socket handlers that write the stores *)

Definition strOr (a : option string) (d : string) : string :=
  match orS a (Some d) with
  | Some s => s
  | None => d
  end.

Definition isLocal (c : Client) (player : Player) : bool :=
  String.eqb (id player) (playerId c) || String.eqb (id player) (localPlayerId c).

Definition hostIs (h : option string) (k : string) : bool :=
  match h with
  | Some x => String.eqb x k
  | None => false
  end.

(** [updatePlayersHostStatus] (lines 1443-1510). *)
Definition updatePlayersHostStatus (h : option string) (skipBroadcast : bool)
  (c : Client) : Client :=
  if negb (truthyS h) then c else
  let hid := strOr h "" in
  let existingPlayers := playerSlice (store c) in
  let c1 :=
    if negb (hostIs (hostId (store c)) hid) then
      let c' := dispatch (SetHost hid) c in
      if socketOpen c' && negb skipBroadcast
      then sendMessage "verify_host" [("gameId", gameId c')] c'
      else c'
    else c in
  let changed :=
    existsb (fun kp => neqB (isHost (snd kp)) (Some (String.eqb (fst kp) hid)))
            existingPlayers in
  let c2 :=
    fold_left
      (fun acc kp =>
         let isPlayerHost := String.eqb (fst kp) hid in
         let player := snd kp in
         if neqB (isHost player) (Some isPlayerHost) then
           dispatch (UpdatePlayer (fst kp)
                       {| u_name := name player;
                          u_token := token player;
                          u_characterToken := None;
                          u_emoji := emoji player;
                          u_color := color player;
                          u_status := None;
                          u_position := None;
                          u_balance := None;
                          u_jailTurns := None;
                          u_isReady := isReady player;
                          u_isHost := Some isPlayerHost;
                          u_inJail := None;
                          u_properties := None |}) acc
         else acc)
      existingPlayers c1 in
  if changed && negb skipBroadcast
  then setTimeout 500 RequestActivePlayers c2
  else c2.

(** The record [syncPlayerDataBetweenStores] builds in both directions
    (lines 4301-4324 and 4353-4373): as in the middleware, with the avatar
    fields kept. *)
Definition toGamePlayerFull (player : Player) : Player :=
  {| id := id player;
     name := orS (name player)
                 (Some ("Player_" ++ substring 0 4 (id player))%string);
     token := orS (token player)
                  (orS (characterToken player)
                       (orS (emoji player) (Some defaultEmoji)));
     characterToken := orS (characterToken player)
                           (orS (token player)
                                (orS (emoji player) (Some defaultEmoji)));
     emoji := orS (emoji player) (Some defaultEmoji);
     color := orS (color player) (Some "gray.500");
     status := None;
     walletAddress := orS (walletAddress player) (Some "");
     position := Some (orElse (position player) 0%Z);
     balance := Some (orElse (balance player) 1500%Z);
     jailTurns := Some (orZ (jailTurns player) 0);
     isReady := Some (orFalse (isReady player));
     isHost := Some (orFalse (isHost player));
     inJail := Some (orFalse (inJail player));
     properties := Some (orElse (properties player) []);
     kekels := Some (orElse (kekels player) defaultKekels) |}.

(** [syncPlayerDataBetweenStores] (lines 4284-4380). *)
Definition syncPlayerDataBetweenStores (c : Client) : Client :=
  let playerSlicePlayers := playerSlice (store c) in
  let gameSlicePlayers := gamePlayers (store c) in
  let playersArray := map (fun kp => toGamePlayerFull (snd kp)) playerSlicePlayers in
  match playersArray with
  | _ :: _ =>
      dispatch (SetGamePhase "playing")
        (dispatch (SetGameStarted true)
           (dispatch (SetPlayers playersArray false) c))
  | [] =>
      fold_left
        (fun acc player =>
           if String.eqb (id player) "" then acc
           else dispatch (AddPlayer (id player) (toGamePlayerFull player)) acc)
        gameSlicePlayers c
  end.

(** The token update sent for the local player (lines 1876-1897); a
    missing or unreadable [localStorage] entry is [None]. *)
Definition sendStoredToken (player : Player) (c : Client) : Client :=
  if isLocal c player then
    match storedTokenData c with
    | Some td =>
        sendMessage "update_player_info"
          [("playerId", id player);
           ("characterToken",
            strOr (td_token td) (strOr (td_emoji td) defaultEmoji));
           ("token", strOr (td_token td) "");
           ("emoji", strOr (td_emoji td) defaultEmoji);
           ("color", strOr (td_color td) "gray.500");
           ("name", strOr (name player)
                      (strOr (td_name td)
                         ("Player_" ++ substring 0 4 (id player))%string))]
          c
    | None => c
    end
  else c.

(** The [updates] object [handlePlayerJoined] collects for a player that
    is already in the store (lines 1925-1963). *)
Definition joinUpdates (existingPlayer player : Player)
  (updatedHostStatus : option bool) : Updates :=
  {| u_isHost := if neqB (isHost existingPlayer) updatedHostStatus
                 then updatedHostStatus else None;
     u_isReady := match isReady player with
                  | Some b => if neqB (isReady existingPlayer) (Some b)
                              then Some b else None
                  | None => None
                  end;
     u_name := if truthyS (name player) && neqS (name existingPlayer) (name player)
               then name player else None;
     u_token := if truthyS (token player) && neqS (token existingPlayer) (token player)
                then token player else None;
     u_emoji := if truthyS (emoji player) && neqS (emoji existingPlayer) (emoji player)
                then emoji player else None;
     u_color := if truthyS (color player) && neqS (color existingPlayer) (color player)
                then color player else None;
     u_status := if truthyS (status player) && neqS (status existingPlayer) (status player)
                 then status player else None;
     u_characterToken := None;
     u_position := None;
     u_balance := None;
     u_jailTurns := None;
     u_inJail := None;
     u_properties := None |}.

Definition isSome {A} (o : option A) : bool :=
  match o with Some _ => true | None => false end.

(** [needsUpdate]: some key was put into [updates]. *)
Definition needsUpdate (u : Updates) : bool :=
  isSome (u_isHost u) || isSome (u_isReady u) || isSome (u_name u)
  || isSome (u_token u) || isSome (u_emoji u) || isSome (u_color u)
  || isSome (u_status u).

(** The record [handlePlayerJoined] adds for a new player (lines
    2028-2067). *)
Definition newPlayerData (c : Client) (player : Player) (isPlayerHost : bool)
  : Player :=
  let base :=
    {| id := id player;
       position := Some 0%Z;
       balance := Some 1500%Z;
       properties := Some [];
       status := orS (status player) (Some "ACTIVE");
       name := orS (name player)
                   (Some ("Player " ++ substring 0 4 (id player))%string);
       token := orS (token player) (orS (characterToken player) (Some ""));
       emoji := orS (emoji player) (Some defaultEmoji);
       color := orS (color player) (Some "gray.500");
       characterToken := orS (characterToken player)
                             (orS (token player)
                                  (orS (emoji player) (Some defaultEmoji)));
       isReady := Some (orElse (isReady player) false);
       isHost := Some isPlayerHost;
       walletAddress := None;
       jailTurns := None;
       inJail := None;
       kekels := None |} in
  if isLocal c player then
    match storedTokenData c with
    | Some td =>
        mkPlayer (id base) (name base)
                 (orS (td_token td) (token base))
                 (orS (td_token td) (orS (td_emoji td) (characterToken base)))
                 (orS (td_emoji td) (emoji base))
                 (orS (td_color td) (color base))
                 (status base) (walletAddress base) (position base)
                 (balance base) (jailTurns base) (isReady base) (isHost base)
                 (inJail base) (properties base) (kekels base)
    | None => base
    end
  else base.

(** [handlePlayerJoined] (lines 1861-2098). In the branch for a player
    that is already known, the second [console.log] of the [needsUpdate]
    block (lines 1967-1970) reads [data.playerId], and no [data] is in
    scope there: the statement throws a ReferenceError, so the dispatch
    of [updatePlayer] and the statements after it (lines 1971-1990) are
    never reached. *)
Definition handlePlayerJoined (player : option Player) : Action Client :=
  fun c =>
  match player with
  | None => Normal c
  | Some player =>
  if String.eqb (id player) "" then Normal c else
  let c := if socketOpen c then sendMessage "get_active_players" [] c else c in
  let c := sendStoredToken player c in
  let existingPlayers := playerSlice (store c) in
  let h := hostId (store c) in
  match lookupPlayer (id player) existingPlayers with
  | Some existingPlayer =>
      let claims := match isHost player with Some true => true | _ => false end in
      let takeOver := claims && negb (hostIs h (id player)) in
      let c := if takeOver then dispatch (SetHost (id player)) c else c in
      let updatedHostStatus :=
        if takeOver then Some true
        else if hostIs h (id player) then Some true
        else isHost existingPlayer in
      let updates := joinUpdates existingPlayer player updatedHostStatus in
      if needsUpdate updates
      then Throw (OtherError "ReferenceError: data is not defined") c
      else Normal c
  | None =>
      let claims := match isHost player with Some true => true | _ => false end in
      let '(isPlayerHost, h, c) :=
        if claims then
          (true, Some (id player), dispatch (SetHost (id player)) c)
        else if hostIs h (id player) then (true, h, c)
        else if negb (truthyS h) && (List.length existingPlayers =? 0)%nat then
          (true, Some (id player), dispatch (SetHost (id player)) c)
        else (false, h, c) in
      let playerData := newPlayerData c player isPlayerHost in
      let c := dispatch (AddPlayer (id player) playerData) c in
      let c := if isPlayerHost then updatePlayersHostStatus h true c else c in
      let c := syncPlayerDataBetweenStores c in
      Normal (setTimeout 200 RequestActivePlayers c)
  end
  end.

(** The fields of the turn messages the handlers read. *)
Record TurnMsg := mkTurnMsg {
  currentTurn : option string;
  currentPlayerField : option string;     (* data.currentPlayer *)
  playerName : option string;
  rolledDoubles : option bool
}.

Definition nameOf (players : list Player) (k : string) : option string :=
  match find (fun p => String.eqb (id p) k) players with
  | Some p => if truthyS (name p) then name p else None
  | None => None
  end.

(** [handleCurrentTurn] (lines 1591-1746); the toasts are left out. *)
Definition handleCurrentTurn (data : TurnMsg) (c : Client) : Client :=
  let previousTurn := currentPlayer (store c) in
  let players := gamePlayers (store c) in
  match orS (currentTurn data) (currentPlayerField data) with
  | Some turn =>
      if String.eqb turn "" then c else
      let c := withConfirmedFirstTurn true c in
      let c := dispatch (SetCurrentPlayer turn) c in
      let c := dispatch (ForceTurnUpdate turn) c in
      let c := setTimeout 50 (RecheckTurn turn) c in
      let who := orElse (nameOf players turn) "another player" in
      if neqS previousTurn (Some turn)
      then dispatch (AddGameMessage "TURN" ("Current turn is " ++ who)%string) c
      else c
  | None => c
  end.

(** [handleTurnChanged] (lines 4515-4632); the toasts are left out. *)
Definition handleTurnChanged (data : TurnMsg) (c : Client) : Client :=
  if negb (truthyS (currentTurn data)) then c else
  let turn := strOr (currentTurn data) "" in
  let c := dispatch (SetCurrentPlayer turn) c in
  let c := setTimeout 50 (RecheckTurn turn) c in
  let who := orElse (playerName data) "undefined" in
  if orFalse (rolledDoubles data)
  then dispatch (AddGameMessage "EXTRA_TURN"
                   (who ++ " rolled doubles and gets another turn!")%string) c
  else dispatch (AddGameMessage "TURN_CHANGE"
                   ("It's now " ++ who ++ "'s turn.")%string) c.

(** The callback of the 50 ms timer both handlers start (lines 1623-1637
    and 4538-4551); the one of [handleCurrentTurn] repeats the
    [game/forceTurnUpdate] action as well, which the reducers ignore. *)
Definition recheckTurn (expected : string) (c : Client) : Client :=
  if neqS (currentPlayer (store c)) (Some expected)
  then dispatch (SetCurrentPlayer expected) c
  else c.

Section GameStarted.

(** [setupGameStartRetryCheck] (lines 3493-3570) depends on the browser
    location and on further synchronisation helpers; it is a parameter. *)
Variable setupGameStartRetryCheck : Client -> Client.

(** [Date.now()] at the call. *)
Variable now : Z.

(** Lines 2431-2539: flags, game phase, token preservation. Returns the
    client together with [currentState], the state read at line 2453. *)
Definition gameStartedPrologue (c : Client) : Client * State :=
  let c := startTransition c in
  let c := dispatch (SetGameStarted true) c in
  let c := dispatch (SetGamePhase "playing") c in
  let c := dispatch (SetGameStartedTimestamp now) c in
  let c := dispatch (SyncGameStatus "PLAYING") c in
  let currentState := store c in
  let c := dispatch (AddGameMessage "SYSTEM"
                       "Game has started! Navigating to game board...") c in
  let c :=
    match lookupPlayer (playerId c) (playerSlice (store c)) with
    | Some playerData =>
        let avatar := strOr (token playerData)
                            (strOr (emoji playerData) defaultEmoji) in
        let c := withStoredTokenData
                   (Some (mkTokenData
                            (Some (strOr (token playerData) ""))
                            (Some (strOr (emoji playerData) defaultEmoji))
                            (Some (strOr (color playerData) "gray.500"))
                            (Some (strOr (name playerData)
                                     ("Player_" ++ substring 0 4 (playerId c))%string))))
                   c in
        let c := sendMessage "update_player_info"
                   [("playerId", playerId c);
                    ("characterToken", avatar);
                    ("token", strOr (token playerData) "");
                    ("emoji", strOr (emoji playerData) defaultEmoji);
                    ("color", strOr (color playerData) "gray.500");
                    ("name", strOr (name playerData)
                               ("Player_" ++ substring 0 4 (playerId c))%string)]
                   c in
        let c := sendMessage "update_player"
                   [("playerId", playerId c); ("token", avatar);
                    ("characterToken", avatar)] c in
        let c := sendMessage "set_player_token"
                   [("playerId", playerId c); ("token", avatar)] c in
        dispatch (UpdatePlayer (playerId c)
                    {| u_name := None;
                       u_token := Some (strOr (token playerData) "");
                       u_characterToken := Some avatar;
                       u_emoji := Some (strOr (emoji playerData) defaultEmoji);
                       u_color := Some (strOr (color playerData) "gray.500");
                       u_status := None;
                       u_position := None;
                       u_balance := None;
                       u_jailTurns := None;
                       u_isReady := None;
                       u_isHost := None;
                       u_inJail := None;
                       u_properties := None |}) c
    | None => c
    end in
  let c := setupGameStartRetryCheck c in
  (withConfirmedFirstTurn false c, currentState).

(** Lines 2541-2639: who has the first turn. [players] are those of
    [currentState], [h] is its [hostId]. *)
Definition gameStartedTurn (serverTurn h : option string) (players : list Player)
  (c : Client) : Client :=
  if truthyS serverTurn then
    let turn := strOr serverTurn "" in
    let c := dispatch (SetCurrentPlayer turn) c in
    let c := withConfirmedFirstTurn true c in
    let isMyTurn := String.eqb turn (localPlayerId c) in
    let who := orElse (nameOf players turn) "another player" in
    let c := dispatch (AddGameMessage "TURN"
                         (if isMyTurn then "It's your turn to start the game!"
                          else ("It's " ++ who ++ "'s turn to start the game")%string))
                      c in
    setTimeout 500 RequestCurrentTurn c
  else if truthyS h then
    let host := strOr h "" in
    let c := dispatch (SetCurrentPlayer host) c in
    let c := if socketOpen c
             then sendMessage "get_current_turn" []
                    (sendMessage "set_current_turn"
                       [("playerId", host); ("gameId", gameId c)] c)
             else c in
    let isMyTurn := String.eqb host (localPlayerId c) in
    let c := dispatch (AddGameMessage "TURN"
                         (if isMyTurn then "It's your turn to start the game!"
                          else "It's the host's turn to start the game")) c in
    setTimeout 500 RequestCurrentTurn c
  else
    if socketOpen c
    then sendMessage "get_game_state" [("full", "true")]
           (sendMessage "get_current_turn" [] c)
    else c.

(** Lines 2641-2738: logging, broadcast, navigation timers. *)
Definition gameStartedEpilogue (c : Client) : Client :=
  let c := setTimeout 100 LogState c in
  let c := if socketOpen c
           then sendMessage "broadcast_game_started" [("gameId", gameId c)] c
           else c in
  let c := setTimeout 500 RequestStateAndPlayers c in
  let c := setTimeout 300 NavigateToGameBoard c in
  setTimeout 1000 NavigateToGameBoard c.

(** [handleGameStarted] (lines 2421-2739); [serverTurn] is
    [data.currentTurn]. *)
Definition handleGameStarted (serverTurn : option string) (c : Client) : Client :=
  if gameStartProcessed c then c else
  let '(c1, currentState) := gameStartedPrologue c in
  gameStartedEpilogue
    (gameStartedTurn serverTurn (hostId currentState) (gamePlayers currentState) c1).

End GameStarted.

(** A value is carried by a server message, or nothing was written. *)
Definition turnFromServer (before after : State) (carried : option string)
  : Prop :=
  currentPlayer after = currentPlayer before
  \/ (truthyS carried = true /\ currentPlayer after = carried).

(** ** Vocabulary for the properties *)

(** The actions the middleware and the synchronisation helpers dispatch
    on their own. *)
Definition playerAction (a : ActionT) : bool :=
  match a with
  | AddPlayer _ _ | UpdatePlayer _ _ | SetPlayers _ _ => true
  | _ => false
  end.

(** A property of the state that no player action disturbs. *)
Definition stable (Q : State -> Prop) : Prop :=
  forall a st, playerAction a = true -> Q st -> Q (reduce a st).

Definition writesHost (a : ActionT) : bool :=
  match a with SetHost _ => true | _ => false end.

Definition writesTurn (a : ActionT) : bool :=
  match a with SetCurrentPlayer _ => true | _ => false end.

(** What a dispatch leaves alone: the socket, the messages sent, the room. *)
Definition wire (c : Client) : bool * list Sent * string :=
  (socketOpen c, sent c, gameId c).

(** The array is the image of the id-keyed store. *)
Definition arrayDerived (st : State) : Prop :=
  gamePlayers st = map (fun kp => toGamePlayer (snd kp)) (playerSlice st).

(** Sample data. *)
Definition barePlayer (k : string) : Player :=
  mkPlayer k None None None None None None None None None None None None None
           None None.

Definition named (k n : string) : Player :=
  mkPlayer k (Some n) None None None None None None None None None None None
           None None None.

Definition claimingHost (k : string) : Player :=
  mkPlayer k None None None None None None None None None None None
           (Some true) None None None.

(** A room with one player, [alice], who is the host. *)
Definition roomWithHost : Client :=
  finalOf (handlePlayerJoined (Some (claimingHost "alice")) initialClient).

End Store.

(* ================================================================== *)
(** * Backend authentication *)
(* ================================================================== *)

Module Auth.

Local Open Scope Z_scope.

(** ** Go string helpers *)

Definition lowerChar (c : ascii) : ascii :=
  let n := nat_of_ascii c in
  if ((65 <=? n) && (n <=? 90))%nat then ascii_of_nat (n + 32) else c.

(** [strings.ToLower] on the ASCII letters. Go also lowers letters outside
    ASCII, but none of them becomes an ASCII letter of the words the code
    compares with ([bearer], [hex], [base64], [buffer]), so the comparisons
    come out the same. *)
Fixpoint ToLower (s : string) : string :=
  match s with
  | EmptyString => EmptyString
  | String c rest => String (lowerChar c) (ToLower rest)
  end.

(** [strings.Split(s, sep)] for a separator of one byte *)
Fixpoint Split (s : string) (sep : ascii) : list string :=
  match s with
  | EmptyString => [EmptyString]
  | String c rest =>
      if Ascii.eqb c sep then EmptyString :: Split rest sep
      else match Split rest sep with
           | p :: ps => String c p :: ps
           | [] => [String c EmptyString]
           end
  end.

Fixpoint hasChar (c : ascii) (s : string) : bool :=
  match s with
  | EmptyString => false
  | String d rest => Ascii.eqb c d || hasChar c rest
  end.

Fixpoint trimLeftSet (cutset s : string) : string :=
  match s with
  | String c rest => if hasChar c cutset then trimLeftSet cutset rest else s
  | EmptyString => EmptyString
  end.

Fixpoint trimRightSet (cutset s : string) : string :=
  match s with
  | EmptyString => EmptyString
  | String c rest =>
      match trimRightSet cutset rest with
      | EmptyString => if hasChar c cutset then EmptyString
                       else String c EmptyString
      | t => String c t
      end
  end.

(** [strings.Trim(s, cutset)] *)
Definition Trim (s cutset : string) : string :=
  trimRightSet cutset (trimLeftSet cutset s).

(** [strings.ReplaceAll(s, old, "")] for [old] of one byte *)
Fixpoint removeChar (c : ascii) (s : string) : string :=
  match s with
  | EmptyString => EmptyString
  | String d rest =>
      if Ascii.eqb c d then removeChar c rest else String d (removeChar c rest)
  end.

(** ** Tokens (jwt.go) *)

Inductive SigningMethod := HS256 | HS384 | HS512 | RS256 | ES256 | NoSigning.

(** [token.Method.( *jwt.SigningMethodHMAC)] succeeds *)
Definition isHMAC (m : SigningMethod) : bool :=
  match m with
  | HS256 | HS384 | HS512 => true
  | _ => false
  end.

(** [Claims]: the two custom claims and the registered claims the code sets,
    as numeric dates in seconds. *)
Record Claims := mkClaims {
  UserID : string;
  WalletAddress : string;
  ExpiresAt : option Z;
  IssuedAt : option Z
}.

Record Token := mkToken {
  Method : SigningMethod;
  TokenClaims : Claims;
  Signature : string
}.

Inductive Response :=
| HTTPError (code : nat) (message : string)
| Next (context : list (string * string))      (* next(c) with the values set *)
| JSON (code : nat) (userId walletAddress token : string)
| Panic.

Definition StatusBadRequest : nat := 400.
Definition StatusUnauthorized : nat := 401.
Definition StatusInternalServerError : nat := 500.
Definition StatusOK : nat := 200.

(** Durations and instants are nanoseconds. *)
Definition Second : Z := 1000000000.
Definition Hour : Z := 3600 * Second.

(** [int64] arithmetic wraps around. *)
Definition wrap64 (z : Z) : Z := (z + 2 ^ 63) mod 2 ^ 64 - 2 ^ 63.

(** [jwt.NewNumericDate(t)]: the instant cut to whole seconds. *)
Definition NewNumericDate (t : Z) : Z := t / Second.

Fixpoint lookup (k : string) (m : list (string * string)) : option string :=
  match m with
  | [] => None
  | (k', v) :: m' => if String.eqb k k' then Some v else lookup k m'
  end.

Section JWT.

(** The jwt library: the MAC a method computes with a key over the header
    and claims of a token, and the compact serialisation of tokens. *)
Variable sign : SigningMethod -> string -> Claims -> string.
Variable encode : Token -> string.
Variable decode : string -> option Token.

(** [token.SignedString(key)] *)
Definition SignedString (m : SigningMethod) (claims : Claims) (key : string)
  : string :=
  encode (mkToken m claims (sign m key claims)).

(** The registered-claims check of [jwt.ParseWithClaims]: a token that
    carries [exp] is valid strictly before it. *)
Definition notExpired (now : Z) (claims : Claims) : bool :=
  match ExpiresAt claims with
  | Some e => now <? e * Second
  | None => true
  end.

(** [jwt.ParseWithClaims(tokenString, &Claims{}, keyFunc)] with the key
    function of the middleware (lines 37-43): [None] is a non-nil error. *)
Definition ParseWithClaims (tokenString secret : string) (now : Z)
  : option Token :=
  match decode tokenString with
  | None => None                                   (* malformed *)
  | Some token =>
      if negb (isHMAC (Method token)) then None    (* unexpected signing method *)
      else if negb (String.eqb (Signature token)
                      (sign (Method token) secret (TokenClaims token)))
      then None                                    (* signature is invalid *)
      else if negb (notExpired now (TokenClaims token)) then None
      else Some token
  end.

(** [JWTMiddleware(secret)(next)(c)] (lines 21-69), [authHeader] being the
    Authorization header of the request, empty when absent. *)
Definition JWTMiddleware (secret authHeader : string) (now : Z) : Response :=
  if String.eqb authHeader "" then
    HTTPError StatusUnauthorized "missing authorization header"
  else
    match Split authHeader " "%char with
    | [scheme; tokenString] =>
        if negb (String.eqb (ToLower scheme) "bearer") then
          HTTPError StatusUnauthorized "invalid authorization header format"
        else
          match ParseWithClaims tokenString secret now with
          | None => HTTPError StatusUnauthorized "invalid or expired token"
          | Some token =>
              let claims := TokenClaims token in
              Next (("userID", UserID claims)
                    :: if String.eqb (WalletAddress claims) "" then []
                       else [("walletAddress", WalletAddress claims)])
          end
    | _ => HTTPError StatusUnauthorized "invalid authorization header format"
    end.

(** The claims [GenerateJWT] builds (lines 74-84). *)
Definition generatedClaims (userID walletAddress : string)
  (expirationHours now : Z) : Claims :=
  let expirationTime := now + wrap64 (expirationHours * Hour) in
  mkClaims userID walletAddress
           (Some (NewNumericDate expirationTime))
           (Some (NewNumericDate now)).

(** [GenerateJWT] (lines 72-96) at the instant [now]. Signing with HS256
    and a byte-slice key does not fail. *)
Definition GenerateJWT (userID walletAddress secret : string)
  (expirationHours now : Z) : string :=
  SignedString HS256 (generatedClaims userID walletAddress expirationHours now)
               secret.

(** What [RefreshToken] reads back from the context (lines 245-249). *)
Definition contextUserID (ctx : list (string * string)) : option string :=
  lookup "userID" ctx.

Definition contextWallet (ctx : list (string * string)) : string :=
  match lookup "walletAddress" ctx with
  | Some addr => addr
  | None => EmptyString
  end.

(** ** Wallet signatures (SolanaValidator) *)

(** The Solana and encoding libraries: base58 public keys, hex and base64
    decoding, [fmt.Sscanf(part, "%d", &b)] for one byte, and the Ed25519
    check of [solana.Signature.Verify]. Byte slices are strings. *)
Variable PubKey : Type.
Variable PublicKeyFromBase58 : string -> option PubKey.
Variable hexDecode : string -> option string.
Variable base64Decode : string -> option string.
Variable scanByte : string -> option ascii.
Variable ed25519Verify : PubKey -> string -> string -> bool.

Record SolanaValidator := mkValidator {
  clientReady : bool;       (* v.client != nil *)
  enabled : bool
}.

(** [NewSolanaValidator] *)
Definition NewSolanaValidator : SolanaValidator := mkValidator true true.

Definition Disable (v : SolanaValidator) : SolanaValidator :=
  mkValidator (clientReady v) false.

Definition Enable (v : SolanaValidator) : SolanaValidator :=
  mkValidator (clientReady v) true.

Fixpoint scanBytes (parts : list string) : option string :=
  match parts with
  | [] => Some EmptyString
  | part :: rest =>
      match scanByte part with
      | None => None
      | Some b => option_map (String b) (scanBytes rest)
      end
  end.

(** [parseBufferSignature] (lines 134-159) *)
Definition parseBufferSignature (bufferStr : string) : option string :=
  let s := Trim bufferStr "[]" in
  let s := removeChar " "%char s in
  let s := removeChar (ascii_of_nat 10) s in
  let s := removeChar (ascii_of_nat 9) s in
  let parts := Split s ","%char in
  if negb (List.length parts =? 64)%nat then None else scanBytes parts.

(** The [switch] on the format (lines 86-117). *)
Definition decodeSignature (signature format : string) : option string :=
  let f := ToLower format in
  if String.eqb f "hex" then hexDecode signature
  else if String.eqb f "base64" then base64Decode signature
  else if String.eqb f "buffer" then parseBufferSignature signature
  else match hexDecode signature with
       | Some b => Some b
       | None =>
           match base64Decode signature with
           | Some b => Some b
           | None => parseBufferSignature signature
           end
       end.

(** [VerifySignature] (lines 63-131): the boolean and whether the error
    is non-nil. *)
Definition VerifySignature (v : SolanaValidator)
  (walletAddress message signature format : string) : bool * bool :=
  if negb (enabled v) then (true, false)
  else if negb (clientReady v) then (false, true)
  else match PublicKeyFromBase58 walletAddress with
       | None => (false, true)
       | Some pubKey =>
           match decodeSignature signature format with
           | None => (false, true)
           | Some signatureBytes =>
               if negb (String.length signatureBytes =? 64)%nat
               then (false, true)
               else (ed25519Verify pubKey message signatureBytes, false)
           end
       end.

(** ** The wallet-connect handler (auth_handler.go) *)

Record Config := mkConfig {
  JWTSecret : string;
  JWTExpiration : Z;
  SolanaDevMode : bool
}.

Record AuthHandler := mkAuthHandler {
  cfg : option Config;
  validator : option SolanaValidator
}.

(** [NewAuthHandler] (lines 23-58) *)
Definition NewAuthHandler (cfg : option Config) : AuthHandler :=
  match cfg with
  | Some conf =>
      mkAuthHandler cfg
        (Some (if SolanaDevMode conf then Disable NewSolanaValidator
               else Enable NewSolanaValidator))
  | None => mkAuthHandler None (Some (Disable NewSolanaValidator))
  end.

Record WalletConnectRequest := mkRequest {
  reqWalletAddress : string;
  reqSignature : string;
  reqMessage : string;
  reqFormat : string;
  queryFormat : string;          (* c.QueryParam("format") *)
  formFormat : string            (* c.Request().PostFormValue("format") *)
}.

(** The format of the signature: the request field, else the query
    parameter, else the form value (lines 186-194). *)
Definition effectiveFormat (req : WalletConnectRequest) : string :=
  if String.eqb (reqFormat req) "" then
    if String.eqb (queryFormat req) "" then formFormat req else queryFormat req
  else reqFormat req.

(** The [validate:"required"] tags of [WalletConnectRequest] (lines
    73-78), as a validator registered in echo checks them: the error
    text, or [None] for a request that passes. *)
Definition requiredFields (req : WalletConnectRequest) : option string :=
  if String.eqb (reqWalletAddress req) ""
     || String.eqb (reqSignature req) ""
     || String.eqb (reqMessage req) ""
  then Some "validation failed" else None.

(** [WalletConnect] (lines 157-240). [Validate] is [c.Validate(&req)] as
    the server is set up: the text of the error, or [None]. [body] is
    [None] when binding the request fails, [newUserID] is
    [uuid.New().String()]. Returns the response and the handler with its
    validator as the call left it. *)
Definition WalletConnectWith (Validate : WalletConnectRequest -> option string)
  (h : AuthHandler) (body : option WalletConnectRequest)
  (newUserID : string) (now : Z) : Response * AuthHandler :=
  match body with
  | None => (HTTPError StatusBadRequest "Invalid request body", h)
  | Some req =>
      match Validate req with
      | Some message => (HTTPError StatusBadRequest message, h)
      | None =>
        let devMode := match cfg h with
                       | Some conf => SolanaDevMode conf
                       | None => false
                       end in
        let v := match validator h with
                 | Some v => v
                 | None => Disable NewSolanaValidator
                 end in
        let v := if devMode then Disable v else v in
        let h := mkAuthHandler (cfg h) (Some v) in
        let format := effectiveFormat req in
        let '(valid, err) :=
          VerifySignature v (reqWalletAddress req) (reqMessage req)
                          (reqSignature req) format in
        if err then (HTTPError StatusBadRequest "Invalid signature", h)
        else if negb valid then
          (HTTPError StatusUnauthorized "Signature verification failed", h)
        else
          match cfg h with
          | None => (Panic, h)                   (* h.cfg.JWT on a nil config *)
          | Some conf =>
              (JSON StatusOK newUserID (reqWalletAddress req)
                    (GenerateJWT newUserID (reqWalletAddress req)
                                 (JWTSecret conf) (JWTExpiration conf) now),
               h)
          end
      end
  end.

(** [WalletConnect] behind a validator that implements the tags of the
    request. *)
Definition WalletConnect : AuthHandler -> option WalletConnectRequest
                           -> string -> Z -> Response * AuthHandler :=
  WalletConnectWith requiredFields.

End JWT.

(** ** A small instance of the libraries, to run the code on samples

    Tokens are written as six fields separated by dots; the MAC is the key
    followed by the claims; a public key is its own base58 text; a
    signature verifies when it is the message padded with dashes to 64
    bytes. *)

Definition showN (n : Z) : string :=
  NilEmpty.string_of_uint (N.to_uint (Z.to_N n)).

Definition readN (s : string) : option Z :=
  option_map (fun u => Z.of_N (N.of_uint u)) (NilEmpty.uint_of_string s).

Definition showMethod (m : SigningMethod) : string :=
  match m with
  | HS256 => "HS256" | HS384 => "HS384" | HS512 => "HS512"
  | RS256 => "RS256" | ES256 => "ES256" | NoSigning => "none"
  end.

Definition readMethod (s : string) : option SigningMethod :=
  if String.eqb s "HS256" then Some HS256
  else if String.eqb s "HS384" then Some HS384
  else if String.eqb s "HS512" then Some HS512
  else if String.eqb s "RS256" then Some RS256
  else if String.eqb s "ES256" then Some ES256
  else if String.eqb s "none" then Some NoSigning
  else None.

Definition secondsOf (d : option Z) : Z :=
  match d with
  | Some e => e
  | None => 0
  end.

Definition toySign (m : SigningMethod) (key : string) (c : Claims) : string :=
  (key ++ "/" ++ showMethod m ++ "/" ++ UserID c ++ "/" ++ WalletAddress c
   ++ "/" ++ showN (secondsOf (ExpiresAt c)))%string.

Definition toyEncode (t : Token) : string :=
  (showMethod (Method t) ++ "." ++ UserID (TokenClaims t) ++ "."
   ++ WalletAddress (TokenClaims t) ++ "."
   ++ showN (secondsOf (ExpiresAt (TokenClaims t))) ++ "."
   ++ showN (secondsOf (IssuedAt (TokenClaims t))) ++ "."
   ++ Signature t)%string.

Definition toyDecode (s : string) : option Token :=
  match Split s "."%char with
  | [m; u; w; e; i; sg] =>
      match readMethod m, readN e, readN i with
      | Some m, Some e, Some i =>
          Some (mkToken m (mkClaims u w (Some e) (Some i)) sg)
      | _, _, _ => None
      end
  | _ => None
  end.

Fixpoint dashes (n : nat) : string :=
  match n with
  | O => EmptyString
  | S k => String "-"%char (dashes k)
  end.

Definition toySignature (message : string) : string :=
  (message ++ dashes (64 - String.length message))%string.

Definition toyVerify (pubKey message signature : string) : bool :=
  String.eqb signature (toySignature message).

Definition toyBase58 (s : string) : option string :=
  if String.eqb s "" then None else Some s.

Definition toyHex (s : string) : option string :=
  if hasChar "!"%char s then None else Some s.

Definition toyScanByte (s : string) : option ascii :=
  option_map (fun z => ascii_of_nat (Z.to_nat z)) (readN s).

Definition toyMiddleware : string -> string -> Z -> Response :=
  JWTMiddleware toySign toyDecode.

Definition toyGenerate : string -> string -> string -> Z -> Z -> string :=
  GenerateJWT toySign toyEncode.

Definition toyWalletConnect
  : AuthHandler -> option WalletConnectRequest -> string -> Z
    -> Response * AuthHandler :=
  WalletConnect toySign toyEncode string toyBase58 toyHex toyHex toyScanByte
                toyVerify.

Definition devConfig : Config := mkConfig "secret" 24 true.
Definition prodConfig : Config := mkConfig "secret" 24 false.

Definition forgedRequest : WalletConnectRequest :=
  mkRequest "wallet1" "forged" "Sign in to Kekopoly" "hex" "" "".

Definition wrongRequest : WalletConnectRequest :=
  mkRequest "wallet1" (toySignature "another message")
            "Sign in to Kekopoly" "hex" "" "".

Definition honestRequest : WalletConnectRequest :=
  mkRequest "wallet1" (toySignature "Sign in to Kekopoly")
            "Sign in to Kekopoly" "hex" "" "".

End Auth.

(* ================================================================== *)
(** * Disconnection grace period *)
(* ================================================================== *)

Module Grace.

Local Open Scope Z_scope.

Inductive SessionState := CONNECTING | ACTIVE | GRACE | FORFEITED | CLOSED.

Inductive Signal :=
| TransportLoss
| Reconnect
| Tick.

Record Session := mkSession {
  state : SessionState;
  countdownRemaining : Z          (* seconds, meaningful in GRACE *)
}.

Definition gracePeriod : Z := 180.
Definition tickInterval : Z := 30.

(** Modelled from the spec: the backend timer that implements the
    disconnection handling is not among the sources; only the architecture
    document describes it (a 3-minute countdown checked every 30 seconds,
    reconnection restores ACTIVE, expiry forfeits, a forfeited player cannot
    rejoin). The machine follows section 4.2: loss of the transport puts an
    ACTIVE session into GRACE with the full countdown; in GRACE a
    reconnection returns to ACTIVE, a tick that uses up the countdown
    forfeits, and a repeated loss signal does not restart the countdown. *)
Definition step (s : Session) (sig : Signal) : Session :=
  match state s, sig with
  | ACTIVE, TransportLoss => mkSession GRACE gracePeriod
  | GRACE, Reconnect => mkSession ACTIVE 0
  | GRACE, Tick =>
      if countdownRemaining s - tickInterval <=? 0
      then mkSession FORFEITED 0
      else mkSession GRACE (countdownRemaining s - tickInterval)
  | _, _ => s
  end.

Fixpoint run (s : Session) (sigs : list Signal) : Session :=
  match sigs with
  | [] => s
  | sig :: rest => run (step s sig) rest
  end.

End Grace.

(* ================================================================== *)
(** * Priorities of the send call sites *)
(* ================================================================== *)

Module Lanes.

(** [sed 's/old/new/g']: every occurrence of [old], left to right and
    without overlap, becomes [new]. [skip] counts the characters of the
    occurrence being replaced that are still to be dropped. The patterns
    of the script escape their dots and contain no other special
    character, so they match literally. *)
Fixpoint substituteFrom (old new : string) (skip : nat) (s : string) : string :=
  match s with
  | EmptyString => EmptyString
  | String c rest =>
      match skip with
      | S k => substituteFrom old new k rest
      | O =>
          if String.prefix old s
          then (new ++ substituteFrom old new (String.length old - 1) rest)%string
          else String c (substituteFrom old new 0 rest)
      end
  end.

Definition substitute (old new s : string) : string :=
  match old with
  | EmptyString => s
  | _ => substituteFrom old new 0 s
  end.

(** The four [sed] commands of the migration script, in order. *)
Definition rules : list (string * string) :=
  [("c.hub.SendToPlayer(c.gameID, c.playerID, errorJSON)",
    "c.hub.SendToPlayerWithPriority(c.gameID, c.playerID, errorJSON, PriorityHigh)");
   ("c.hub.SendToPlayer(c.gameID, c.playerID, ackBytes)",
    "c.hub.SendToPlayerWithPriority(c.gameID, c.playerID, ackBytes, PriorityNormal)");
   ("c.hub.SendToPlayer(c.gameID, c.playerID, responseJSON)",
    "c.hub.SendToPlayerWithPriority(c.gameID, c.playerID, responseJSON, PriorityNormal)");
   ("c.hub.SendToPlayer(gameID, c.playerID, confirmationJSON)",
    "c.hub.SendToPlayerWithPriority(gameID, c.playerID, confirmationJSON, PriorityNormal)")].

(** The script applied to one line of [hub.go]. *)
Definition migrate (line : string) : string :=
  fold_left (fun l r => substitute (fst r) (snd r) l) rules line.

Inductive Priority := PriorityHigh | PriorityNormal | PriorityLow.

(** The priority argument of a migrated call, if it has one. *)
Definition priorityOfCall (call : string) : option Priority :=
  if Frames.includes call ", PriorityHigh)" then Some PriorityHigh
  else if Frames.includes call ", PriorityNormal)" then Some PriorityNormal
  else if Frames.includes call ", PriorityLow)" then Some PriorityLow
  else None.

(** The direct sends of [hub.go] the script rewrites, by what they carry. *)
Inductive MessageKind := ErrorMessage | Acknowledgement | Reply | Confirmation.

Definition callSite (k : MessageKind) : string :=
  match k with
  | ErrorMessage => "c.hub.SendToPlayer(c.gameID, c.playerID, errorJSON)"
  | Acknowledgement => "c.hub.SendToPlayer(c.gameID, c.playerID, ackBytes)"
  | Reply => "c.hub.SendToPlayer(c.gameID, c.playerID, responseJSON)"
  | Confirmation => "c.hub.SendToPlayer(gameID, c.playerID, confirmationJSON)"
  end.

Definition laneOf (k : MessageKind) : option Priority :=
  priorityOfCall (migrate (callSite k)).

End Lanes.

(* ================================================================== *)
(** * Account and profile handlers of the backend *)
(* ================================================================== *)

Module Accounts.

Import Auth.

Local Open Scope Z_scope.

Definition StatusCreated : nat := 201.
Definition StatusNoContent : nat := 204.

(** [AuthResponse] (auth_handler.go lines 82-88) *)
Record AuthResponse := mkAuthResponse {
  ar_UserID : string;
  ar_Username : string;
  ar_Email : string;
  ar_WalletAddress : string;
  ar_Token : string
}.

(** [UserProfileResponse] and [WalletInfo] of the user handlers *)
Record UserProfileResponse := mkProfile {
  up_UserID : string;
  up_Username : string;
  up_Email : string;
  up_WalletAddress : string;
  up_AvatarURL : string
}.

Record WalletInfo := mkWalletInfo {
  wi_Address : string;
  wi_IsVerified : bool;
  wi_Balance : string;
  wi_TokenName : string;
  wi_TokenSymbol : string
}.

(** What a handler returns: an [echo.HTTPError], one of the JSON bodies,
    an empty response, or a run-time panic (a failed type assertion, a
    slice out of range, a nil pointer). *)
Inductive Reply :=
| Failed (code : nat) (message : string)
| Authenticated (code : nat) (r : AuthResponse)
| Refreshed (code : nat) (token : string)
| Profile (code : nat) (p : UserProfileResponse)
| Wallet (code : nat) (w : WalletInfo)
| NoContent (code : nat)
| Panics.

Record RegisterRequest := mkRegister {
  reg_Email : string;
  reg_Username : string;
  reg_Password : string
}.

Record LoginRequest := mkLogin {
  login_Email : string;
  login_Password : string
}.

Record VerifyWalletRequest := mkVerifyWallet {
  vw_Signature : string;
  vw_Message : string
}.

Section Handlers.

Variable sign : SigningMethod -> string -> Claims -> string.
Variable encode : Token -> string.

(** [c.Validate(&req)] with the validator registered in echo: the error
    text, or [None] for a request that passes. *)
Variable validateRegister : RegisterRequest -> option string.
Variable validateLogin : LoginRequest -> option string.
Variable validateVerifyWallet : VerifyWalletRequest -> option string.

(** [Register] (auth_handler.go lines 91-122). [body] is [None] when
    binding the request fails, [newUserID] is [uuid.New().String()]. *)
Definition Register (h : AuthHandler) (body : option RegisterRequest)
  (newUserID : string) (now : Z) : Reply :=
  match body with
  | None => Failed StatusBadRequest "Invalid request body"
  | Some req =>
      match validateRegister req with
      | Some message => Failed StatusBadRequest message
      | None =>
          match cfg h with
          | None => Panics                       (* h.cfg.JWT on a nil config *)
          | Some conf =>
              Authenticated StatusCreated
                (mkAuthResponse newUserID (reg_Username req) (reg_Email req) ""
                   (GenerateJWT sign encode newUserID "" (JWTSecret conf)
                                (JWTExpiration conf) now))
          end
      end
  end.

(** [Login] (lines 125-154) *)
Definition Login (h : AuthHandler) (body : option LoginRequest)
  (newUserID : string) (now : Z) : Reply :=
  match body with
  | None => Failed StatusBadRequest "Invalid request body"
  | Some req =>
      match validateLogin req with
      | Some message => Failed StatusBadRequest message
      | None =>
          match cfg h with
          | None => Panics
          | Some conf =>
              Authenticated StatusOK
                (mkAuthResponse newUserID "" (login_Email req) ""
                   (GenerateJWT sign encode newUserID "" (JWTSecret conf)
                                (JWTExpiration conf) now))
          end
      end
  end.

(** [RefreshToken] (lines 243-261). [ctx] holds the values the JWT
    middleware has set; [c.Get("userID").(string)] panics on a missing
    value, the wallet address is read with the two-value form. *)
Definition RefreshToken (h : AuthHandler) (ctx : list (string * string))
  (now : Z) : Reply :=
  match lookup "userID" ctx with
  | None => Panics
  | Some userID =>
      let walletAddress := match lookup "walletAddress" ctx with
                           | Some addr => addr
                           | None => EmptyString
                           end in
      match cfg h with
      | None => Panics
      | Some conf =>
          Refreshed StatusOK
            (GenerateJWT sign encode userID walletAddress (JWTSecret conf)
                         (JWTExpiration conf) now)
      end
  end.

(** [Logout] (lines 264-271) *)
Definition Logout : Reply := NoContent StatusNoContent.

(** [UserHandler.GetProfile]: both context values are read with the
    one-value type assertion, and the user name takes the first six bytes
    of the user id. *)
Definition GetProfile (ctx : list (string * string)) : Reply :=
  match lookup "userID" ctx with
  | None => Panics
  | Some userID =>
      if (String.length userID <? 6)%nat then Panics     (* userID[:6] *)
      else
        match lookup "walletAddress" ctx with
        | None => Panics
        | Some walletAddress =>
            Profile StatusOK
              (mkProfile userID ("player_" ++ substring 0 6 userID)
                         "user@example.com" walletAddress "")
        end
  end.

(** [UserHandler.GetWallet] *)
Definition GetWallet (ctx : list (string * string)) : Reply :=
  match lookup "walletAddress" ctx with
  | None => Failed StatusBadRequest "No wallet connected"
  | Some walletAddress =>
      if String.eqb walletAddress "" then
        Failed StatusBadRequest "No wallet connected"
      else
        Wallet StatusOK
          (mkWalletInfo walletAddress true "1000" "Kekels Meme Token" "KMT")
  end.

(** [UserHandler.VerifyWallet] *)
Definition VerifyWallet (ctx : list (string * string))
  (body : option VerifyWalletRequest) : Reply :=
  match lookup "walletAddress" ctx with
  | None => Failed StatusBadRequest "No wallet connected"
  | Some walletAddress =>
      if String.eqb walletAddress "" then
        Failed StatusBadRequest "No wallet connected"
      else
        match body with
        | None => Failed StatusBadRequest "Invalid request body"
        | Some req =>
            match validateVerifyWallet req with
            | Some message => Failed StatusBadRequest message
            | None => NoContent StatusNoContent
            end
        end
  end.

End Handlers.

(** The context the middleware builds for a user id and a wallet address
    (jwt.go lines 61-64). *)
Definition contextOf (userID walletAddress : string) : list (string * string) :=
  ("userID", userID)
  :: if String.eqb walletAddress "" then [] else [("walletAddress", walletAddress)].

(** The decimal text of a byte, and
    [JSON.stringify(Array.from(signature.bytes))] as the wallet client
    sends a signature in the [buffer] format (authSlice, the third entry
    of [formats]): the numbers separated by commas, in brackets. *)
Definition decimalOfByte (b : ascii) : string :=
  NilEmpty.string_of_uint (Nat.to_uint (nat_of_ascii b)).

Fixpoint joinWith (sep : ascii) (parts : list string) : string :=
  match parts with
  | [] => EmptyString
  | [p] => p
  | p :: rest => (p ++ String sep (joinWith sep rest))%string
  end.

Fixpoint bytesOf (s : string) : list ascii :=
  match s with
  | EmptyString => []
  | String c rest => c :: bytesOf rest
  end.

Definition stringifyBytes (bytes : string) : string :=
  ("[" ++ joinWith ","%char (map decimalOfByte (bytesOf bytes)) ++ "]")%string.

Definition isDigit (c : ascii) : bool :=
  let n := nat_of_ascii c in ((48 <=? n) && (n <=? 57))%nat.

(** Texts made of decimal digits, and of digits and commas. *)
Fixpoint allDigits (s : string) : bool :=
  match s with
  | EmptyString => true
  | String c rest => isDigit c && allDigits rest
  end.

Fixpoint digitsAndCommas (s : string) : bool :=
  match s with
  | EmptyString => true
  | String c rest => (isDigit c || Ascii.eqb c ","%char) && digitsAndCommas rest
  end.

(** Requests of the sample runs. *)
Definition toyValidateRegister (req : RegisterRequest) : option string :=
  if (String.length (reg_Password req) <? 8)%nat
  then Some "Password must be at least 8 characters" else None.

Definition toyRegister : AuthHandler -> option RegisterRequest -> string -> Z -> Reply :=
  Register toySign toyEncode toyValidateRegister.

Definition toyLogin : AuthHandler -> option LoginRequest -> string -> Z -> Reply :=
  Login toySign toyEncode (fun _ => None).

Definition toyRefresh : AuthHandler -> list (string * string) -> Z -> Reply :=
  RefreshToken toySign toyEncode.

Definition sampleRegister : RegisterRequest :=
  mkRegister "pepe@example.com" "pepe" "correct horse".

Definition sampleLogin : LoginRequest :=
  mkLogin "pepe@example.com" "correct horse".

Definition sampleSignature : string :=
  toySignature "Sign in to Kekopoly".

End Accounts.

(* ================================================================== *)
(** * The browser's localStorage *)
(* ================================================================== *)

Module Browser.

(** [localStorage]: the stored items, and whether the storage can be used
    at all; when it cannot (storage disabled, quota), every call throws. *)
Record Storage := mkStorage {
  items : list (string * string);
  works : bool
}.

Fixpoint find (k : string) (l : list (string * string)) : option string :=
  match l with
  | [] => None
  | (k', v) :: l' => if String.eqb k k' then Some v else find k l'
  end.

Fixpoint remove (k : string) (l : list (string * string))
  : list (string * string) :=
  match l with
  | [] => []
  | (k', v) :: l' =>
      if String.eqb k k' then remove k l' else (k', v) :: remove k l'
  end.

(** The three calls; [None] is the exception. [getItem] gives [Some None]
    for [null]. *)
Definition getItem (k : string) (ls : Storage) : option (option string) :=
  if works ls then Some (find k (items ls)) else None.

Definition setItem (k v : string) (ls : Storage) : option Storage :=
  if works ls then Some (mkStorage ((k, v) :: remove k (items ls)) true)
  else None.

Definition removeItem (k : string) (ls : Storage) : option Storage :=
  if works ls then Some (mkStorage (remove k (items ls)) true) else None.

End Browser.

(* ================================================================== *)
(** * The auth slice of the client *)
(* ================================================================== *)

Module Session.

Import Browser.

(** The token as the slice keeps it: with the [Bearer ] prefix, added
    unless it is there already (authSlice, [formattedToken] and
    [connectSuccess]). *)
Definition formatToken (t : string) : string :=
  if String.prefix "Bearer " t then t else ("Bearer " ++ t)%string.

(** The token as the socket service puts it into the WebSocket URL: the
    prefix taken off again (socketService.js lines 199-202 and 504). *)
Definition stripBearer (t : string) : string :=
  if String.prefix "Bearer " t then substring 7 (String.length t - 7) t else t.

Section Slice.

(** The user object, [JSON.stringify] and [JSON.parse] on it; [None] is
    the SyntaxError. *)
Variable User : Type.
Variable JSON_stringify : User -> string.
Variable JSON_parse : string -> option User.

Record AuthState := mkAuthState {
  isAuthenticated : bool;
  token : option string;
  user : option User;
  error : option string;
  loading : bool
}.

(** [initialState], computed when the module is loaded. [None]: the
    module throws ([localStorage] unusable, or a stored user that is no
    JSON). *)
Definition initialState (ls : Storage) : option AuthState :=
  match getItem "kekopoly_token" ls with
  | None => None
  | Some storedToken =>
      if Store.truthyS storedToken then
        match getItem "kekopoly_user" ls with
        | None => None
        | Some storedUser =>
            match JSON_parse (Store.strOr storedUser "{}") with
            | None => None
            | Some u =>
                Some (mkAuthState true
                        (option_map formatToken storedToken) (Some u) None false)
            end
        end
      else Some (mkAuthState false None None None false)
  end.

Record ConnectPayload := mkPayload {
  payloadToken : string;
  payloadUser : User
}.

Definition connectStart (st : AuthState) : AuthState :=
  mkAuthState (isAuthenticated st) (token st) (user st) None true.

(** [connectSuccess]: the state and the two items written; [None] when
    [localStorage] throws inside the reducer. *)
Definition connectSuccess (p : ConnectPayload) (st : AuthState) (ls : Storage)
  : option (AuthState * Storage) :=
  let t := formatToken (payloadToken p) in
  let st' := mkAuthState true (Some t) (Some (payloadUser p)) None false in
  match setItem "kekopoly_token" t ls with
  | None => None
  | Some ls1 =>
      match setItem "kekopoly_user" (JSON_stringify (payloadUser p)) ls1 with
      | None => None
      | Some ls2 => Some (st', ls2)
      end
  end.

Definition connectFailure (message : string) (st : AuthState) : AuthState :=
  mkAuthState (isAuthenticated st) (token st) (user st) (Some message) false.

(** [disconnect] *)
Definition disconnect (st : AuthState) (ls : Storage)
  : option (AuthState * Storage) :=
  let st' := mkAuthState false None None (error st) (loading st) in
  match removeItem "kekopoly_token" ls with
  | None => None
  | Some ls1 =>
      match removeItem "kekopoly_user" ls1 with
      | None => None
      | Some ls2 => Some (st', ls2)
      end
  end.

End Slice.

(** The Authorization header [App] sends when it checks that a stored
    game exists ([verifyGameExists]): the stored token with the prefix,
    [None] when no token is stored or the storage throws, and no request
    is made. *)
Definition verifyGameHeader (ls : Storage) : option string :=
  match getItem "kekopoly_token" ls with
  | Some (Some t) => if String.eqb t "" then None else Some (formatToken t)
  | _ => None
  end.

Arguments mkAuthState {User}.
Arguments isAuthenticated {User} a.
Arguments token {User} a.
Arguments user {User} a.
Arguments error {User} a.
Arguments loading {User} a.
Arguments mkPayload {User}.
Arguments payloadToken {User} c.
Arguments payloadUser {User} c.

(** A user object for the sample runs: the wallet address, written as
    itself. *)
Definition toyStringifyUser (u : string) : string := u.
Definition toyParseUser (s : string) : option string :=
  if String.eqb s "" then None else Some s.

End Session.

(* ================================================================== *)
(** * Connection state of the socket service *)
(* ================================================================== *)

Module Connection.

Import Browser.

(** The values the service stores under a key of [connectionState]:
    [undefined], [null], booleans, strings, and any other value (numbers,
    objects, arrays) with the text [String(value)] gives for it and its
    truthiness. *)
Inductive Value :=
| VUndefined
| VNull
| VBool (b : bool)
| VString (s : string)
| VOther (text : string) (isTruthy : bool).

(** [String(value)], which [localStorage.setItem] stores. *)
Definition toText (v : Value) : string :=
  match v with
  | VUndefined => "undefined"
  | VNull => "null"
  | VBool true => "true"
  | VBool false => "false"
  | VString s => s
  | VOther text _ => text
  end.

Definition truthy (v : Value) : bool :=
  match v with
  | VUndefined | VNull => false
  | VBool b => b
  | VString s => negb (String.eqb s "")
  | VOther _ t => t
  end.

Inductive ReadyState := CONNECTING | OPEN | CLOSING | CLOSED.

Record Message := mkMessage {
  messageType : string;
  willReconnect : bool
}.

(** The fields of [SocketService] that the persistence methods and
    [disconnect] read or write, with [localStorage], the messages sent on
    the socket and the statuses given to [onConnectionChange]. [socket]
    is [None] for [null]. *)
Record Service := mkService {
  connectionState : list (string * Value);
  socket : option ReadyState;
  gameId : Value;
  playerId : Value;
  token : Value;
  sessionId : Value;
  isNavigating : bool;
  preserveConnection : bool;
  isTransitioningToGame : bool;
  reconnectAttempts : nat;
  maxReconnectAttempts : nat;
  reconnectInterval : Q;
  reconnectTimer : bool;
  localStorage : Storage;
  sent : list Message;
  statuses : list string
}.

(** A new instance: the class-field initialisers. *)
Definition newService (ls : Storage) : Service :=
  mkService [] None VNull VNull VNull VNull false false false
            0 5 1000 false ls [] [].

Fixpoint lookupState (k : string) (m : list (string * Value)) : option Value :=
  match m with
  | [] => None
  | (k', v) :: m' => if String.eqb k k' then Some v else lookupState k m'
  end.

Fixpoint assignState (k : string) (v : Value) (m : list (string * Value))
  : list (string * Value) :=
  match m with
  | [] => [(k, v)]
  | (k', w) :: m' =>
      if String.eqb k k' then (k, v) :: m' else (k', w) :: assignState k v m'
  end.

(** [['gameId', 'playerId', 'sessionId', 'token'].includes(key)] *)
Definition critical (key : string) : bool :=
  existsb (String.eqb key) ["gameId"; "playerId"; "sessionId"; "token"].

Definition withConnectionState (m : list (string * Value)) (s : Service)
  : Service :=
  mkService m (socket s) (gameId s) (playerId s) (token s) (sessionId s)
            (isNavigating s) (preserveConnection s) (isTransitioningToGame s)
            (reconnectAttempts s) (maxReconnectAttempts s)
            (reconnectInterval s) (reconnectTimer s) (localStorage s)
            (sent s) (statuses s).

Definition withLocalStorage (ls : Storage) (s : Service) : Service :=
  mkService (connectionState s) (socket s) (gameId s) (playerId s) (token s)
            (sessionId s) (isNavigating s) (preserveConnection s)
            (isTransitioningToGame s) (reconnectAttempts s)
            (maxReconnectAttempts s) (reconnectInterval s) (reconnectTimer s)
            ls (sent s) (statuses s).

(** The keys for which [connectionState], an object used as a map, is
    the association list of its own properties: every key but
    [__proto__], which assigns the prototype, and [hasOwnProperty], which
    would hide the method [loadState] calls. The service passes neither. *)
Definition ordinaryKey (key : string) : bool :=
  negb (String.eqb key "__proto__") && negb (String.eqb key "hasOwnProperty").

Definition ordinaryState (s : Service) : bool :=
  forallb (fun entry => ordinaryKey (fst entry)) (connectionState s).

(** [saveState] (socketService.js lines 440-451), for an ordinary key. *)
Definition saveState (key : string) (value : Value) (s : Service) : Service :=
  let s1 := withConnectionState (assignState key value (connectionState s)) s in
  if critical key then
    match setItem ("kekopoly_" ++ key) (toText value) (localStorage s1) with
    | Some ls => withLocalStorage ls s1
    | None => s1                                   (* caught and logged *)
    end
  else s1.

(** A default parameter takes its default when the argument is
    [undefined]: [defaultValue = null]. *)
Definition defaulted (defaultValue : Value) : Value :=
  match defaultValue with
  | VUndefined => VNull
  | d => d
  end.

(** [loadState] (lines 453-472) *)
Definition loadState (key : string) (defaultValue : Value) (s : Service)
  : Value :=
  match lookupState key (connectionState s) with
  | Some v => v
  | None =>
      if critical key then
        match getItem ("kekopoly_" ++ key) (localStorage s) with
        | Some (Some value) => VString value
        | Some None => defaulted defaultValue
        | None => defaulted defaultValue           (* caught and logged *)
        end
      else defaulted defaultValue
  end.

(** [sendMessage], the class field (lines 474-481), which every
    [this.sendMessage] of an instance reaches. *)
Definition sendMessage (m : Message) (s : Service) : Service :=
  match socket s with
  | Some OPEN =>
      mkService (connectionState s) (socket s) (gameId s) (playerId s)
                (token s) (sessionId s) (isNavigating s) (preserveConnection s)
                (isTransitioningToGame s) (reconnectAttempts s)
                (maxReconnectAttempts s) (reconnectInterval s)
                (reconnectTimer s) (localStorage s) (sent s ++ [m]) (statuses s)
  | _ => s
  end.

Definition isOpen (s : Service) : bool :=
  match socket s with Some OPEN => true | _ => false end.

Definition hasSocket (s : Service) : bool :=
  match socket s with Some _ => true | None => false end.

(** The first part of [disconnect(preserve)] (lines 354-362): the flag,
    and the connection saved for a later reconnection. *)
Definition saveConnection (preserve : bool) (s : Service) : Service :=
  let s :=
    mkService (connectionState s) (socket s) (gameId s) (playerId s) (token s)
              (sessionId s) (isNavigating s) preserve (isTransitioningToGame s)
              (reconnectAttempts s) (maxReconnectAttempts s)
              (reconnectInterval s) (reconnectTimer s) (localStorage s)
              (sent s) (statuses s) in
  let s := saveState "connectionActive" (VBool (hasSocket s)) s in
  let s := saveState "gameId" (gameId s) s in
  let s := saveState "playerId" (playerId s) s in
  let s := saveState "token" (token s) s in
  saveState "sessionId" (sessionId s) s.

(** [disconnect(preserve)] (lines 353-403). Closing the socket leaves its
    close event to come: the [onclose] handler of the closed socket calls
    [handleDisconnect]. *)
Definition disconnect (preserve : bool) (s : Service) : Service :=
  let s := saveConnection preserve s in
  if hasSocket s && negb (preserveConnection s) then
    let s := if isOpen s then sendMessage (mkMessage "client_navigating" false) s
             else s in
    mkService (connectionState s) None (gameId s) (playerId s) (token s)
              (sessionId s) (isNavigating s) (preserveConnection s)
              (isTransitioningToGame s) (reconnectAttempts s)
              (maxReconnectAttempts s) (reconnectInterval s) (reconnectTimer s)
              (localStorage s) (sent s) (statuses s ++ ["disconnected"])
  else if preserveConnection s then
    let s :=
      mkService (connectionState s) (socket s) (gameId s) (playerId s) (token s)
                (sessionId s) true (preserveConnection s)
                (isTransitioningToGame s) (reconnectAttempts s)
                (maxReconnectAttempts s) (reconnectInterval s)
                (reconnectTimer s) (localStorage s) (sent s) (statuses s) in
    let s := saveState "isNavigating" (VBool true) s in
    if isOpen s then sendMessage (mkMessage "client_navigating" true) s else s
  else s.

(** The part of the service [handleDisconnect] works on. *)
Definition backoffView (s : Service) : Backoff.Service :=
  {| Backoff.reconnectAttempts := reconnectAttempts s;
     Backoff.maxReconnectAttempts := maxReconnectAttempts s;
     Backoff.reconnectInterval := reconnectInterval s;
     Backoff.reconnectTimer := reconnectTimer s;
     Backoff.isNavigating := isNavigating s;
     Backoff.preserveConnection := preserveConnection s;
     Backoff.stateIsNavigating := truthy (loadState "isNavigating" (VBool false) s) |}.

(** ** The lobby socket and the reconnection after navigation *)

(** [handleLobbyDisconnect] (lines 577-593): the new service and the delay
    of the reconnection timer it starts, if any. The attempt counter is
    the one of the game socket. *)
Definition handleLobbyDisconnect (s : Backoff.Service) (event : Backoff.CloseEvent)
  : Backoff.Service * option Q :=
  if negb (Backoff.wasClean event)
     && (Backoff.reconnectAttempts s <? Backoff.maxReconnectAttempts s)%nat then
    let n := S (Backoff.reconnectAttempts s) in
    ({| Backoff.reconnectAttempts := n;
        Backoff.maxReconnectAttempts := Backoff.maxReconnectAttempts s;
        Backoff.reconnectInterval := Backoff.reconnectInterval s;
        Backoff.reconnectTimer := true;
        Backoff.isNavigating := Backoff.isNavigating s;
        Backoff.preserveConnection := Backoff.preserveConnection s;
        Backoff.stateIsNavigating := Backoff.stateIsNavigating s |},
     Some (Backoff.backoffDelay (Backoff.reconnectInterval s) n))
  else (s, None).

(** [handleLobbyConnect] (lines 560-575) and the [onopen] handler of the
    game socket (line 300): the counter starts again. *)
Definition resetAttempts (s : Backoff.Service) : Backoff.Service :=
  {| Backoff.reconnectAttempts := 0;
     Backoff.maxReconnectAttempts := Backoff.maxReconnectAttempts s;
     Backoff.reconnectInterval := Backoff.reconnectInterval s;
     Backoff.reconnectTimer := Backoff.reconnectTimer s;
     Backoff.isNavigating := Backoff.isNavigating s;
     Backoff.preserveConnection := Backoff.preserveConnection s;
     Backoff.stateIsNavigating := Backoff.stateIsNavigating s |}.

Fixpoint lobbyCloses (k : nat) (s : Backoff.Service) : Backoff.Service :=
  match k with
  | O => s
  | S k' => lobbyCloses k' (fst (handleLobbyDisconnect s (Backoff.mkClose false)))
  end.

(** The promise of the [connect] call in the navigation branch of
    [handleDisconnect] was fulfilled, which [connect] does only when it
    finds the socket open already (lines 169-174): the handler clears
    [isNavigating] and its saved copy (lines 779-784).
    [preserveConnection] stays. *)
Definition navigationResolved (s : Backoff.Service) : Backoff.Service :=
  {| Backoff.reconnectAttempts := Backoff.reconnectAttempts s;
     Backoff.maxReconnectAttempts := Backoff.maxReconnectAttempts s;
     Backoff.reconnectInterval := Backoff.reconnectInterval s;
     Backoff.reconnectTimer := Backoff.reconnectTimer s;
     Backoff.isNavigating := false;
     Backoff.preserveConnection := Backoff.preserveConnection s;
     Backoff.stateIsNavigating := false |}.

(** What happens to the game socket over time: it closes, a new socket
    opens ([onopen], line 300), or a navigation reconnection is
    fulfilled. *)
Inductive Happening :=
| Closed (event : Backoff.CloseEvent)
| Opened
| Resolved.

Fixpoint happen (hs : list Happening) (s : Backoff.Service)
  : Backoff.Service * list Backoff.Effect :=
  match hs with
  | [] => (s, [])
  | Closed event :: hs' =>
      let '(s1, es1) := Backoff.handleDisconnect s event in
      let '(s2, es2) := happen hs' s1 in
      (s2, es1 ++ es2)
  | Opened :: hs' => happen hs' (resetAttempts s)
  | Resolved :: hs' => happen hs' (navigationResolved s)
  end.

Fixpoint closes (hs : list Happening) : nat :=
  match hs with
  | [] => 0
  | Closed _ :: hs' => S (closes hs')
  | _ :: hs' => closes hs'
  end.

End Connection.

(* ================================================================== *)
(** * Whose turn it is *)
(* ================================================================== *)

Module Turn.

Local Open Scope Z_scope.

(** An id as the store or the service holds it: [undefined], [null] or a
    string. *)
Inductive Id :=
| IdUndefined
| IdNull
| IdString (s : string).

Definition isUndefined (i : Id) : bool :=
  match i with IdUndefined => true | _ => false end.

Definition truthyId (i : Id) : bool :=
  match i with
  | IdString s => negb (String.eqb s "")
  | _ => false
  end.

(** [a === b] *)
Definition sameId (a b : Id) : bool :=
  match a, b with
  | IdUndefined, IdUndefined => true
  | IdNull, IdNull => true
  | IdString x, IdString y => String.eqb x y
  | _, _ => false
  end.

(** What [isLocalPlayerTurn] reads from [store.getState()]: the three
    places a turn holder may be stored in (an absent object on the way
    gives [undefined], as the optional chaining does), the players array
    ([None] when absent; an entry that is no object is [None]) and the
    index of the current player, an integer when present. *)
Record View := mkView {
  gameCurrentPlayer : Id;            (* state?.game?.currentPlayer *)
  gameCurrentTurn : Id;              (* state?.game?.currentTurn *)
  slicesCurrentTurn : Id;            (* state?.slices?.game?.currentTurn *)
  gamePlayers : option (list (option Id));
  currentPlayerIndex : option Z
}.

(** The fields of the service the method uses; [requests] counts the
    [get_current_turn] messages it has scheduled. *)
Record Service := mkService {
  cachedTurnResult : option bool;    (* _cachedTurnResult, null at first *)
  lastTurnCheckTime : Z;             (* _lastTurnCheck *)
  turnCheckInterval : Z;             (* _turnCheckInterval *)
  lastTurnCheck : option Z;          (* lastTurnCheck, undefined at first *)
  localPlayerId : Id;
  socketOpen : bool;
  requests : nat
}.

Definition newService : Service :=
  mkService None 0 1000 None IdNull false 0.

Definition entryAt (players : list (option Id)) (index : Z) : option Id :=
  if index <? 0 then None
  else match nth_error players (Z.to_nat index) with
       | Some entry => entry
       | None => None
       end.

(** The turn holder as the method finds it (lines 4402-4421). *)
Definition turnHolder (v : View) : Id :=
  let currentTurn := gameCurrentPlayer v in
  let currentTurn := if isUndefined currentTurn then gameCurrentTurn v
                     else currentTurn in
  let currentTurn := if isUndefined currentTurn then slicesCurrentTurn v
                     else currentTurn in
  if isUndefined currentTurn then
    match gamePlayers v, currentPlayerIndex v with
    | Some players, Some index =>
        match entryAt players index with
        | Some i => i
        | None => currentTurn
        end
    | _, _ => currentTurn
    end
  else currentTurn.

(** The answer computed afresh (lines 4397-4444): the time of the check
    is noted, a [get_current_turn] request is scheduled when the socket is
    open and none was made in the last five seconds, and the answer is
    cached. *)
Definition recompute (v : View) (now : Z) (t : Service) : bool * Service :=
  let currentTurn := turnHolder v in
  let ask := socketOpen t
             && (5000 <? now - match lastTurnCheck t with
                                | Some z => z
                                | None => 0
                                end) in
  let result :=
    if negb (truthyId currentTurn) || negb (truthyId (localPlayerId t))
    then false
    else sameId currentTurn (localPlayerId t) in
  (result,
   mkService (Some result) now (turnCheckInterval t)
             (if ask then Some now else lastTurnCheck t)
             (localPlayerId t) (socketOpen t)
             (if ask then S (requests t) else requests t)).

(** [isLocalPlayerTurn] (lines 4388-4449), the later of the two class
    fields of that name, at the time [now] ([Date.now()]). Nothing in the
    [try] block throws on these values. *)
Definition isLocalPlayerTurn (v : View) (now : Z) (t : Service)
  : bool * Service :=
  match cachedTurnResult t with
  | Some cached =>
      if now - lastTurnCheckTime t <? turnCheckInterval t then (cached, t)
      else recompute v now t
  | None => recompute v now t
  end.

(** A player asking again and again: the answers, oldest first. *)
Fixpoint ask (calls : list (View * Z)) (t : Service) : list bool * Service :=
  match calls with
  | [] => ([], t)
  | (v, now) :: rest =>
      let '(r, t1) := isLocalPlayerTurn v now t in
      let '(rs, t2) := ask rest t1 in
      (r :: rs, t2)
  end.

End Turn.

(* ================================================================== *)
(** * Dice of a [dice_rolled] message *)
(* ================================================================== *)

Module Dice.

Local Open Scope Q_scope.

(** A value of a parsed message as [handleDiceRolled] looks at it.
    Numbers are the rationals the doubles are; [JObject] is an object or
    an array where only its type and truthiness matter. *)
Inductive Js :=
| JUndefined
| JNull
| JBool (b : bool)
| JNumber (q : Q)
| JString (s : string)
| JObject.

Definition truthy (v : Js) : bool :=
  match v with
  | JUndefined | JNull => false
  | JBool b => b
  | JNumber q => negb (Qeq_bool q 0)
  | JString s => negb (String.eqb s "")
  | JObject => true
  end.

(** [data.dice]: an array of values, or another value. *)
Inductive DiceField :=
| DiceArray (elements : list Js)
| DiceValue (v : Js).

Definition truthyField (f : DiceField) : bool :=
  match f with
  | DiceArray _ => true
  | DiceValue v => truthy v
  end.

Definition digitValue (c : ascii) : option Z :=
  let n := nat_of_ascii c in
  if ((48 <=? n) && (n <=? 57))%nat then Some (Z.of_nat (n - 48)) else None.

(** The decimal digits at the start of a text, read as a number; [None]
    when there is none. *)
Fixpoint leadingDigits (s : string) (acc : option Z) : option Z :=
  match s with
  | EmptyString => acc
  | String c rest =>
      match digitValue c with
      | Some d =>
          leadingDigits rest
            (Some (match acc with
                   | Some a => (10 * a + d)%Z
                   | None => d
                   end))
      | None => acc
      end
  end.

(** [parseInt(text, 10)]: white space is skipped, then an optional sign
    and the digits are read; [None] is [NaN]. The integer is exact here; a
    double would round it only where it is far above six. *)
Definition parseInt10 (text : string) : option Z :=
  match Frames.trimStart text with
  | String c rest =>
      if Ascii.eqb c "-"%char then option_map Z.opp (leadingDigits rest None)
      else if Ascii.eqb c "+"%char then leadingDigits rest None
      else leadingDigits (String c rest) None
  | EmptyString => None
  end.

(** The body of [dice.map] (lines 2284-2294). *)
Definition validDie (value : Js) : Js :=
  let numValue :=
    match value with
    | JString s => option_map inject_Z (parseInt10 s)
    | JNumber q => Some q
    | _ => None
    end in
  match numValue with
  | Some q => if Qle_bool 1 q && Qle_bool q 6 then JNumber q else JNumber 1
  | None => JNumber 1
  end.

(** The fields of the message that carry dice. *)
Record Rolled := mkRolled {
  dice : DiceField;
  dice1 : Js;
  dice2 : Js
}.

(** The validated dice (lines 2273-2294). *)
Definition validatedDice (data : Rolled) : list Js :=
  let diceField :=
    if negb (truthyField (dice data)) && negb (truthy (dice1 data))
       && negb (truthy (dice2 data))
    then DiceArray [JNumber 1; JNumber 1]
    else dice data in
  let values :=
    match diceField with
    | DiceArray elements => elements
    | DiceValue _ => [dice1 data; dice2 data]
    end in
  map validDie values.

(** [a === b] on what the destructuring of the validated array gives:
    numbers, or [undefined] for a missing element. *)
Definition sameDie (a b : Js) : bool :=
  match a, b with
  | JNumber x, JNumber y => Qeq_bool x y
  | JUndefined, JUndefined => true
  | _, _ => false
  end.

(** The payload of the [updateDiceRoll] action (lines 2296-2308). *)
Record DiceRoll := mkDiceRoll {
  rolled1 : Js;
  rolled2 : Js;
  isDoubles : bool
}.

Definition updateDiceRollPayload (data : Rolled) : DiceRoll :=
  let validated := validatedDice data in
  let d1 := nth 0 validated JUndefined in
  let d2 := nth 1 validated JUndefined in
  mkDiceRoll d1 d2 (sameDie d1 d2).

(** Texts of one-byte white space, and texts that go on with a digit. *)
Fixpoint allSpaces (s : string) : bool :=
  match s with
  | EmptyString => true
  | String c rest => Frames.isSpace c && allSpaces rest
  end.

Definition startsWithDigit (s : string) : bool :=
  match s with
  | String c _ => match digitValue c with Some _ => true | None => false end
  | EmptyString => false
  end.

(** A die as the game takes it: a number from one to six. *)
Definition isDie (v : Js) : Prop :=
  exists q, v = JNumber q /\ 1 <= q /\ q <= 6.

End Dice.

(* ================================================================== *)
(** * Shape of the recovered candidates *)
(* ================================================================== *)

Module Shape.

(** How often a character occurs in a text. *)
Fixpoint countChar (c : ascii) (s : string) : nat :=
  match s with
  | EmptyString => 0
  | String d rest => (if Ascii.eqb c d then 1 else 0) + countChar c rest
  end.

(** A brace-delimited text with as many opening as closing braces. *)
Definition balancedObject (m : string) : Prop :=
  Frames.startsWith m "{" = true
  /\ Frames.endsWithClose m = true
  /\ countChar Frames.open_brace m = countChar Frames.close_brace m.

End Shape.

(* ================================================================== *)
(** * Frames of several objects *)
(* ================================================================== *)

Module Recovery.

Import Js Frames.

(** A text without braces. *)
Fixpoint braceFree (s : string) : bool :=
  match s with
  | EmptyString => true
  | String c rest =>
      negb (Ascii.eqb c open_brace) && negb (Ascii.eqb c close_brace)
      && braceFree rest
  end.

(** The language of the brace pattern
    [/\{(?:[^{}]|(?:\{(?:[^{}]|(?:\{[^{}]*\}))*\}))*\}/] (lines 632 and
    1095), read off the expression: [Nest k s] says that [s] is a run of
    characters that are no braces and of brace groups, the groups nested
    at most [k] deep; the pattern matches an opening brace, a run with
    [k = 2], and a closing brace. *)
Inductive Nest : nat -> string -> Prop :=
| Nest_end (k : nat) : Nest k EmptyString
| Nest_char (k : nat) (c : ascii) (s : string) :
    Ascii.eqb c open_brace = false -> Ascii.eqb c close_brace = false ->
    Nest k s -> Nest k (String c s)
| Nest_group (k : nat) (g s : string) :
    Nest k g -> Nest (S k) s ->
    Nest (S k) (String open_brace (g ++ String close_brace s)).

Definition patternObject (o : string) : Prop :=
  exists body,
    Nest 2 body
    /\ o = String open_brace (body ++ String close_brace EmptyString).

(** Objects in a row, each followed by a text without braces (which may
    be empty). *)
Fixpoint spaced (items : list (string * string)) : string :=
  match items with
  | [] => EmptyString
  | (o, sep) :: rest => (o ++ sep ++ spaced rest)%string
  end.

Definition spacedItem (item : string * string) : Prop :=
  patternObject (fst item) /\ braceFree (snd item) = true.

(** The application state after the objects were handled one after the
    other by a handler whose exceptions are caught object by object: a
    handler that throws leaves the state as it was at the [throw]. *)
Definition routeAll {Json App : Type} (route : Json -> Action App)
  (objects : list Json) (a : App) : App :=
  fold_left (fun a data => finalOf (route data a)) objects a.

End Recovery.

(* ================================================================== *)
(** * The host of a room, from an [active_players] message *)
(* ================================================================== *)

Module Host.

Import Turn.

(** What the host block of [handleActivePlayers] (socketService.js lines
    3919-3990) leaves: the local [hostId], the argument of
    [dispatch(setHost(...))] when it is dispatched, [this.isHost] when it
    is assigned, and the [hostId] of the [host_change_ack] message when
    one is sent. *)
Record Election := mkElection {
  hostId : Id;
  setHost : option Id;
  isHost : option bool;
  acknowledged : option Id
}.

(** [messageHostId] is [data.hostId], [players] the ids of the entries of
    [data.players] (objects, as the server lists them), [currentHostId]
    is [currentState.game.hostId] and [playerId] is [this.playerId]. *)
Definition electHost (messageHostId : Id) (players : list Id)
  (currentHostId playerId : Id) (socketOpen : bool) : Election :=
  if truthyId messageHostId then
    mkElection messageHostId
               (if sameId currentHostId messageHostId then None
                else Some messageHostId)
               (Some (sameId playerId messageHostId)) None
  else
    match players with
    | [] => mkElection messageHostId None None None
    | firstPlayerId :: _ =>
        let isCurrentHostValid :=
          truthyId currentHostId
          && existsb (fun p => sameId p currentHostId) players in
        if isCurrentHostValid then
          mkElection currentHostId None
                     (Some (sameId playerId currentHostId)) None
        else
          mkElection firstPlayerId (Some firstPlayerId)
                     (Some (sameId playerId firstPlayerId))
                     (if socketOpen then Some firstPlayerId else None)
    end.

End Host.

(* ================================================================== *)
(** * Properties *)
(* ================================================================== *)

(** ** Reconnection back-off *)

Section BackoffFacts.

Import Backoff.

Lemma pow15_ge_1 (k : nat) : 1 <= pow15 k.
Proof.
  unfold pow15. apply Qpower_1_le.
  - discriminate.
  - apply Nat2Z.is_nonneg.
Qed.

Lemma backoffDelay_ge_interval (n : nat) : 1000 <= backoffDelay 1000 n.
Proof.
  unfold backoffDelay.
  setoid_replace (1000 : Q) with (1000 * 1) at 1 by ring.
  apply Qmult_le_l; [reflexivity | apply pow15_ge_1].
Qed.

(** The timers started by a failing socket with the default settings:
    five attempts, each delayed one and a half times longer than the one
    before, and none after the fifth. *)
Example default_backoff_schedule :
  map Qred (uncleanCloses 8 initialService)
  = [1000; 1500; 2250; 3375; 10125 # 2].
Proof. vm_compute. reflexivity. Qed.

(** The retry without saved player data is started only below the cap. *)
Lemma clean_retry_only_below_cap (s : Service) (saved : bool) :
  (maxReconnectAttempts s <= reconnectAttempts s)%nat ->
  backoffConnectRejected s saved = [].
Proof.
  intros H. unfold backoffConnectRejected.
  destruct saved; simpl; [| reflexivity].
  destruct (Nat.ltb_spec (reconnectAttempts s) (maxReconnectAttempts s));
    [lia | reflexivity].
Qed.

(** One unclean close outside navigation. *)
Lemma backoff_step (s : Service) (event : CloseEvent) :
  navigating s = false ->
  wasClean event = false ->
  let s' := fst (handleDisconnect s event) in
  let started := timers (snd (handleDisconnect s event)) in
  ((reconnectAttempts s < maxReconnectAttempts s)%nat ->
     reconnectAttempts s' = S (reconnectAttempts s)
     /\ started = [(backoffDelay (reconnectInterval s) (reconnectAttempts s'),
                    BackoffReconnect (reconnectAttempts s'))])
  /\ ((maxReconnectAttempts s <= reconnectAttempts s)%nat ->
        s' = s /\ started = []).
Proof.
  intros Hnav Hclean. unfold navigating in Hnav.
  unfold handleDisconnect. rewrite Hnav, Hclean. simpl negb. simpl andb.
  destruct (Nat.ltb_spec (reconnectAttempts s) (maxReconnectAttempts s)) as [Hlt | Hge];
    simpl; split; intros H; try lia; split; reflexivity.
Qed.

(** C2, as the code has it: an unclean close outside navigation either
    counts one more attempt and starts exactly one timer, whose delay is
    the interval times 1.5 to the power of the attempt number less one, or,
    once the counter has reached the cap, changes nothing and starts no
    timer. *)
Theorem backoff_outside_navigation (s : Service) (event : CloseEvent) :
  navigating s = false ->
  wasClean event = false ->
  let s' := fst (handleDisconnect s event) in
  let started := timers (snd (handleDisconnect s event)) in
  ((reconnectAttempts s < maxReconnectAttempts s)%nat ->
     reconnectAttempts s' = S (reconnectAttempts s)
     /\ started = [(backoffDelay (reconnectInterval s) (reconnectAttempts s'),
                    BackoffReconnect (reconnectAttempts s'))])
  /\ ((maxReconnectAttempts s <= reconnectAttempts s)%nat ->
        s' = s /\ started = []).
Proof. exact (backoff_step s event). Qed.

Lemma backoff_outside_navigation_witness :
  let r := handleDisconnect initialService (mkClose false) in
  reconnectAttempts (fst r) = 1%nat
  /\ timers (snd r) = [(backoffDelay 1000 1, BackoffReconnect 1)].
Proof.
  destruct (backoff_outside_navigation initialService (mkClose false)
              eq_refl eq_refl) as [Hbelow _].
  apply Hbelow. simpl. lia.
Defined.

(** A socket that keeps failing outside navigation: the attempts that are
    left up to the cap are made, each after its back-off delay, and none
    beyond. *)
Lemma backoff_run (k : nat) :
  forall s,
    navigating s = false ->
    uncleanCloses k s
    = map (fun i => backoffDelay (reconnectInterval s) (reconnectAttempts s + i))
          (seq 1 (Nat.min k (maxReconnectAttempts s - reconnectAttempts s))).
Proof.
  induction k as [| k IH]; intros s Hnav; [reflexivity |].
  cbn [uncleanCloses].
  destruct (backoff_step s (mkClose false) Hnav eq_refl) as [Hbelow Hcap].
  destruct (handleDisconnect s (mkClose false)) as [s' es] eqn:E.
  cbn [fst snd] in Hbelow, Hcap.
  destruct (Nat.lt_ge_cases (reconnectAttempts s) (maxReconnectAttempts s))
    as [Hlt | Hge].
  - destruct (Hbelow Hlt) as [Ha Ht]. rewrite Ht. cbn [map fst app].
    assert (Hnav' : navigating s' = false).
    { assert (Es : s' = fst (handleDisconnect s (mkClose false)))
        by (rewrite E; reflexivity).
      rewrite Es. unfold handleDisconnect. unfold navigating in Hnav.
      rewrite Hnav. apply Nat.ltb_lt in Hlt. simpl. rewrite Hlt. exact Hnav. }
    assert (Hi : reconnectInterval s' = reconnectInterval s
                 /\ maxReconnectAttempts s' = maxReconnectAttempts s).
    { assert (Es : s' = fst (handleDisconnect s (mkClose false)))
        by (rewrite E; reflexivity).
      rewrite Es. unfold handleDisconnect. unfold navigating in Hnav.
      rewrite Hnav. apply Nat.ltb_lt in Hlt. simpl. rewrite Hlt. split; reflexivity. }
    destruct Hi as [Hi Hm].
    rewrite (IH s' Hnav'), Hi, Hm, Ha.
    replace (maxReconnectAttempts s - reconnectAttempts s)%nat
      with (S (maxReconnectAttempts s - S (reconnectAttempts s))) by lia.
    cbn [Nat.min seq map].
    replace (reconnectAttempts s + 1)%nat with (S (reconnectAttempts s)) by lia.
    f_equal. rewrite <- (seq_shift _ 1), map_map.
    apply map_ext. intros i. f_equal. lia.
  - destruct (Hcap Hge) as [-> Ht]. rewrite Ht. cbn [map app].
    rewrite (IH s Hnav).
    replace (maxReconnectAttempts s - reconnectAttempts s)%nat with 0%nat by lia.
    rewrite !Nat.min_0_r. reflexivity.
Qed.

(** C2 as stated fails: with [preserveConnection] set (as it is from the
    start of a game on) and the counter already at the cap, an unclean
    close still starts a reconnection timer, after 100 ms, which is the
    back-off delay of no attempt, and resets the counter. *)
Lemma reconnect_during_navigation_ignores_backoff :
  let s := mkService 5 5 1000 false false true false in
  let r := handleDisconnect s (mkClose false) in
  timers (snd r) = [(100, NavigationReconnect)]
  /\ reconnectAttempts (fst r) = 0%nat
  /\ forall n, ~ 100 == backoffDelay 1000 n.
Proof.
  split; [reflexivity | split; [reflexivity |]].
  intros n H. pose proof (backoffDelay_ge_interval n) as Hge.
  rewrite <- H in Hge. revert Hge. unfold Qle. simpl. lia.
Qed.

End BackoffFacts.

(** ** Coalesced frames *)

Section SplitFacts.

Import Frames.

Lemma string_app_nil_r (s : string) : (s ++ "")%string = s.
Proof. induction s as [| c s IH]; simpl; [| rewrite IH]; reflexivity. Qed.

Lemma startsWith_open (d : ascii) (r : string) :
  startsWith (String d r) "{" = Ascii.eqb d open_brace.
Proof.
  unfold startsWith, String.prefix, open_brace.
  destruct (ascii_dec "{" d) as [<- | Hne].
  - destruct r; reflexivity.
  - symmetry. apply Ascii.eqb_neq. congruence.
Qed.

Lemma prefix_boundary (c d : ascii) (r : string) :
  String.prefix "}{" (String c (String d r))
  = Ascii.eqb c close_brace && Ascii.eqb d open_brace.
Proof.
  unfold close_brace, open_brace. cbn [String.prefix].
  destruct (ascii_dec "}" c) as [<- | Hc].
  - destruct (ascii_dec "{" d) as [<- | Hd].
    + destruct r; reflexivity.
    + simpl. symmetry. apply Ascii.eqb_neq. congruence.
  - replace (Ascii.eqb c "}") with false; [reflexivity |].
    symmetry. apply Ascii.eqb_neq. congruence.
Qed.

Lemma splitBoundary_nonempty (s : string) : splitBoundary s <> [].
Proof.
  destruct s as [| c s]; simpl; [discriminate |].
  destruct (splitBoundary s); [discriminate |].
  destruct (_ && _); discriminate.
Qed.

(** A text that ends an object, followed by one that starts an object, is
    cut between the two and nowhere inside the first. *)
Lemma splitBoundary_app (s t : string) :
  endsWithClose s = true -> startsWith t "{" = true ->
  includes s "}{" = false ->
  splitBoundary (s ++ t) = s :: splitBoundary t.
Proof.
  intros Hend Hstart. induction s as [| c s IH]; [discriminate |].
  intros Hinc. destruct s as [| d r].
  - unfold endsWithClose in Hend. simpl in Hend. simpl.
    destruct (splitBoundary t) as [| p ps] eqn:E;
      [destruct (splitBoundary_nonempty _ E) |].
    rewrite Hend, Hstart. reflexivity.
  - assert (Hend' : endsWithClose (String d r) = true) by exact Hend.
    cbn [includes] in Hinc. apply orb_false_iff in Hinc as [Hp Hinc].
    rewrite prefix_boundary in Hp.
    change ((String c (String d r) ++ t)%string)
      with (String c (String d r ++ t)%string).
    cbn [splitBoundary]. rewrite (IH Hend' Hinc).
    change ((String d r ++ t)%string) with (String d (r ++ t)%string).
    rewrite startsWith_open, Hp. reflexivity.
Qed.

Lemma splitBoundary_single (s : string) :
  includes s "}{" = false -> splitBoundary s = [s].
Proof.
  induction s as [| c s IH]; [reflexivity |].
  intros Hinc. cbn [includes] in Hinc. apply orb_false_iff in Hinc as [Hp Hinc].
  cbn [splitBoundary]. rewrite (IH Hinc).
  destruct s as [| d r].
  - unfold startsWith. simpl. rewrite andb_false_r. reflexivity.
  - rewrite prefix_boundary in Hp. rewrite startsWith_open, Hp. reflexivity.
Qed.

Lemma coalesce_starts (o : string) (rest : list string) :
  startsWith o "{" = true -> startsWith (coalesce (o :: rest)) "{" = true.
Proof.
  destruct o as [| d r]; [discriminate |].
  change (coalesce (String d r :: rest))
    with (String d (r ++ coalesce rest)%string).
  rewrite !startsWith_open. auto.
Qed.

(** Cutting a run of objects gives the objects back. *)
Lemma splitBoundary_coalesce (o : string) (rest : list string) :
  Forall objectText (o :: rest) ->
  splitBoundary (coalesce (o :: rest)) = o :: rest.
Proof.
  revert o. induction rest as [| o' rest IH]; intros o H.
  - simpl. rewrite string_app_nil_r.
    apply Forall_inv in H. destruct H as (_ & _ & H). apply splitBoundary_single, H.
  - pose proof (Forall_inv H) as (Hs & He & Hi).
    pose proof (Forall_inv_tail H) as Ht.
    change (coalesce (o :: o' :: rest)) with (o ++ coalesce (o' :: rest))%string.
    rewrite splitBoundary_app; [rewrite (IH o' Ht); reflexivity | exact He | | exact Hi].
    apply coalesce_starts. apply (Forall_inv Ht).
Qed.

Lemma includes_app_r (s t sub : string) :
  includes t sub = true -> includes (s ++ t) sub = true.
Proof.
  intros H. induction s as [| c s IH]; [exact H |].
  simpl. rewrite IH. apply orb_true_r.
Qed.

Lemma includes_boundary (s t : string) :
  endsWithClose s = true -> startsWith t "{" = true ->
  includes (s ++ t) "}{" = true.
Proof.
  intros Hend Hstart. induction s as [| c s IH]; [discriminate |].
  destruct s as [| d r].
  - unfold endsWithClose in Hend. simpl in Hend.
    destruct t as [| e t']; [discriminate |].
    rewrite startsWith_open in Hstart.
    change ((String c "" ++ String e t')%string) with (String c (String e t')).
    cbn [includes]. rewrite prefix_boundary, Hend, Hstart. reflexivity.
  - change ((String c (String d r) ++ t)%string)
      with (String c (String d r ++ t)%string).
    cbn [includes]. rewrite (IH Hend). apply orb_true_r.
Qed.

Lemma reverse_snoc (s : string) (c : ascii) :
  reverse (s ++ String c EmptyString) = String c (reverse s).
Proof.
  induction s as [| d s IH]; simpl; [reflexivity |].
  rewrite IH. reflexivity.
Qed.

Lemma reverse_involutive (s : string) : reverse (reverse s) = s.
Proof.
  induction s as [| c s IH]; simpl; [reflexivity |].
  rewrite reverse_snoc, IH. reflexivity.
Qed.

Lemma reverse_closed (s : string) :
  endsWithClose s = true -> exists r, reverse s = String close_brace r.
Proof.
  induction s as [| c s IH]; [discriminate |].
  destruct s as [| d r].
  - unfold endsWithClose. simpl. intros H. apply Ascii.eqb_eq in H. subst c.
    exists EmptyString. reflexivity.
  - intros H. destruct (IH H) as [r' E].
    exists (r' ++ String c EmptyString)%string.
    change (reverse (String c (String d r)))
      with (reverse (String d r) ++ String c EmptyString)%string.
    rewrite E. reflexivity.
Qed.

(** A closing brace is no white space and ends no white-space character. *)
Lemma isSpace2_closed (b : ascii) : isSpace2 b close_brace = false.
Proof. unfold isSpace2. apply andb_false_r. Qed.

Lemma isSpace3_closed (c b : ascii) : isSpace3 c b close_brace = false.
Proof.
  unfold isSpace3. change (nat_of_ascii close_brace) with 125%nat.
  cbn [Nat.eqb Nat.leb andb orb].
  rewrite !andb_false_r. reflexivity.
Qed.

Lemma trimStartReversed_closed (r : string) :
  trimStartReversed (String close_brace r) = String close_brace r.
Proof.
  destruct r as [| b [| c r]]; cbn [trimStartReversed];
    change (isSpace close_brace) with false; cbv iota;
    rewrite ?isSpace2_closed, ?isSpace3_closed; reflexivity.
Qed.

Lemma trimEnd_closed (s : string) :
  endsWithClose s = true -> trimEnd s = s.
Proof.
  intros H. unfold trimEnd. destruct (reverse_closed s H) as [r E].
  rewrite E, trimStartReversed_closed, <- E. apply reverse_involutive.
Qed.

Lemma trimStart_open (r : string) :
  trimStart (String open_brace r) = String open_brace r.
Proof. destruct r as [| b [| c r]]; reflexivity. Qed.

Lemma trim_objectText (o : string) : objectText o -> trim o = o.
Proof.
  intros (Hs & He & _). unfold trim.
  destruct o as [| d r]; [discriminate |].
  rewrite startsWith_open in Hs. apply Ascii.eqb_eq in Hs. subst d.
  rewrite trimStart_open. apply trimEnd_closed, He.
Qed.

(** Two or more objects run together: the parts the recovery works on
    are the objects. *)
Lemma frameParts_coalesce (o1 o2 : string) (rest : list string) :
  Forall objectText (o1 :: o2 :: rest) ->
  frameParts (coalesce (o1 :: o2 :: rest)) = o1 :: o2 :: rest.
Proof.
  intros H. unfold frameParts.
  pose proof (Forall_inv H) as (_ & He & _).
  pose proof (Forall_inv_tail H) as Ht.
  change (coalesce (o1 :: o2 :: rest)) with (o1 ++ coalesce (o2 :: rest))%string.
  rewrite includes_boundary;
    [| exact He | apply coalesce_starts, (Forall_inv Ht)].
  change (o1 ++ coalesce (o2 :: rest))%string with (coalesce (o1 :: o2 :: rest)).
  rewrite (splitBoundary_coalesce _ _ H).
  clear He Ht. induction H as [| o l Ho Hl IH]; [reflexivity |].
  simpl. rewrite (trim_objectText _ Ho), IH. reflexivity.
Qed.

End SplitFacts.

Section FrameFacts.

Import Js Frames.

Variable Json : Type.
Variable JSON_parse : string -> option Json.
Variable App : Type.
Variable routeMessage : Json -> Action App.
Variable routeRecovered : Json -> Action App.

(** One turn of the recovery loop always completes; it hands the part to
    [processRecoveredMessage] exactly when the part parses, and does not
    touch the socket. *)
Lemma recoverPart_completes (part : string) (w : Frames.World Json App) :
  exists w',
    (Frames.recoverPart Json JSON_parse App routeRecovered) part w = Normal w'
    /\ recovered w' = recovered w ++ (Frames.parsedParts Json JSON_parse) [part]
    /\ socketOpen w' = socketOpen w
    /\ outbox w' = outbox w.
Proof.
  unfold Frames.recoverPart, tryCatch, parseThen. simpl.
  destruct (JSON_parse part) as [data |].
  - unfold processRecoveredMessage, andThen, pureStep, tryCatch, onApp,
      noteRecovered. simpl.
    destruct (routeRecovered data (app w)); eexists; repeat split.
  - exists w. rewrite app_nil_r. repeat split.
Qed.

Lemma parsedParts_app (xs ys : list string) :
  (Frames.parsedParts Json JSON_parse) (xs ++ ys) = (Frames.parsedParts Json JSON_parse) xs ++ (Frames.parsedParts Json JSON_parse) ys.
Proof.
  induction xs as [| x xs IH]; simpl; [reflexivity |].
  destruct (JSON_parse x); rewrite IH; reflexivity.
Qed.

(** The loop over the parts: a part that does not parse, or whose handler
    throws, does not stop the parts after it. *)
Lemma recovery_loop_completes (f : string -> string) (parts : list string) :
  forall w : Frames.World Json App,
  exists w',
    forEach parts (fun part => (Frames.recoverPart Json JSON_parse App routeRecovered) (f part)) w = Normal w'
    /\ recovered w' = recovered w ++ (Frames.parsedParts Json JSON_parse) (map f parts)
    /\ socketOpen w' = socketOpen w
    /\ outbox w' = outbox w.
Proof.
  induction parts as [| p parts IH]; intros w.
  - exists w. simpl. rewrite app_nil_r. repeat split.
  - cbn [forEach map]. unfold andThen.
    destruct (recoverPart_completes (f p) w) as (w1 & E1 & R1 & S1 & O1).
    rewrite E1.
    destruct (IH w1) as (w2 & E2 & R2 & S2 & O2).
    exists w2. rewrite E2. repeat split.
    + rewrite R2, R1. change (f p :: map f parts) with ([f p] ++ map f parts).
      rewrite parsedParts_app, app_assoc. reflexivity.
    + congruence.
    + congruence.
Qed.

Lemma attemptSyncRecovery_recovered (w : Frames.World Json App) :
  recovered (attemptSyncRecovery Json App w) = recovered w.
Proof.
  unfold attemptSyncRecovery, Frames.sendMessage.
  destruct w as [a [|] o r]; reflexivity.
Qed.

Lemma recoverFrame_completes (rawData : string) (w : Frames.World Json App) :
  exists w',
    recoverFrame Json JSON_parse App routeRecovered rawData w = Normal w'
    /\ recovered w' = recovered w ++ (Frames.parsedParts Json JSON_parse) (frameParts rawData).
Proof.
  unfold recoverFrame, frameParts, andThen, tryCatch, pureStep.
  destruct (includes rawData "}{").
  - destruct (recovery_loop_completes trim (splitBoundary rawData) w)
      as (w1 & E1 & R1 & _).
    rewrite E1. eexists. split; [reflexivity |].
    rewrite attemptSyncRecovery_recovered. exact R1.
  - destruct (startsWith (trim rawData) "{" && endsWithClose (trim rawData)).
    + destruct (recovery_loop_completes (fun s => s) (matchJsonPattern rawData) w)
        as (w1 & E1 & R1 & _).
      assert (E1' : forEach (matchJsonPattern rawData)
                      (Frames.recoverPart Json JSON_parse App routeRecovered) w
                    = Normal w1) by exact E1.
      rewrite E1'. eexists. split; [reflexivity |].
      rewrite attemptSyncRecovery_recovered, R1, map_id. reflexivity.
    + eexists. split; [reflexivity |].
      rewrite attemptSyncRecovery_recovered, app_nil_r. reflexivity.
Qed.

(** Whatever the frame and whatever the handlers do, [handleMessage]
    returns to the socket without throwing. *)
Lemma handleMessage_never_throws (rawData : string) (w : Frames.World Json App) :
  completes (handleMessage Json JSON_parse App routeMessage routeRecovered
                           rawData w).
Proof.
  unfold handleMessage, tryCatch, parseThen.
  destruct (JSON_parse rawData) as [data |].
  - unfold onApp. destruct (routeMessage data (app w)) as [a | e a]; simpl; [exact I |].
    destruct e; simpl.
    + destruct (recoverFrame_completes rawData
                  (mkWorld a (socketOpen w) (outbox w) (recovered w)))
        as (w' & E & _).
      rewrite E. exact I.
    + exact I.
  - destruct (recoverFrame_completes rawData w) as (w' & E & _).
    rewrite E. exact I.
Qed.

(** A frame that does not parse: the parts are tried in order, those that
    parse are handed over, and the handler completes. *)
Lemma unparsed_frame_recovered (rawData : string) (w : Frames.World Json App) :
  JSON_parse rawData = None ->
  let result := handleMessage Json JSON_parse App routeMessage routeRecovered
                              rawData w in
  completes result
  /\ recovered (finalOf result)
     = recovered w ++ (Frames.parsedParts Json JSON_parse) (frameParts rawData).
Proof.
  intros Hparse result. split.
  - apply handleMessage_never_throws.
  - subst result. unfold handleMessage, tryCatch, parseThen. rewrite Hparse.
    destruct (recoverFrame_completes rawData w) as (w' & E & R).
    rewrite E. exact R.
Qed.

(** The lobby handler catches whatever its callback or the parser throws,
    in the first attempt and in the recovery. *)
Lemma handleLobbyMessage_never_throws
  (isNewGame : Json -> bool) (onNewGameCallback : option (Json -> Action App))
  (rawData : string) (w : Frames.World Json App) :
  completes (handleLobbyMessage Json JSON_parse App isNewGame onNewGameCallback
                                rawData w).
Proof.
  unfold handleLobbyMessage, tryCatch.
  destruct (parseThen _ _ _ _ _ w) as [w1 | e w1]; [exact I |].
  destruct (forEach _ _ w1); exact I.
Qed.

End FrameFacts.

(** Objects separated by white space have no ["}{"] boundary; the pattern
    search finds them, but only down to three levels of nesting. *)
Example brace_matching_depth :
  Frames.matchJsonPattern "{a{b{c}}} {d{e{f{g}}}}" = ["{a{b{c}}}"; "{e{f{g}}}"].
Proof. reflexivity. Qed.

(** ** The stores: what a dispatch can change *)

Section StoreFacts.

Import Js Store.

Lemma store_withSync (b : bool) (c : Client) : store (withSync b c) = store c.
Proof. reflexivity. Qed.

Lemma store_sendMessage (t : string) (f : list (string * string)) (c : Client) :
  store (sendMessage t f c) = store c.
Proof. unfold sendMessage. destruct (socketOpen c); reflexivity. Qed.

Lemma store_setTimeout (d : Z) (t : Task) (c : Client) :
  store (setTimeout d t c) = store c.
Proof. reflexivity. Qed.

Lemma store_sendStoredToken (p : Player) (c : Client) :
  store (sendStoredToken p c) = store c.
Proof.
  unfold sendStoredToken. destruct (isLocal c p); [| reflexivity].
  destruct (storedTokenData c); [apply store_sendMessage | reflexivity].
Qed.

(** While the flag is raised the middleware is the reducers alone. *)
Lemma middleware_under_flag (nested : ActionT -> Client -> Client)
  (a : ActionT) (c : Client) :
  syncInProgress c = true -> middleware nested a c = reduceOnly a c.
Proof.
  intros H. unfold middleware, reduceOnly.
  change (syncInProgress (withStore (reduce a (store c)) c)) with (syncInProgress c).
  rewrite H. reflexivity.
Qed.

Lemma fold_left_invariant {A B} (P : A -> Prop) (f : A -> B -> A) (l : list B) :
  (forall acc x, P acc -> P (f acc x)) ->
  forall acc, P acc -> P (fold_left f l acc).
Proof.
  intros Hf. induction l as [| x l IH]; intros acc Hacc; simpl; auto.
Qed.

Lemma middleware_stable (Q : State -> Prop) (nested : ActionT -> Client -> Client) :
  stable Q ->
  (forall a c, playerAction a = true -> Q (store c) -> Q (store (nested a c))) ->
  forall a c, Q (reduce a (store c)) -> Q (store (middleware nested a c)).
Proof.
  intros HQ Hnested a c H. unfold middleware.
  set (c1 := withStore (reduce a (store c)) c).
  assert (H1 : Q (store c1)) by exact H.
  destruct (syncInProgress c1); [exact H1 |].
  destruct a; try exact H1.
  - destruct (negb _); [| exact H1].
    rewrite store_withSync. apply Hnested; [reflexivity | exact H1].
  - rewrite store_withSync. apply Hnested; [reflexivity | exact H1].
  - destruct isSync; [exact H1 |].
    rewrite store_withSync.
    apply (fold_left_invariant (fun acc => Q (store acc))); [| exact H1].
    intros acc p Hacc.
    destruct (String.eqb (id p) ""); [exact Hacc |].
    destruct (lookupPlayer (id p) (playerSlice (store c1)));
      apply Hnested; auto.
  - rewrite store_withSync. apply Hnested; [reflexivity | exact H1].
Qed.

Lemma reduceOnly_stable (Q : State -> Prop) :
  stable Q ->
  forall a c, playerAction a = true -> Q (store c) -> Q (store (reduceOnly a c)).
Proof. intros HQ a c Ha H. apply HQ; assumption. Qed.

(** A dispatch leaves a stable property as the action's own reducer
    left it. *)
Lemma dispatch_stable (Q : State -> Prop) :
  stable Q ->
  forall a c, Q (reduce a (store c)) -> Q (store (dispatch a c)).
Proof.
  intros HQ a c H. unfold dispatch.
  apply middleware_stable; [exact HQ | | exact H].
  intros a' c' Ha' H'.
  apply middleware_stable; [exact HQ | | apply HQ; assumption].
  intros a'' c'' Ha'' H''. apply reduceOnly_stable; assumption.
Qed.

Lemma hostId_stable (h : option string) : stable (fun st => hostId st = h).
Proof.
  intros a st Ha H. destruct a; try discriminate; simpl.
  - exact H.
  - destruct (lookupPlayer _ _); exact H.
  - exact H.
Qed.

Lemma currentPlayer_stable (t : option string) :
  stable (fun st => currentPlayer st = t).
Proof.
  intros a st Ha H. destruct a; try discriminate; simpl.
  - exact H.
  - destruct (lookupPlayer _ _); exact H.
  - exact H.
Qed.

Lemma reduce_hostId (a : ActionT) (st : State) :
  writesHost a = false -> hostId (reduce a st) = hostId st.
Proof.
  destruct a; try discriminate; intros _; simpl; try reflexivity.
  destruct (lookupPlayer _ _); reflexivity.
Qed.

Lemma reduce_currentPlayer (a : ActionT) (st : State) :
  writesTurn a = false -> currentPlayer (reduce a st) = currentPlayer st.
Proof.
  destruct a; try discriminate; intros _; simpl; try reflexivity.
  destruct (lookupPlayer _ _); reflexivity.
Qed.

Lemma dispatch_hostId (a : ActionT) (c : Client) :
  writesHost a = false -> hostId (store (dispatch a c)) = hostId (store c).
Proof.
  intros Ha.
  apply (dispatch_stable (fun st => hostId st = hostId (store c))
           (hostId_stable _)).
  apply reduce_hostId. exact Ha.
Qed.

Lemma dispatch_SetHost (h : string) (c : Client) :
  hostId (store (dispatch (SetHost h) c)) = Some h.
Proof.
  apply (dispatch_stable (fun st => hostId st = Some h) (hostId_stable _)).
  reflexivity.
Qed.

Lemma dispatch_currentPlayer (a : ActionT) (c : Client) :
  writesTurn a = false ->
  currentPlayer (store (dispatch a c)) = currentPlayer (store c).
Proof.
  intros Ha.
  apply (dispatch_stable (fun st => currentPlayer st = currentPlayer (store c))
           (currentPlayer_stable _)).
  apply reduce_currentPlayer. exact Ha.
Qed.

Lemma dispatch_SetCurrentPlayer (t : string) (c : Client) :
  currentPlayer (store (dispatch (SetCurrentPlayer t) c)) = Some t.
Proof.
  apply (dispatch_stable (fun st => currentPlayer st = Some t)
           (currentPlayer_stable _)).
  reflexivity.
Qed.

Lemma hostIs_true (h : option string) (k : string) :
  hostIs h k = true -> h = Some k.
Proof.
  destruct h as [x |]; simpl; [| discriminate].
  intros H. apply String.eqb_eq in H. congruence.
Qed.

(** [updatePlayersHostStatus] leaves the host it is told about in place. *)
Lemma updatePlayersHostStatus_hostId (k : string) (skip : bool) (c : Client) :
  hostId (store c) = Some k ->
  hostId (store (updatePlayersHostStatus (Some k) skip c)) = Some k.
Proof.
  intros H. unfold updatePlayersHostStatus.
  destruct (negb (truthyS (Some k))) eqn:Et; [exact H |].
  assert (Hk : strOr (Some k) "" = k).
  { unfold strOr, orS. apply negb_false_iff in Et. rewrite Et. reflexivity. }
  rewrite Hk.
  match goal with
  | |- hostId (store (if ?b then setTimeout _ _ ?x else ?x)) = _ =>
      assert (Hx : hostId (store x) = Some k);
      [| destruct b; [rewrite store_setTimeout |]; exact Hx]
  end.
  apply (fold_left_invariant (fun acc => hostId (store acc) = Some k)).
  - intros acc kp Hacc. destruct (neqB _ _); [| exact Hacc].
    rewrite dispatch_hostId; [exact Hacc | reflexivity].
  - rewrite H. simpl. rewrite String.eqb_refl. simpl. exact H.
Qed.

Lemma syncPlayerDataBetweenStores_hostId (c : Client) :
  hostId (store (syncPlayerDataBetweenStores c)) = hostId (store c).
Proof.
  unfold syncPlayerDataBetweenStores.
  destruct (map _ (playerSlice (store c))).
  - apply (fold_left_invariant
             (fun acc => hostId (store acc) = hostId (store c))); [| reflexivity].
    intros acc p Hacc. destruct (String.eqb (id p) ""); [exact Hacc |].
    rewrite dispatch_hostId; [exact Hacc | reflexivity].
  - repeat (rewrite dispatch_hostId; [| reflexivity]). reflexivity.
Qed.

(** C4, as the code has it: a [player_joined] message that marks the
    player as host always makes that player the host, whether a host
    existed or not. *)
Theorem host_claim_always_honored (player : Player) (c : Client) :
  id player <> "" ->
  isHost player = Some true ->
  hostId (store (finalOf (handlePlayerJoined (Some player) c)))
  = Some (id player).
Proof.
  intros Hid Hclaim. unfold handlePlayerJoined.
  apply String.eqb_neq in Hid. rewrite Hid, Hclaim.
  set (c1 := sendStoredToken player
               (if socketOpen c then sendMessage "get_active_players" [] c else c)).
  destruct (lookupPlayer (id player) (playerSlice (store c1))) as [existing |].
  - simpl andb.
    destruct (hostIs (hostId (store c1)) (id player)) eqn:Eh; simpl negb; cbv iota.
    + apply hostIs_true in Eh.
      destruct (needsUpdate _); simpl; exact Eh.
    + destruct (needsUpdate _); simpl; apply dispatch_SetHost.
  - cbn [finalOf].
    rewrite store_setTimeout, syncPlayerDataBetweenStores_hostId.
    apply updatePlayersHostStatus_hostId.
    rewrite dispatch_hostId; [apply dispatch_SetHost | reflexivity].
Qed.

Lemma host_claim_always_honored_witness :
  hostId (store (finalOf (handlePlayerJoined (Some (claimingHost "bob"))
                                             roomWithHost)))
  = Some "bob".
Proof.
  apply (host_claim_always_honored (claimingHost "bob") roomWithHost).
  - discriminate.
  - reflexivity.
Defined.

(** C4 as stated fails: [alice] is the host, [bob] joins claiming to be
    host, and the host becomes [bob]. *)
Lemma host_claim_replaces_existing_host :
  hostId (store roomWithHost) = Some "alice"
  /\ hostId (store (finalOf (handlePlayerJoined (Some (claimingHost "bob"))
                                                roomWithHost)))
     = Some "bob".
Proof. split; vm_compute; reflexivity. Qed.

(** ** Turn authority *)

Lemma truthyS_strOr (v : option string) :
  truthyS v = true -> Some (strOr v "") = v.
Proof.
  intros H. unfold strOr, orS. rewrite H.
  destruct v; [reflexivity | discriminate].
Qed.

Lemma store_withConfirmedFirstTurn (b : bool) (c : Client) :
  store (withConfirmedFirstTurn b c) = store c.
Proof. reflexivity. Qed.

(** The 50 ms re-check writes the value of the message it belongs to. *)
Lemma recheckTurn_writes_expected (t : string) (c : Client) :
  currentPlayer (store (recheckTurn t c)) = Some t.
Proof.
  unfold recheckTurn. destruct (neqS (currentPlayer (store c)) (Some t)) eqn:E.
  - apply dispatch_SetCurrentPlayer.
  - destruct (currentPlayer (store c)) as [x |]; simpl in E; [| discriminate].
    apply negb_false_iff, String.eqb_eq in E. congruence.
Qed.

Lemma handleCurrentTurn_turn (data : TurnMsg) (c : Client) :
  currentPlayer (store (handleCurrentTurn data c))
  = if truthyS (orS (currentTurn data) (currentPlayerField data))
    then orS (currentTurn data) (currentPlayerField data)
    else currentPlayer (store c).
Proof.
  unfold handleCurrentTurn.
  destruct (orS (currentTurn data) (currentPlayerField data)) as [t |];
    [| reflexivity].
  simpl truthyS. destruct (String.eqb t ""); [reflexivity |]. simpl negb. cbv iota.
  assert (H : currentPlayer
                (store (setTimeout 50 (RecheckTurn t)
                          (dispatch (ForceTurnUpdate t)
                             (dispatch (SetCurrentPlayer t)
                                (withConfirmedFirstTurn true c)))))
              = Some t).
  { rewrite store_setTimeout, dispatch_currentPlayer by reflexivity.
    apply dispatch_SetCurrentPlayer. }
  destruct (neqS (currentPlayer (store c)) (Some t)); [| exact H].
  rewrite dispatch_currentPlayer by reflexivity. exact H.
Qed.

Lemma handleTurnChanged_turn (data : TurnMsg) (c : Client) :
  currentPlayer (store (handleTurnChanged data c))
  = if truthyS (currentTurn data) then currentTurn data
    else currentPlayer (store c).
Proof.
  unfold handleTurnChanged.
  destruct (truthyS (currentTurn data)) eqn:E; [| reflexivity].
  simpl negb. cbv iota.
  destruct (orFalse (rolledDoubles data));
    rewrite dispatch_currentPlayer by reflexivity;
    rewrite store_setTimeout, dispatch_SetCurrentPlayer;
    apply truthyS_strOr; exact E.
Qed.

Lemma gameStartedEpilogue_store (c : Client) :
  store (gameStartedEpilogue c) = store c.
Proof.
  unfold gameStartedEpilogue. repeat rewrite store_setTimeout.
  destruct (socketOpen (setTimeout 100 LogState c));
    [rewrite store_sendMessage |]; reflexivity.
Qed.

Lemma gameStartedEpilogue_sent (m : Sent) (c : Client) :
  In m (sent c) -> In m (sent (gameStartedEpilogue c)).
Proof.
  intros H. unfold gameStartedEpilogue, setTimeout, sendMessage. simpl.
  destruct (socketOpen c); simpl; [apply in_or_app; left |]; exact H.
Qed.

Lemma gameStartedPrologue_host (retry : Client -> Client) (now : Z) (c : Client) :
  hostId (snd (gameStartedPrologue retry now c)) = hostId (store c).
Proof.
  unfold gameStartedPrologue. cbn [snd].
  repeat (rewrite dispatch_hostId by reflexivity). reflexivity.
Qed.

Lemma gameStartedTurn_turn (serverTurn h : option string)
  (players : list Player) (c : Client) :
  currentPlayer (store (gameStartedTurn serverTurn h players c))
  = if truthyS serverTurn then serverTurn
    else if truthyS h then h
    else currentPlayer (store c).
Proof.
  unfold gameStartedTurn.
  destruct (truthyS serverTurn) eqn:Es.
  - rewrite store_setTimeout, dispatch_currentPlayer by reflexivity.
    rewrite store_withConfirmedFirstTurn, dispatch_SetCurrentPlayer.
    apply truthyS_strOr; exact Es.
  - destruct (truthyS h) eqn:Eh.
    + rewrite store_setTimeout, dispatch_currentPlayer by reflexivity.
      destruct (socketOpen (dispatch (SetCurrentPlayer (strOr h "")) c));
        repeat rewrite store_sendMessage;
        rewrite dispatch_SetCurrentPlayer; apply truthyS_strOr; exact Eh.
    + destruct (socketOpen c); repeat rewrite store_sendMessage; reflexivity.
Qed.

(** A dispatch touches the store and the synchronisation flag only. *)
Lemma middleware_wire (nested : ActionT -> Client -> Client) :
  (forall a c, wire (nested a c) = wire c) ->
  forall a c, wire (middleware nested a c) = wire c.
Proof.
  intros Hn a c. unfold middleware.
  set (c1 := withStore (reduce a (store c)) c).
  assert (H1 : wire c1 = wire c) by reflexivity.
  destruct (syncInProgress c1); [exact H1 |].
  assert (Hfin : forall a' x, wire x = wire c ->
                              wire (withSync false (nested a' x)) = wire c).
  { intros a' x Hx. change (wire (nested a' x) = wire c). rewrite Hn. exact Hx. }
  destruct a; try exact H1.
  - destruct (negb _); [| exact H1]. apply Hfin. exact H1.
  - apply Hfin. exact H1.
  - destruct isSync; [exact H1 |].
    match goal with
    | |- wire (withSync false ?x) = _ => change (wire x = wire c)
    end.
    apply (fold_left_invariant (fun acc => wire acc = wire c)); [| exact H1].
    intros acc p Hacc. destruct (String.eqb (id p) ""); [exact Hacc |].
    destruct (lookupPlayer _ _); rewrite Hn; exact Hacc.
  - apply Hfin. exact H1.
Qed.

Lemma dispatch_wire (a : ActionT) (c : Client) : wire (dispatch a c) = wire c.
Proof.
  unfold dispatch. apply middleware_wire. intros a' c'.
  apply middleware_wire. reflexivity.
Qed.

(** Without a turn from the server, but with a host, an open socket
    carries the client's own choice to the server. *)
Lemma gameStartedTurn_announces_host (h : string) (c : Client) :
  h <> "" ->
  socketOpen c = true ->
  forall players,
  In (mkSent "set_current_turn" [("playerId", h); ("gameId", gameId c)])
     (sent (gameStartedTurn None (Some h) players c)).
Proof.
  intros Hh Hopen players. unfold gameStartedTurn. simpl truthyS. cbv iota.
  apply String.eqb_neq in Hh. rewrite Hh. simpl negb. cbv iota.
  unfold strOr, orS. simpl truthyS. rewrite Hh. simpl negb. cbv iota.
  pose proof (dispatch_wire (SetCurrentPlayer h) c) as W.
  set (c2 := dispatch (SetCurrentPlayer h) c) in *.
  injection W as W1 W2 W3.
  rewrite W1, Hopen.
  set (c3 := sendMessage "get_current_turn" []
               (sendMessage "set_current_turn"
                  [("playerId", h); ("gameId", gameId c2)] c2)).
  assert (H3 : In (mkSent "set_current_turn" [("playerId", h); ("gameId", gameId c)])
                  (sent c3)).
  { subst c3. unfold sendMessage. rewrite W1, Hopen. simpl. rewrite W1, Hopen.
    simpl. rewrite W3. apply in_or_app. left. apply in_or_app. right.
    left. reflexivity. }
  match goal with
  | |- In _ (sent (setTimeout _ _ (dispatch ?a _))) =>
      pose proof (dispatch_wire a c3) as G
  end.
  injection G as _ G2 _.
  unfold setTimeout. simpl. rewrite G2. exact H3.
Qed.

(** C5, as the code has it: [current_turn] and [turn_changed] overwrite
    the local turn holder with the value of the message and leave it alone
    when the message carries none; [game_started] takes the server's value
    when there is one, and otherwise the client itself makes the host the
    turn holder, when it knows a host. *)
Theorem turn_written_from_message_or_host
  (retry : Client -> Client) (now : Z) (data : TurnMsg)
  (serverTurn : option string) (c : Client) :
  gameStartProcessed c = false ->
  currentPlayer (store (handleCurrentTurn data c))
  = (if truthyS (orS (currentTurn data) (currentPlayerField data))
     then orS (currentTurn data) (currentPlayerField data)
     else currentPlayer (store c))
  /\ currentPlayer (store (handleTurnChanged data c))
     = (if truthyS (currentTurn data) then currentTurn data
        else currentPlayer (store c))
  /\ currentPlayer (store (handleGameStarted retry now serverTurn c))
     = (if truthyS serverTurn then serverTurn
        else if truthyS (hostId (store c)) then hostId (store c)
        else currentPlayer (store (fst (gameStartedPrologue retry now c)))).
Proof.
  intros Hfresh. split; [apply handleCurrentTurn_turn |].
  split; [apply handleTurnChanged_turn |].
  unfold handleGameStarted. rewrite Hfresh.
  pose proof (gameStartedPrologue_host retry now c) as Hh.
  destruct (gameStartedPrologue retry now c) as [c1 currentState].
  simpl in Hh. rewrite <- Hh.
  rewrite gameStartedEpilogue_store. apply gameStartedTurn_turn.
Qed.

Lemma turn_written_from_message_or_host_witness :
  currentPlayer (store (handleGameStarted (fun c => c) 0 (Some "bob") roomWithHost))
  = Some "bob".
Proof.
  exact (proj2 (proj2 (turn_written_from_message_or_host
                         (fun c => c) 0 (mkTurnMsg None None None None)
                         (Some "bob") roomWithHost eq_refl))).
Defined.

(** C5 as stated fails: a [game_started] message without [currentTurn]
    reaches a client that knows the host [alice]; the client makes
    [alice] the turn holder and tells the server so. The value comes from
    no server message. *)
Lemma client_originates_first_turn :
  let c' := handleGameStarted (fun c => c) 0 None roomWithHost in
  currentPlayer (store roomWithHost) = None
  /\ currentPlayer (store c') = Some "alice"
  /\ In (mkSent "set_current_turn" [("playerId", "alice"); ("gameId", "room1")])
        (sent c')
  /\ ~ turnFromServer (store roomWithHost) (store c') None.
Proof.
  assert (E : currentPlayer
                (store (handleGameStarted (fun c => c) 0 None roomWithHost))
              = Some "alice") by (vm_compute; reflexivity).
  split; [vm_compute; reflexivity |].
  split; [exact E |].
  split; [vm_compute; right; left; reflexivity |].
  intros [H | [H _]].
  - rewrite E in H. vm_compute in H. discriminate.
  - discriminate.
Qed.

(** ** The two rosters *)

Lemma assignPlayer_key (k : string) (p : Player) (m : list (string * Player)) :
  In k (map fst (assignPlayer k p m)).
Proof.
  induction m as [| [k' q] m IH]; simpl; [left; reflexivity |].
  destruct (String.eqb k k'); simpl; [left; reflexivity | right; exact IH].
Qed.

Lemma assignPlayer_keeps (x k : string) (p : Player) (m : list (string * Player)) :
  In x (map fst m) -> In x (map fst (assignPlayer k p m)).
Proof.
  induction m as [| [k' q] m IH]; simpl; [intros [] |].
  destruct (String.eqb_spec k k') as [-> | Hne]; simpl; intros [H | H]; auto.
Qed.

Lemma lookupPlayer_key (k : string) (m : list (string * Player)) (p : Player) :
  lookupPlayer k m = Some p -> In k (map fst m).
Proof.
  induction m as [| [k' q] m IH]; simpl; [discriminate |].
  destruct (String.eqb_spec k k') as [-> | Hne]; intros H; auto.
Qed.

Lemma reduce_UpdatePlayer_keeps (x k : string) (u : Updates) (st : State) :
  In x (sliceIds st) -> In x (sliceIds (reduce (UpdatePlayer k u) st)).
Proof.
  unfold sliceIds. simpl. destruct (lookupPlayer k (playerSlice st)); simpl; auto.
  apply assignPlayer_keeps.
Qed.

(** After [players/updatePlayer] the array is rebuilt from the id-keyed
    store. *)
Lemma updatePlayer_rebuilds_array (k : string) (u : Updates) (c : Client) :
  syncInProgress c = false ->
  arrayDerived (store (dispatch (UpdatePlayer k u) c)).
Proof.
  intros Hflag. unfold dispatch, middleware at 1.
  change (syncInProgress (withStore (reduce (UpdatePlayer k u) (store c)) c))
    with (syncInProgress c).
  rewrite Hflag, store_withSync, middleware_under_flag by reflexivity.
  reflexivity.
Qed.

(** After [players/addPlayer] the array is rebuilt when the two stores
    differ in size. *)
Lemma addPlayer_rebuilds_array (k : string) (p : Player) (c : Client) :
  syncInProgress c = false ->
  List.length (playerSlice (reduce (AddPlayer k p) (store c)))
  <> List.length (gamePlayers (store c)) ->
  arrayDerived (store (dispatch (AddPlayer k p) c)).
Proof.
  intros Hflag Hlen. unfold dispatch, middleware at 1.
  change (syncInProgress (withStore (reduce (AddPlayer k p) (store c)) c))
    with (syncInProgress c).
  rewrite Hflag.
  apply Nat.eqb_neq in Hlen.
  change (gamePlayers (store (withStore (reduce (AddPlayer k p) (store c)) c)))
    with (gamePlayers (store c)).
  change (store (withStore (reduce (AddPlayer k p) (store c)) c))
    with (reduce (AddPlayer k p) (store c)).
  rewrite Hlen. simpl negb. cbv iota.
  rewrite store_withSync, middleware_under_flag by reflexivity.
  reflexivity.
Qed.

(** The copy loop of [game/setPlayers]: under the flag every dispatch is
    a plain reducer step, keys are only added, and every entry with an id
    ends up as a key. *)
Lemma setPlayers_loop (snapshot : list (string * Player)) (l : list Player) :
  forall acc,
    syncInProgress acc = true ->
    (forall x, In x (map fst snapshot) -> In x (sliceIds (store acc))) ->
    let final :=
      fold_left
        (fun acc player =>
           if String.eqb (id player) "" then acc else
           match lookupPlayer (id player) snapshot with
           | None => middleware reduceOnly
                       (AddPlayer (id player) (toSlicePlayer player)) acc
           | Some existingPlayer =>
               middleware reduceOnly
                 (UpdatePlayer (id player) (sliceUpdates player existingPlayer)) acc
           end) l acc in
    (forall x, In x (sliceIds (store acc)) -> In x (sliceIds (store final)))
    /\ (forall p, In p l -> id p <> "" -> In (id p) (sliceIds (store final))).
Proof.
  induction l as [| p l IH]; intros acc Hflag Hsnap; simpl.
  - split; [auto | intros p []].
  - set (acc1 := if String.eqb (id p) "" then acc else
                 match lookupPlayer (id p) snapshot with
                 | None => middleware reduceOnly (AddPlayer (id p) (toSlicePlayer p)) acc
                 | Some existingPlayer =>
                     middleware reduceOnly
                       (UpdatePlayer (id p) (sliceUpdates p existingPlayer)) acc
                 end).
    assert (Hflag1 : syncInProgress acc1 = true).
    { subst acc1. destruct (String.eqb (id p) ""); [exact Hflag |].
      destruct (lookupPlayer (id p) snapshot);
        rewrite middleware_under_flag by exact Hflag; exact Hflag. }
    assert (Hmono : forall x, In x (sliceIds (store acc)) -> In x (sliceIds (store acc1))).
    { subst acc1. intros x Hx. destruct (String.eqb (id p) ""); [exact Hx |].
      destruct (lookupPlayer (id p) snapshot);
        rewrite middleware_under_flag by exact Hflag.
      - apply reduce_UpdatePlayer_keeps. exact Hx.
      - unfold sliceIds. simpl. apply assignPlayer_keeps. exact Hx. }
    assert (Hp : id p <> "" -> In (id p) (sliceIds (store acc1))).
    { subst acc1. intros Hid. apply String.eqb_neq in Hid. rewrite Hid.
      destruct (lookupPlayer (id p) snapshot) as [e |] eqn:El;
        rewrite middleware_under_flag by exact Hflag.
      - apply reduce_UpdatePlayer_keeps, Hsnap.
        apply (lookupPlayer_key _ _ _ El).
      - unfold sliceIds. simpl. apply assignPlayer_key. }
    destruct (IH acc1 Hflag1 (fun x Hx => Hmono x (Hsnap x Hx))) as [IH1 IH2].
    split.
    + intros x Hx. apply IH1, Hmono, Hx.
    + intros q [-> | Hq] Hid; [apply IH1, Hp, Hid | apply IH2; assumption].
Qed.

(** After a [game/setPlayers] that is no synchronisation step, every
    array entry with an id is in the id-keyed store. *)
Lemma setPlayers_copies_entries (l : list Player) (c : Client) :
  syncInProgress c = false ->
  forall p, In p l -> id p <> "" ->
            In (id p) (sliceIds (store (dispatch (SetPlayers l false) c))).
Proof.
  intros Hflag. unfold dispatch, middleware at 1.
  change (syncInProgress (withStore (reduce (SetPlayers l false) (store c)) c))
    with (syncInProgress c).
  rewrite Hflag, store_withSync.
  set (c1 := withStore (reduce (SetPlayers l false) (store c)) c).
  change (gamePlayers (store c1)) with l.
  destruct (setPlayers_loop (playerSlice (store c1)) l (withSync true c1)
              eq_refl (fun x Hx => Hx)) as [_ H].
  exact H.
Qed.

(** C1, as the code has it: the client keeps two writable player stores
    and a middleware that reconciles them on some actions. After
    [players/updatePlayer], and after [players/addPlayer] when the sizes
    differ, the array is the image of the id-keyed store; after a
    [game/setPlayers] every array entry with an id is a key of the
    id-keyed store. *)
Theorem rosters_reconciled_by_middleware
  (k : string) (u : Updates) (p : Player) (l : list Player) (c : Client) :
  syncInProgress c = false ->
  arrayDerived (store (dispatch (UpdatePlayer k u) c))
  /\ (List.length (playerSlice (reduce (AddPlayer k p) (store c)))
      <> List.length (gamePlayers (store c)) ->
      arrayDerived (store (dispatch (AddPlayer k p) c)))
  /\ (forall q, In q l -> id q <> "" ->
                In (id q) (sliceIds (store (dispatch (SetPlayers l false) c)))).
Proof.
  intros Hflag. split; [apply updatePlayer_rebuilds_array; exact Hflag |].
  split; [apply addPlayer_rebuilds_array; exact Hflag |].
  apply setPlayers_copies_entries; exact Hflag.
Qed.

Lemma rosters_reconciled_by_middleware_witness :
  arrayDerived (store (dispatch (UpdatePlayer "alice" noUpdates) roomWithHost)).
Proof.
  exact (proj1 (rosters_reconciled_by_middleware
                  "alice" noUpdates (barePlayer "bob") [] roomWithHost eq_refl)).
Defined.

(** C1 as stated fails: both stores are written on their own. Removing
    the only player from the id-keyed store (as the [active_players]
    handler does) leaves the array with an entry the other store lacks. *)
Lemma rosters_drift_after_remove :
  sameIds (store roomWithHost)
  /\ sliceIds (store (dispatch (RemovePlayer "alice") roomWithHost)) = []
  /\ arrayIds (store (dispatch (RemovePlayer "alice") roomWithHost)) = ["alice"]
  /\ ~ sameIds (store (dispatch (RemovePlayer "alice") roomWithHost)).
Proof.
  split; [intros x; vm_compute; tauto |].
  split; [vm_compute; reflexivity |].
  split; [vm_compute; reflexivity |].
  intros H. destruct (H "alice") as [_ H2].
  apply H2. vm_compute. left. reflexivity.
Qed.

(** ** Merging late player data *)

Lemma neqS_false (a b : option string) : neqS a b = false -> a = b.
Proof.
  destruct a as [x |], b as [y |]; simpl; try discriminate; [| reflexivity].
  intros H. apply negb_false_iff, String.eqb_eq in H. congruence.
Qed.

Lemma truthyS_Some (v : option string) : truthyS v = true -> exists s, v = Some s.
Proof. destruct v as [s |]; [eauto | discriminate]. Qed.

Lemma over_guarded (incoming stored : option string) :
  over (if truthyS incoming && neqS stored incoming then incoming else None) stored
  = if truthyS incoming then incoming else stored.
Proof.
  destruct (truthyS incoming) eqn:Et; simpl; [| reflexivity].
  destruct (truthyS_Some _ Et) as [s ->].
  destruct (neqS stored (Some s)) eqn:En; simpl; [reflexivity |].
  apply neqS_false in En. exact En.
Qed.

(** The updates [handlePlayerJoined] collects would, once merged, follow
    the policy: a non-empty incoming name, token or colour wins, an empty
    or missing one keeps what is stored. *)
Lemma joinUpdates_policy (existing incoming : Player) (h : option bool) :
  let merged := applyUpdates existing (joinUpdates existing incoming h) in
  name merged = (if truthyS (name incoming) then name incoming else name existing)
  /\ token merged = (if truthyS (token incoming) then token incoming
                     else token existing)
  /\ color merged = (if truthyS (color incoming) then color incoming
                     else color existing).
Proof.
  simpl. repeat split; apply over_guarded.
Qed.

Lemma over_orS (incoming stored : option string) :
  over (orS incoming stored) stored
  = if truthyS incoming then incoming else stored.
Proof.
  unfold orS. destruct (truthyS incoming) eqn:Et.
  - destruct (truthyS_Some _ Et) as [s ->]. reflexivity.
  - destruct stored; reflexivity.
Qed.

Lemma truthyS_orS_r (a b : option string) :
  truthyS b = true -> truthyS (orS a b) = true.
Proof. intros H. unfold orS. destruct (truthyS a) eqn:E; assumption. Qed.

Lemma truthyS_over (new old : option string) :
  truthyS new = true -> truthyS (over new old) = true.
Proof. destruct new; [auto | discriminate]. Qed.

(** The merge of the middleware ([game/setPlayers], lines 169-185)
    follows the policy: a non-empty incoming name or colour wins and an
    empty one keeps what is stored; a non-empty incoming token wins, and
    the stored token is never left or made blank. *)
Lemma sliceUpdates_policy (incoming existing : Player) :
  let merged := applyUpdates existing (sliceUpdates incoming existing) in
  name merged = (if truthyS (name incoming) then name incoming else name existing)
  /\ (truthyS (token incoming) = true -> token merged = token incoming)
  /\ truthyS (token merged) = true
  /\ (truthyS (color incoming) = true -> color merged = color incoming)
  /\ (truthyS (color incoming) = false -> truthyS (color existing) = true ->
      color merged = color existing).
Proof.
  simpl. split; [apply over_orS |].
  split.
  { intros H. unfold orS at 1. rewrite H.
    destruct (truthyS_Some _ H) as [s ->]. reflexivity. }
  split.
  { apply truthyS_over. repeat apply truthyS_orS_r. reflexivity. }
  split.
  { intros H. unfold orS at 1. rewrite H.
    destruct (truthyS_Some _ H) as [s ->]. reflexivity. }
  intros H1 H2. unfold orS. rewrite H1, H2.
  destruct (truthyS_Some _ H2) as [s ->]. reflexivity.
Qed.

(** For a player that is already in the store, [handlePlayerJoined]
    changes no player record, whatever the message brings: it either finds
    nothing to update or throws before the update. *)
Lemma known_player_join_never_merges (player existing : Player) (c : Client) :
  id player <> "" ->
  lookupPlayer (id player) (playerSlice (store c)) = Some existing ->
  playerSlice (store (finalOf (handlePlayerJoined (Some player) c)))
  = playerSlice (store c).
Proof.
  intros Hid Hknown. unfold handlePlayerJoined.
  apply String.eqb_neq in Hid. rewrite Hid.
  set (c1 := sendStoredToken player
               (if socketOpen c then sendMessage "get_active_players" [] c else c)).
  assert (Hc1 : store c1 = store c).
  { subst c1. rewrite store_sendStoredToken.
    destruct (socketOpen c); [apply store_sendMessage | reflexivity]. }
  rewrite Hc1, Hknown.
  match goal with
  | |- context [if ?b then dispatch (SetHost ?k) c1 else c1] =>
      assert (Hd : playerSlice (store (if b then dispatch (SetHost k) c1 else c1))
                   = playerSlice (store c));
      [destruct b; [| rewrite Hc1; reflexivity] |]
  end.
  { unfold dispatch, middleware.
    change (syncInProgress (withStore (reduce (SetHost (id player)) (store c1)) c1))
      with (syncInProgress c1).
    destruct (syncInProgress c1); simpl; rewrite Hc1; reflexivity. }
  destruct (needsUpdate _); simpl; exact Hd.
Qed.

(** C7 on the code: [alice] is in the store under the generated name;
    a [player_joined] message brings her real name. The handler collects
    the update and then throws before dispatching it: the stored name is
    not replaced. *)
Theorem late_name_lost_on_join :
  let incoming := named "alice" "Alice" in
  let result := handlePlayerJoined (Some incoming) roomWithHost in
  ~ completes result
  /\ option_map (fun stored => u_name (joinUpdates stored incoming (Some true)))
                (lookupPlayer "alice" (playerSlice (store roomWithHost)))
     = Some (Some "Alice")
  /\ option_map name (lookupPlayer "alice" (playerSlice (store (finalOf result))))
     = Some (Some "Player alic")
  /\ map name (gamePlayers (store (finalOf result))) = [Some "Player alic"].
Proof.
  split; [vm_compute; tauto |].
  split; [reflexivity |].
  split; vm_compute; reflexivity.
Qed.

End StoreFacts.

(** ** Authentication *)

Section AuthFacts.

Import Auth.

Local Open Scope Z_scope.

Variable sign : SigningMethod -> string -> Claims -> string.
Variable encode : Token -> string.
Variable decode : string -> option Token.
Variable PubKey : Type.
Variable PublicKeyFromBase58 : string -> option PubKey.
Variable hexDecode : string -> option string.
Variable base64Decode : string -> option string.
Variable scanByte : string -> option ascii.
Variable ed25519Verify : PubKey -> string -> string -> bool.

Lemma Split_no_separator (s : string) (sep : ascii) :
  hasChar sep s = false -> Split s sep = [s].
Proof.
  induction s as [| c s IH]; simpl; [reflexivity |].
  rewrite Ascii.eqb_sym. destruct (Ascii.eqb c sep); simpl; [discriminate |].
  intros H. rewrite (IH H). reflexivity.
Qed.

Lemma Split_nonempty (s : string) (sep : ascii) : Split s sep <> [].
Proof.
  destruct s as [| c s]; simpl; [discriminate |].
  destruct (Ascii.eqb c sep); [discriminate |].
  destruct (Split s sep); discriminate.
Qed.

Lemma Split_one (s : string) (sep : ascii) :
  forall b, Split s sep = [b] -> s = b /\ hasChar sep b = false.
Proof.
  induction s as [| d s IH]; intros b; simpl.
  - intros H. injection H as <-. split; reflexivity.
  - destruct (Ascii.eqb_spec d sep) as [-> | Hd].
    + intros H. injection H as _ H. destruct (Split_nonempty _ _ H).
    + destruct (Split s sep) as [| p ps] eqn:E;
        [destruct (Split_nonempty _ _ E) |].
      intros H. injection H as <- ->.
      destruct (IH p eq_refl) as [-> Hp]. split; [reflexivity |].
      simpl. rewrite Hp.
      destruct (Ascii.eqb_spec sep d) as [-> | _]; [congruence | reflexivity].
Qed.

Lemma Split_two (s : string) (sep : ascii) :
  forall a b, Split s sep = [a; b] ->
              s = (a ++ String sep b)%string /\ hasChar sep b = false.
Proof.
  induction s as [| c s IH]; intros a b; simpl; [discriminate |].
  destruct (Ascii.eqb_spec c sep) as [-> | Hne].
  - intros H. injection H as <- H.
    destruct (Split_one _ _ _ H) as [-> Hb]. split; [reflexivity | exact Hb].
  - destruct (Split s sep) as [| p ps] eqn:E; [discriminate |].
    intros H. injection H as <- ->.
    destruct (IH p b eq_refl) as [-> Hq]. split; [reflexivity | exact Hq].
Qed.

(** The middleware lets a request through only with a header of the form
    [<scheme> <token>] whose scheme is [bearer] in any case and whose token
    decodes, names an HMAC method, carries the MAC of the configured
    secret, and is not expired. *)
Lemma JWTMiddleware_accepts_verified (secret authHeader : string) (now : Z)
  (ctx : list (string * string)) :
  JWTMiddleware sign decode secret authHeader now = Next ctx ->
  exists scheme tokenString token,
    authHeader = (scheme ++ String " "%char tokenString)%string
    /\ ToLower scheme = "bearer"%string
    /\ decode tokenString = Some token
    /\ isHMAC (Method token) = true
    /\ Signature token = sign (Method token) secret (TokenClaims token)
    /\ notExpired now (TokenClaims token) = true.
Proof.
  unfold JWTMiddleware.
  destruct (String.eqb authHeader ""); [discriminate |].
  destruct (Split authHeader " "%char) as [| scheme [| tokenString [| x xs]]] eqn:E;
    try discriminate.
  destruct (String.eqb_spec (ToLower scheme) "bearer") as [Hs | Hs];
    [| discriminate].
  simpl negb. cbv iota. unfold ParseWithClaims.
  destruct (decode tokenString) as [token |] eqn:Ed; [| discriminate].
  destruct (isHMAC (Method token)) eqn:Em; [| discriminate].
  destruct (String.eqb_spec (Signature token)
              (sign (Method token) secret (TokenClaims token))) as [Hsig | Hsig];
    [| discriminate].
  destruct (notExpired now (TokenClaims token)) eqn:Ex; [| discriminate].
  intros _. exists scheme, tokenString, token.
  destruct (Split_two _ _ _ _ E) as [-> _]. repeat split; assumption.
Qed.

(** Every other request is answered with 401. *)
Lemma JWTMiddleware_rejects_with_401 (secret authHeader : string) (now : Z) :
  (exists ctx, JWTMiddleware sign decode secret authHeader now = Next ctx)
  \/ (exists msg, JWTMiddleware sign decode secret authHeader now
                  = HTTPError StatusUnauthorized msg).
Proof.
  unfold JWTMiddleware.
  destruct (String.eqb authHeader ""); [right; eauto |].
  destruct (Split authHeader " "%char) as [| scheme [| tokenString [| x xs]]];
    try (right; eauto; fail).
  destruct (negb _); [right; eauto |].
  destruct (ParseWithClaims _ _ _ _ _); [left | right]; eauto.
Qed.

(** A disabled validator accepts every signature unseen. *)
Lemma VerifySignature_disabled (v : SolanaValidator)
  (walletAddress message signature format : string) :
  enabled v = false ->
  VerifySignature PubKey PublicKeyFromBase58 hexDecode base64Decode scanByte
                  ed25519Verify v walletAddress message signature format
  = (true, false).
Proof. intros H. unfold VerifySignature. rewrite H. reflexivity. Qed.

(** An enabled validator says yes only after the Ed25519 check. *)
Lemma VerifySignature_enabled (v : SolanaValidator)
  (walletAddress message signature format : string) :
  enabled v = true ->
  VerifySignature PubKey PublicKeyFromBase58 hexDecode base64Decode scanByte
                  ed25519Verify v walletAddress message signature format
  = (true, false) ->
  exists pubKey signatureBytes,
    PublicKeyFromBase58 walletAddress = Some pubKey
    /\ decodeSignature hexDecode base64Decode scanByte signature format
       = Some signatureBytes
    /\ String.length signatureBytes = 64%nat
    /\ ed25519Verify pubKey message signatureBytes = true.
Proof.
  intros He. unfold VerifySignature. rewrite He. simpl negb. cbv iota.
  destruct (clientReady v); simpl negb; cbv iota; [| discriminate].
  destruct (PublicKeyFromBase58 walletAddress) as [pubKey |]; [| discriminate].
  destruct (decodeSignature _ _ _ signature format) as [sb |]; [| discriminate].
  destruct (Nat.eqb_spec (String.length sb) 64) as [Hl | Hl]; [| discriminate].
  simpl negb. cbv iota. intros H. injection H as H.
  exists pubKey, sb. repeat split; assumption.
Qed.

(** The handler, validation enabled and no development mode, on a
    request that was bound and passed [c.Validate]: the answer follows
    the verdict of [VerifySignature]. *)
Lemma WalletConnect_enabled_bound
  (Validate : WalletConnectRequest -> option string)
  (h : AuthHandler) (conf : Config) (v : SolanaValidator)
  (req : WalletConnectRequest) (newUserID : string) (now : Z) :
  cfg h = Some conf -> SolanaDevMode conf = false ->
  validator h = Some v -> Validate req = None ->
  fst (WalletConnectWith sign encode PubKey PublicKeyFromBase58 hexDecode
         base64Decode scanByte ed25519Verify Validate h (Some req) newUserID now)
  = match VerifySignature PubKey PublicKeyFromBase58 hexDecode base64Decode
            scanByte ed25519Verify v (reqWalletAddress req) (reqMessage req)
            (reqSignature req) (effectiveFormat req) with
    | (_, true) => HTTPError StatusBadRequest "Invalid signature"
    | (false, false) =>
        HTTPError StatusUnauthorized "Signature verification failed"
    | (true, false) =>
        JSON StatusOK newUserID (reqWalletAddress req)
             (GenerateJWT sign encode newUserID (reqWalletAddress req)
                          (JWTSecret conf) (JWTExpiration conf) now)
    end.
Proof.
  intros Hc Hd Hv Hval. unfold WalletConnectWith.
  rewrite Hval, Hc, Hd, Hv. cbv iota. cbn [cfg].
  destruct (VerifySignature _ _ _ _ _ _ _ _ _ _ _) as [[|] [|]]; reflexivity.
Qed.

(** The verdict of an enabled validator, case by case. *)
Lemma VerifySignature_verdict (v : SolanaValidator)
  (walletAddress message signature format : string) :
  enabled v = true ->
  VerifySignature PubKey PublicKeyFromBase58 hexDecode base64Decode scanByte
                  ed25519Verify v walletAddress message signature format
  = if negb (clientReady v) then (false, true)
    else match PublicKeyFromBase58 walletAddress,
               decodeSignature hexDecode base64Decode scanByte signature format
         with
         | Some pubKey, Some signatureBytes =>
             if (String.length signatureBytes =? 64)%nat
             then (ed25519Verify pubKey message signatureBytes, false)
             else (false, true)
         | _, _ => (false, true)
         end.
Proof.
  intros He. unfold VerifySignature. rewrite He. cbn [negb].
  destruct (clientReady v); cbn [negb]; [| reflexivity].
  destruct (PublicKeyFromBase58 walletAddress); [| reflexivity].
  destruct (decodeSignature _ _ _ signature format); [| reflexivity].
  destruct (String.length _ =? 64)%nat; reflexivity.
Qed.

(** C6, as the code has it. The JWT middleware rejects with 401 whatever
    it cannot verify. The wallet handler, with validation enabled:
    a token is issued only to a bound and validated request whose
    signature passed the Ed25519 check; a request that cannot be bound
    or fails [c.Validate] is answered with 400, and so is one whose
    wallet address or signature cannot be read as a key and 64 bytes; a
    signature that was read is answered with 401 when the check fails
    and with 200 and a token when it passes. With validation disabled
    (development mode, missing configuration) the check is skipped and
    every signature passes. *)
Theorem credentials_verified_unless_validation_disabled
  (secret authHeader : string) (now : Z)
  (Validate : WalletConnectRequest -> option string)
  (h : AuthHandler) (conf : Config) (v : SolanaValidator)
  (body : option WalletConnectRequest) (newUserID : string) :
  cfg h = Some conf -> SolanaDevMode conf = false ->
  validator h = Some v -> enabled v = true ->
  let response :=
    fst (WalletConnectWith sign encode PubKey PublicKeyFromBase58 hexDecode
           base64Decode scanByte ed25519Verify Validate h body newUserID now) in
  (* the JWT middleware *)
  ((exists msg, JWTMiddleware sign decode secret authHeader now
                = HTTPError StatusUnauthorized msg)
   \/ (exists ctx scheme tokenString token,
         JWTMiddleware sign decode secret authHeader now = Next ctx
         /\ authHeader = (scheme ++ String " "%char tokenString)%string
         /\ ToLower scheme = "bearer"%string
         /\ decode tokenString = Some token
         /\ isHMAC (Method token) = true
         /\ Signature token = sign (Method token) secret (TokenClaims token)
         /\ notExpired now (TokenClaims token) = true))
  (* the wallet handler, validation enabled: a token only after the check *)
  /\ (forall code u w t, response = JSON code u w t ->
        exists req pubKey signatureBytes,
          body = Some req /\ Validate req = None
          /\ PublicKeyFromBase58 (reqWalletAddress req) = Some pubKey
          /\ decodeSignature hexDecode base64Decode scanByte (reqSignature req)
               (effectiveFormat req) = Some signatureBytes
          /\ String.length signatureBytes = 64%nat
          /\ ed25519Verify pubKey (reqMessage req) signatureBytes = true)
  (* 400: the request cannot be read *)
  /\ (body = None ->
      response = HTTPError StatusBadRequest "Invalid request body")
  /\ (forall req message, body = Some req -> Validate req = Some message ->
        response = HTTPError StatusBadRequest message)
  (* 400: the signature cannot be read *)
  /\ (forall req, body = Some req -> Validate req = None ->
        clientReady v = false
        \/ PublicKeyFromBase58 (reqWalletAddress req) = None
        \/ decodeSignature hexDecode base64Decode scanByte (reqSignature req)
             (effectiveFormat req) = None
        \/ (exists signatureBytes,
              decodeSignature hexDecode base64Decode scanByte (reqSignature req)
                (effectiveFormat req) = Some signatureBytes
              /\ String.length signatureBytes <> 64%nat) ->
        exists message, response = HTTPError StatusBadRequest message)
  (* 401 or 200: the signature was read and checked *)
  /\ (forall req pubKey signatureBytes,
        body = Some req -> Validate req = None -> clientReady v = true ->
        PublicKeyFromBase58 (reqWalletAddress req) = Some pubKey ->
        decodeSignature hexDecode base64Decode scanByte (reqSignature req)
          (effectiveFormat req) = Some signatureBytes ->
        String.length signatureBytes = 64%nat ->
        response
        = if ed25519Verify pubKey (reqMessage req) signatureBytes
          then JSON StatusOK newUserID (reqWalletAddress req)
                    (GenerateJWT sign encode newUserID (reqWalletAddress req)
                                 (JWTSecret conf) (JWTExpiration conf) now)
          else HTTPError StatusUnauthorized "Signature verification failed")
  (* validation disabled *)
  /\ (forall walletAddress message signature format,
        VerifySignature PubKey PublicKeyFromBase58 hexDecode base64Decode
          scanByte ed25519Verify (Disable v) walletAddress message signature
          format = (true, false)).
Proof.
  intros Hc Hd Hv He response.
  assert (Hbound : forall req, body = Some req -> Validate req = None ->
            response
            = match PublicKeyFromBase58 (reqWalletAddress req),
                    decodeSignature hexDecode base64Decode scanByte
                      (reqSignature req) (effectiveFormat req) with
              | Some pubKey, Some signatureBytes =>
                  if negb (clientReady v)
                     || negb (String.length signatureBytes =? 64)%nat
                  then HTTPError StatusBadRequest "Invalid signature"
                  else if ed25519Verify pubKey (reqMessage req) signatureBytes
                       then JSON StatusOK newUserID (reqWalletAddress req)
                              (GenerateJWT sign encode newUserID
                                 (reqWalletAddress req) (JWTSecret conf)
                                 (JWTExpiration conf) now)
                       else HTTPError StatusUnauthorized
                              "Signature verification failed"
              | _, _ => HTTPError StatusBadRequest "Invalid signature"
              end).
  { intros req Hb Hval. unfold response. rewrite Hb.
    rewrite (WalletConnect_enabled_bound Validate h conf v req newUserID now
               Hc Hd Hv Hval).
    rewrite (VerifySignature_verdict v _ _ _ _ He).
    destruct (clientReady v), (PublicKeyFromBase58 (reqWalletAddress req)),
      (decodeSignature hexDecode base64Decode scanByte (reqSignature req)
         (effectiveFormat req)) as [sb |]; cbn [negb orb]; try reflexivity.
    destruct (String.length sb =? 64)%nat; cbn [negb]; [| reflexivity].
    destruct (ed25519Verify _ _ _); reflexivity. }
  split; [| split; [| split; [| split; [| split; [| split]]]]].
  - destruct (JWTMiddleware_rejects_with_401 secret authHeader now)
      as [[ctx E] | [msg E]]; [right | left; eauto].
    destruct (JWTMiddleware_accepts_verified _ _ _ _ E)
      as (scheme & tokenString & token & H).
    exists ctx, scheme, tokenString, token. split; [exact E | exact H].
  - intros code u w t E.
    destruct body as [req |]; [| discriminate E].
    destruct (Validate req) as [message |] eqn:Hval.
    + unfold response, WalletConnectWith in E. rewrite Hval in E. discriminate E.
    + rewrite (Hbound req eq_refl Hval) in E.
      destruct (PublicKeyFromBase58 (reqWalletAddress req)) as [pubKey |] eqn:Hpk;
        [| discriminate E].
      destruct (decodeSignature hexDecode base64Decode scanByte (reqSignature req)
                  (effectiveFormat req)) as [sb |] eqn:Hdec; [| discriminate E].
      destruct (clientReady v); cbn [negb orb] in E; [| discriminate E].
      destruct (Nat.eqb_spec (String.length sb) 64) as [Hl | Hl];
        cbn [negb] in E; [| discriminate E].
      destruct (ed25519Verify pubKey (reqMessage req) sb) eqn:Hver;
        [| discriminate E].
      exists req, pubKey, sb. repeat split; assumption.
  - intros ->. reflexivity.
  - intros req message -> Hval. unfold response, WalletConnectWith.
    rewrite Hval. reflexivity.
  - intros req Hb Hval Hbad. rewrite (Hbound req Hb Hval).
    destruct (PublicKeyFromBase58 (reqWalletAddress req)) as [pubKey |];
      [| eexists; reflexivity].
    destruct (decodeSignature hexDecode base64Decode scanByte (reqSignature req)
                (effectiveFormat req)) as [sb |]; [| eexists; reflexivity].
    destruct (clientReady v); cbn [negb orb]; [| eexists; reflexivity].
    destruct (Nat.eqb_spec (String.length sb) 64) as [Hl | Hl];
      cbn [negb]; [| eexists; reflexivity].
    exfalso. destruct Hbad as [H | [H | [H | (sb' & H & Hlen)]]];
      try discriminate H.
    injection H as <-. exact (Hlen Hl).
  - intros req pubKey sb Hb Hval Hr Hpk Hdec Hlen.
    rewrite (Hbound req Hb Hval), Hpk, Hdec, Hr, Hlen. reflexivity.
  - intros. apply VerifySignature_disabled. reflexivity.
Qed.

(** C10: a token made by [GenerateJWT] and presented as [Bearer <token>]
    before its expiry passes the middleware configured with the same
    secret, and the user id and wallet address put into the context are
    the ones the token was made for. The serialisation of the library is
    assumed to read back the token it wrote and to write no space. *)
Theorem generated_token_accepted
  (userID walletAddress secret : string) (expirationHours now later : Z) :
  let claims := generatedClaims userID walletAddress expirationHours now in
  let token := mkToken HS256 claims (sign HS256 secret claims) in
  decode (encode token) = Some token ->
  hasChar " "%char (encode token) = false ->
  later < NewNumericDate (now + wrap64 (expirationHours * Hour)) * Second ->
  exists ctx,
    JWTMiddleware sign decode secret
      ("Bearer " ++ GenerateJWT sign encode userID walletAddress secret
                                expirationHours now)%string later
    = Next ctx
    /\ contextUserID ctx = Some userID
    /\ contextWallet ctx = walletAddress.
Proof.
  intros claims token Hdec Hsp Hexp.
  unfold JWTMiddleware, GenerateJWT, SignedString.
  fold claims. fold token.
  change (String.eqb ("Bearer " ++ encode token) "") with false. cbv iota.
  change (Split ("Bearer " ++ encode token) " "%char)
    with ("Bearer"%string :: Split (encode token) " "%char).
  rewrite (Split_no_separator _ _ Hsp).
  change (negb (String.eqb (ToLower "Bearer") "bearer")) with false. cbv iota.
  unfold ParseWithClaims. rewrite Hdec.
  change (negb (isHMAC (Method token))) with false. cbv iota.
  change (Signature token) with (sign HS256 secret claims).
  change (sign (Method token) secret (TokenClaims token))
    with (sign HS256 secret claims).
  rewrite String.eqb_refl. simpl negb. cbv iota.
  apply Z.ltb_lt in Hexp.
  change (notExpired later claims)
    with (later <? NewNumericDate (now + wrap64 (expirationHours * Hour)) * Second).
  rewrite Hexp. simpl negb. cbv iota.
  eexists. split; [reflexivity |].
  change (UserID (TokenClaims token)) with userID.
  change (WalletAddress (TokenClaims token)) with walletAddress.
  split; [reflexivity |].
  unfold contextWallet. simpl lookup.
  destruct (String.eqb_spec walletAddress "") as [-> | Hne]; simpl; reflexivity.
Qed.

End AuthFacts.

Lemma credentials_verified_unless_validation_disabled_witness :
  Auth.toyVerify "wallet1" "Sign in to Kekopoly" (Auth.reqSignature Auth.wrongRequest)
  = false
  /\ fst (Auth.toyWalletConnect (Auth.NewAuthHandler (Some Auth.prodConfig))
            (Some Auth.wrongRequest) "uid" 0%Z)
     = Auth.HTTPError Auth.StatusUnauthorized "Signature verification failed"
  /\ fst (Auth.toyWalletConnect (Auth.NewAuthHandler (Some Auth.prodConfig))
            None "uid" 0%Z)
     = Auth.HTTPError Auth.StatusBadRequest "Invalid request body".
Proof.
  split; [reflexivity |].
  split.
  - destruct (credentials_verified_unless_validation_disabled
                Auth.toySign Auth.toyEncode Auth.toyDecode string Auth.toyBase58
                Auth.toyHex Auth.toyHex Auth.toyScanByte Auth.toyVerify
                "secret" "" 0%Z Auth.requiredFields
                (Auth.NewAuthHandler (Some Auth.prodConfig)) Auth.prodConfig
                (Auth.NewSolanaValidator) (Some Auth.wrongRequest) "uid"
                eq_refl eq_refl eq_refl eq_refl) as (_ & _ & _ & _ & _ & H & _).
    exact (H Auth.wrongRequest "wallet1"%string
             (Auth.reqSignature Auth.wrongRequest)
             eq_refl eq_refl eq_refl eq_refl eq_refl eq_refl).
  - destruct (credentials_verified_unless_validation_disabled
                Auth.toySign Auth.toyEncode Auth.toyDecode string Auth.toyBase58
                Auth.toyHex Auth.toyHex Auth.toyScanByte Auth.toyVerify
                "secret" "" 0%Z Auth.requiredFields
                (Auth.NewAuthHandler (Some Auth.prodConfig)) Auth.prodConfig
                (Auth.NewSolanaValidator) None "uid"
                eq_refl eq_refl eq_refl eq_refl) as (_ & _ & H & _).
    exact (H eq_refl).
Defined.

(** C6 as stated fails: in development mode the handler issues a token
    for a signature that does not verify. *)
Lemma dev_mode_issues_token_for_forged_signature :
  Auth.toyVerify "wallet1" (Auth.reqMessage Auth.forgedRequest)
                 (Auth.reqSignature Auth.forgedRequest) = false
  /\ fst (Auth.toyWalletConnect (Auth.NewAuthHandler (Some Auth.devConfig))
            (Some Auth.forgedRequest) "uid" 0%Z)
     = Auth.JSON Auth.StatusOK "uid" "wallet1"
         (Auth.toyGenerate "uid" "wallet1" "secret" 24%Z 0%Z).
Proof. split; vm_compute; reflexivity. Qed.

Lemma generated_token_accepted_witness :
  exists ctx,
    Auth.toyMiddleware "secret"
      ("Bearer " ++ Auth.toyGenerate "user-1" "wallet1" "secret" 24%Z 1000%Z)%string
      5000%Z
    = Auth.Next ctx
    /\ Auth.contextUserID ctx = Some "user-1"
    /\ Auth.contextWallet ctx = "wallet1".
Proof.
  apply (generated_token_accepted Auth.toySign Auth.toyEncode Auth.toyDecode
           "user-1" "wallet1" "secret" 24%Z 1000%Z 5000%Z).
  - vm_compute. reflexivity.
  - vm_compute. reflexivity.
  - vm_compute. reflexivity.
Defined.

(** ** Grace period *)

Section GraceFacts.

Import Grace.

Local Open Scope Z_scope.

(** A session that loses its transport and is never heard of again is
    forfeited by the sixth tick, not before. *)
Example forfeited_after_three_minutes :
  state (run (mkSession ACTIVE 0) [TransportLoss; Tick; Tick; Tick; Tick; Tick])
  = GRACE
  /\ state (run (mkSession ACTIVE 0)
                [TransportLoss; Tick; Tick; Tick; Tick; Tick; Tick])
     = FORFEITED.
Proof. split; reflexivity. Qed.

(** A repeated loss signal does not restart the countdown. *)
Example duplicate_loss_keeps_countdown :
  run (mkSession ACTIVE 0) [TransportLoss; Tick; TransportLoss]
  = mkSession GRACE 150.
Proof. reflexivity. Qed.

(** C8: the machine has exactly the three transitions, and it has them.
    Loss of the transport takes an ACTIVE session to GRACE with 180
    seconds on the clock; in GRACE a reconnection leads back to ACTIVE, a
    tick (30 seconds) that uses up the countdown leads to FORFEITED, an
    earlier tick only shortens the countdown and a repeated loss signal
    changes nothing; and no signal changes the state of a session in any
    other way. *)
Theorem grace_machine_transitions (s : Session) (sig : Signal) :
  (state s = ACTIVE -> step s TransportLoss = mkSession GRACE 180)
  /\ (state s = GRACE -> step s Reconnect = mkSession ACTIVE 0)
  /\ (state s = GRACE -> countdownRemaining s <= 30 ->
      step s Tick = mkSession FORFEITED 0)
  /\ (state s = GRACE -> 30 < countdownRemaining s ->
      step s Tick = mkSession GRACE (countdownRemaining s - 30))
  /\ (state s = GRACE -> step s TransportLoss = s)
  /\ (state (step s sig) <> state s ->
      (state s = ACTIVE /\ sig = TransportLoss)
      \/ (state s = GRACE /\ sig = Reconnect)
      \/ (state s = GRACE /\ sig = Tick /\ countdownRemaining s <= 30)).
Proof.
  destruct s as [st n]. unfold step. cbn [state countdownRemaining].
  change tickInterval with 30. change gracePeriod with 180.
  split; [intros ->; reflexivity |].
  split; [intros ->; reflexivity |].
  split; [intros -> H; destruct (Z.leb_spec (n - 30) 0); [reflexivity | lia] |].
  split; [intros -> H; destruct (Z.leb_spec (n - 30) 0); [lia | reflexivity] |].
  split; [intros ->; reflexivity |].
  destruct st, sig; cbn [state]; intros H;
    try (exfalso; apply H; reflexivity).
  - left. split; reflexivity.
  - right. left. split; reflexivity.
  - right. right.
    destruct (Z.leb_spec (n - 30) 0) as [Hle | Hgt]; cbn [state] in H.
    + repeat split. lia.
    + exfalso. apply H. reflexivity.
Qed.

(** A session in GRACE with thirty seconds left. *)
Lemma grace_machine_transitions_witness :
  step (mkSession GRACE 30) Reconnect = mkSession ACTIVE 0
  /\ step (mkSession GRACE 30) Tick = mkSession FORFEITED 0
  /\ step (mkSession GRACE 30) TransportLoss = mkSession GRACE 30.
Proof.
  destruct (grace_machine_transitions (mkSession GRACE 30) Tick)
    as (_ & H2 & H3 & _ & H5 & _).
  split; [exact (H2 eq_refl) |].
  split; [apply (H3 eq_refl); cbn; lia | exact (H5 eq_refl)].
Defined.

(** A forfeited session stays forfeited. *)
Lemma grace_machine_steps (s : Session) :
  state s = FORFEITED -> forall sig, step s sig = s.
Proof.
  destruct s as [st n]. unfold step. simpl.
  intros -> sig. destruct sig; reflexivity.
Qed.

End GraceFacts.

(** ** Priorities *)

Section LaneFacts.

Import Lanes.

Example migrated_acknowledgement :
  migrate "c.hub.SendToPlayer(c.gameID, c.playerID, ackBytes)"
  = "c.hub.SendToPlayerWithPriority(c.gameID, c.playerID, ackBytes, PriorityNormal)".
Proof. reflexivity. Qed.

(** A send the script does not name keeps its form and gets no priority. *)
Example unlisted_send_untouched :
  migrate "c.hub.SendToPlayer(c.gameID, c.playerID, stateJSON)"
  = "c.hub.SendToPlayer(c.gameID, c.playerID, stateJSON)".
Proof. reflexivity. Qed.

(** C9, as the script has it: the error replies go out with high
    priority; acknowledgements, replies and confirmations with normal
    priority; nothing is given low priority. *)
Theorem lanes_assigned_by_migration (k : MessageKind) :
  laneOf k = Some (match k with
                   | ErrorMessage => PriorityHigh
                   | Acknowledgement | Reply | Confirmation => PriorityNormal
                   end).
Proof. destruct k; reflexivity. Qed.

(** C9 as stated fails: an acknowledgement is sent with normal priority,
    not high. *)
Lemma acknowledgement_has_normal_priority :
  laneOf Acknowledgement = Some PriorityNormal
  /\ laneOf Acknowledgement <> Some PriorityHigh.
Proof. split; [reflexivity | discriminate]. Qed.

End LaneFacts.

(** ** Accounts behind the JWT middleware *)

Section AccountFacts.

Import Auth Accounts.

Local Open Scope Z_scope.

Variable sign : SigningMethod -> string -> Claims -> string.
Variable encode : Token -> string.
Variable decode : string -> option Token.
Variable validateRegister : RegisterRequest -> option string.
Variable validateLogin : LoginRequest -> option string.
Variable PubKey : Type.
Variable PublicKeyFromBase58 : string -> option PubKey.
Variable hexDecode : string -> option string.
Variable base64Decode : string -> option string.
Variable scanByte : string -> option ascii.
Variable ed25519Verify : PubKey -> string -> string -> bool.

Lemma Split_app_separator (s t : string) (sep : ascii) :
  hasChar sep s = false ->
  Split (s ++ String sep t) sep = s :: Split t sep.
Proof.
  induction s as [| c s IH]; simpl.
  - intros _. rewrite Ascii.eqb_refl. reflexivity.
  - rewrite Ascii.eqb_sym. destruct (Ascii.eqb c sep); simpl; [discriminate |].
    intros H. rewrite (IH H). reflexivity.
Qed.

(** The middleware on a token of [GenerateJWT]: the context of the user
    the token was made for up to the expiry second, 401 from then on. *)
Lemma middleware_on_generated (userID walletAddress secret : string)
  (expirationHours now later : Z) :
  let claims := generatedClaims userID walletAddress expirationHours now in
  let token := mkToken HS256 claims (sign HS256 secret claims) in
  decode (encode token) = Some token ->
  hasChar " "%char (encode token) = false ->
  JWTMiddleware sign decode secret ("Bearer " ++ encode token)%string later
  = if later <? NewNumericDate (now + wrap64 (expirationHours * Hour)) * Second
    then Next (contextOf userID walletAddress)
    else HTTPError StatusUnauthorized "invalid or expired token".
Proof.
  intros claims token Hdec Hsp. unfold JWTMiddleware.
  change (String.eqb ("Bearer " ++ encode token) "") with false. cbv iota.
  change ("Bearer " ++ encode token)%string
    with ("Bearer" ++ String " "%char (encode token))%string.
  rewrite (Split_app_separator "Bearer" (encode token) " "%char eq_refl).
  rewrite (Split_no_separator _ _ Hsp).
  change (negb (String.eqb (ToLower "Bearer") "bearer")) with false. cbv iota.
  unfold ParseWithClaims. rewrite Hdec.
  change (negb (isHMAC (Method token))) with false. cbv iota.
  change (Signature token) with (sign HS256 secret claims).
  change (sign (Method token) secret (TokenClaims token))
    with (sign HS256 secret claims).
  rewrite String.eqb_refl. simpl negb. cbv iota.
  change (notExpired later claims)
    with (later <? NewNumericDate (now + wrap64 (expirationHours * Hour)) * Second).
  destruct (later <? _); reflexivity.
Qed.



Lemma numeric_date_floor (t : Z) : NewNumericDate t * Second <= t.
Proof.
  unfold NewNumericDate, Second. rewrite Z.mul_comm.
  apply Z.mul_div_le. lia.
Qed.

Lemma rejected_from_expiry (userID walletAddress secret : string)
  (expirationHours now later : Z) :
  let claims := generatedClaims userID walletAddress expirationHours now in
  let token := mkToken HS256 claims (sign HS256 secret claims) in
  decode (encode token) = Some token ->
  hasChar " "%char (encode token) = false ->
  now + wrap64 (expirationHours * Hour) <= later ->
  JWTMiddleware sign decode secret
    ("Bearer " ++ GenerateJWT sign encode userID walletAddress secret
                              expirationHours now)%string later
  = HTTPError StatusUnauthorized "invalid or expired token".
Proof.
  intros claims token Hdec Hsp Hlater.
  unfold GenerateJWT, SignedString.
  rewrite (middleware_on_generated userID walletAddress secret expirationHours
             now later Hdec Hsp).
  pose proof (numeric_date_floor (now + wrap64 (expirationHours * Hour))) as Hf.
  destruct (Z.ltb_spec later
              (NewNumericDate (now + wrap64 (expirationHours * Hour)) * Second));
    [lia | reflexivity].
Qed.

(** X1. A token of [GenerateJWT] is refused by the middleware at every
    instant from its nominal expiry on (the issue time plus the configured
    hours, as the 64-bit duration holds them), with 401 and the message
    for an invalid or expired token. *)
Theorem generated_token_rejected_after_expiry
  (userID walletAddress secret : string) (expirationHours now later : Z) :
  let claims := generatedClaims userID walletAddress expirationHours now in
  let token := mkToken HS256 claims (sign HS256 secret claims) in
  decode (encode token) = Some token ->
  hasChar " "%char (encode token) = false ->
  now + wrap64 (expirationHours * Hour) <= later ->
  JWTMiddleware sign decode secret
    ("Bearer " ++ GenerateJWT sign encode userID walletAddress secret
                              expirationHours now)%string later
  = HTTPError StatusUnauthorized "invalid or expired token".
Proof. exact (rejected_from_expiry userID walletAddress secret expirationHours now later). Qed.


Lemma lowerChar_not_space (c x : ascii) :
  lowerChar c = x -> x <> " "%char -> Ascii.eqb " "%char c = false.
Proof.
  intros H Hx. destruct (Ascii.eqb_spec " "%char c) as [<- | Hne]; [| reflexivity].
  exfalso. apply Hx. rewrite <- H. reflexivity.
Qed.

Lemma bearer_has_no_space (scheme : string) :
  ToLower scheme = "bearer"%string -> hasChar " "%char scheme = false.
Proof.
  destruct scheme as [| c1 [| c2 [| c3 [| c4 [| c5 [| c6 [| c7 rest]]]]]]];
    cbn [ToLower hasChar]; try discriminate.
  intros H. injection H as H1 H2 H3 H4 H5 H6.
  rewrite (lowerChar_not_space c1 _ H1), (lowerChar_not_space c2 _ H2),
    (lowerChar_not_space c3 _ H3), (lowerChar_not_space c4 _ H4),
    (lowerChar_not_space c5 _ H5), (lowerChar_not_space c6 _ H6);
    [reflexivity | discriminate ..].
Qed.

(** X3. The scheme of the Authorization header is matched without regard
    to case: a header whose scheme lowers to [bearer] gets the same answer
    as the header [Bearer <token>] with the same token. *)
Theorem bearer_scheme_any_case (scheme tokenString secret : string) (now : Z) :
  ToLower scheme = "bearer"%string ->
  JWTMiddleware sign decode secret (scheme ++ String " "%char tokenString)%string now
  = JWTMiddleware sign decode secret ("Bearer " ++ tokenString)%string now.
Proof.
  intros Hs. unfold JWTMiddleware.
  assert (Hne : String.eqb (scheme ++ String " "%char tokenString) "" = false).
  { destruct scheme; reflexivity. }
  rewrite Hne. change (String.eqb ("Bearer " ++ tokenString) "") with false.
  cbv iota.
  change ("Bearer " ++ tokenString)%string
    with ("Bearer" ++ String " "%char tokenString)%string.
  rewrite (Split_app_separator scheme tokenString " "%char (bearer_has_no_space _ Hs)).
  rewrite (Split_app_separator "Bearer" tokenString " "%char eq_refl).
  rewrite Hs. reflexivity.
Qed.

Lemma middleware_context (secret authHeader : string) (now : Z)
  (ctx : list (string * string)) :
  JWTMiddleware sign decode secret authHeader now = Next ctx ->
  exists userID walletAddress, ctx = contextOf userID walletAddress.
Proof.
  unfold JWTMiddleware.
  destruct (String.eqb authHeader ""); [discriminate |].
  destruct (Split authHeader " "%char) as [| scheme [| tokenString [| x xs]]];
    try discriminate.
  destruct (negb _); [discriminate |].
  destruct (ParseWithClaims _ _ _ _ _) as [token |]; [| discriminate].
  intros H. injection H as <-.
  exists (UserID (TokenClaims token)), (WalletAddress (TokenClaims token)).
  reflexivity.
Qed.

Lemma contextOf_userID (userID walletAddress : string) :
  lookup "userID" (contextOf userID walletAddress) = Some userID.
Proof. reflexivity. Qed.

Lemma contextOf_wallet (userID walletAddress : string) :
  lookup "walletAddress" (contextOf userID walletAddress)
  = if String.eqb walletAddress "" then None else Some walletAddress.
Proof.
  unfold contextOf. destruct (String.eqb walletAddress ""); reflexivity.
Qed.

(** X4. Behind the middleware, [RefreshToken] never panics and keeps the
    identity: the new token, presented before its own expiry, puts the
    same user id and wallet address into the context as the token the
    request came with. *)
Theorem refresh_keeps_identity (h : AuthHandler) (conf : Config)
  (secret authHeader : string) (now later : Z) (ctx : list (string * string)) :
  cfg h = Some conf ->
  JWTMiddleware sign decode secret authHeader now = Next ctx ->
  let userID := match contextUserID ctx with Some u => u | None => EmptyString end in
  let claims := generatedClaims userID (contextWallet ctx) (JWTExpiration conf) now in
  let token := mkToken HS256 claims (sign HS256 (JWTSecret conf) claims) in
  decode (encode token) = Some token ->
  hasChar " "%char (encode token) = false ->
  later < NewNumericDate (now + wrap64 (JWTExpiration conf * Hour)) * Second ->
  RefreshToken sign encode h ctx now = Refreshed StatusOK (encode token)
  /\ JWTMiddleware sign decode (JWTSecret conf) ("Bearer " ++ encode token)%string later
     = Next ctx.
Proof.
  intros Hc Hm.
  destruct (middleware_context _ _ _ _ Hm) as (u & w & ->).
  unfold contextUserID, contextWallet.
  rewrite contextOf_userID, contextOf_wallet.
  assert (Hw : match (if String.eqb w "" then None else Some w) with
               | Some addr => addr
               | None => EmptyString
               end = w).
  { destruct (String.eqb_spec w "") as [-> | _]; reflexivity. }
  rewrite Hw. intros Hdec Hsp Hexp. split.
  - unfold RefreshToken. rewrite contextOf_userID, contextOf_wallet, Hw, Hc.
    reflexivity.
  - rewrite (middleware_on_generated u w (JWTSecret conf) (JWTExpiration conf)
               now later Hdec Hsp).
    apply Z.ltb_lt in Hexp. rewrite Hexp. reflexivity.
Qed.

(** X5. [GetProfile] behind the middleware: it answers 200 exactly when
    the token's user id has at least six bytes and the token carries a
    wallet address; for every other token that the middleware lets
    through the handler panics. *)
Theorem profile_needs_wallet_and_long_id (secret authHeader : string) (now : Z)
  (ctx : list (string * string)) :
  JWTMiddleware sign decode secret authHeader now = Next ctx ->
  exists userID walletAddress,
    ctx = contextOf userID walletAddress
    /\ GetProfile ctx
       = if (String.length userID <? 6)%nat || String.eqb walletAddress ""
         then Panics
         else Profile StatusOK
                (mkProfile userID ("player_" ++ substring 0 6 userID)
                           "user@example.com" walletAddress "").
Proof.
  intros Hm. destruct (middleware_context _ _ _ _ Hm) as (u & w & ->).
  exists u, w. split; [reflexivity |].
  unfold GetProfile. rewrite contextOf_userID, contextOf_wallet.
  destruct (String.length u <? 6)%nat; [reflexivity |].
  destruct (String.eqb w ""); reflexivity.
Qed.

(** X6. An account made by [Register] or [Login] has no wallet: the token
    they issue passes the middleware, but behind it [GetWallet] answers
    400 "No wallet connected" and [GetProfile] panics. *)
Theorem email_account_has_no_wallet (h : AuthHandler) (conf : Config)
  (reg : RegisterRequest) (login : LoginRequest) (newUserID : string)
  (now later : Z) :
  cfg h = Some conf ->
  validateRegister reg = None ->
  validateLogin login = None ->
  let claims := generatedClaims newUserID "" (JWTExpiration conf) now in
  let token := mkToken HS256 claims (sign HS256 (JWTSecret conf) claims) in
  decode (encode token) = Some token ->
  hasChar " "%char (encode token) = false ->
  later < NewNumericDate (now + wrap64 (JWTExpiration conf * Hour)) * Second ->
  exists r1 r2 ctx,
    Register sign encode validateRegister h (Some reg) newUserID now
    = Authenticated StatusCreated r1
    /\ Login sign encode validateLogin h (Some login) newUserID now
       = Authenticated StatusOK r2
    /\ ar_Token r1 = ar_Token r2
    /\ JWTMiddleware sign decode (JWTSecret conf) ("Bearer " ++ ar_Token r1)%string later
       = Next ctx
    /\ GetWallet ctx = Failed StatusBadRequest "No wallet connected"
    /\ GetProfile ctx = Panics.
Proof.
  intros Hc Hr Hl claims token Hdec Hsp Hexp.
  unfold Register, Login. rewrite Hc, Hr, Hl.
  do 2 eexists. exists (contextOf newUserID "").
  split; [reflexivity |]. split; [reflexivity |]. split; [reflexivity |].
  cbn [ar_Token].
  unfold GenerateJWT, SignedString.
  rewrite (middleware_on_generated newUserID "" (JWTSecret conf)
             (JWTExpiration conf) now later Hdec Hsp).
  apply Z.ltb_lt in Hexp. rewrite Hexp.
  split; [reflexivity |]. split.
  - unfold GetWallet. rewrite contextOf_wallet. reflexivity.
  - unfold GetProfile. rewrite contextOf_userID, contextOf_wallet.
    destruct (String.length newUserID <? 6)%nat; reflexivity.
Qed.

Lemma WalletConnect_success (h h' : AuthHandler) (conf : Config)
  (body : option WalletConnectRequest) (newUserID : string) (now : Z)
  (code : nat) (u w t : string) :
  cfg h = Some conf ->
  WalletConnect sign encode PubKey PublicKeyFromBase58 hexDecode base64Decode
                scanByte ed25519Verify h body newUserID now
  = (JSON code u w t, h') ->
  code = StatusOK /\ u = newUserID /\ w <> ""%string
  /\ t = GenerateJWT sign encode newUserID w (JWTSecret conf)
                     (JWTExpiration conf) now.
Proof.
  intros Hc. unfold WalletConnect, WalletConnectWith, requiredFields.
  destruct body as [req |]; [| discriminate].
  destruct (String.eqb_spec (reqWalletAddress req) "") as [He | Hne];
    [simpl; discriminate |].
  destruct (_ || _ || _); [discriminate |].
  destruct (VerifySignature _ _ _ _ _ _ _ _ _ _ _) as [valid err].
  destruct err; [discriminate |].
  destruct valid; [| discriminate]. simpl negb. cbv iota.
  cbn [cfg]. rewrite Hc.
  intros H. injection H as <- <- <- <- _.
  repeat split. exact Hne.
Qed.

(** X7. A wallet that went through [WalletConnect] is the wallet the user
    handlers see: the token of a successful answer passes the middleware,
    and [GetWallet] behind it reports the address of the request, which
    is not empty, as verified (also when the signature check was
    disabled). *)
Theorem connected_wallet_is_reported (h h' : AuthHandler) (conf : Config)
  (body : option WalletConnectRequest) (newUserID : string) (now later : Z)
  (code : nat) (u w t : string) :
  cfg h = Some conf ->
  WalletConnect sign encode PubKey PublicKeyFromBase58 hexDecode base64Decode
                scanByte ed25519Verify h body newUserID now
  = (JSON code u w t, h') ->
  let claims := generatedClaims newUserID w (JWTExpiration conf) now in
  let token := mkToken HS256 claims (sign HS256 (JWTSecret conf) claims) in
  decode (encode token) = Some token ->
  hasChar " "%char (encode token) = false ->
  later < NewNumericDate (now + wrap64 (JWTExpiration conf * Hour)) * Second ->
  exists ctx,
    JWTMiddleware sign decode (JWTSecret conf) ("Bearer " ++ t)%string later
    = Next ctx
    /\ GetWallet ctx
       = Wallet StatusOK (mkWalletInfo w true "1000" "Kekels Meme Token" "KMT")
    /\ w <> ""%string.
Proof.
  intros Hc Hw claims token Hdec Hsp Hexp.
  destruct (WalletConnect_success _ _ _ _ _ _ _ _ _ _ Hc Hw)
    as (_ & _ & Hne & ->).
  exists (contextOf newUserID w).
  unfold GenerateJWT, SignedString.
  rewrite (middleware_on_generated newUserID w (JWTSecret conf)
             (JWTExpiration conf) now later Hdec Hsp).
  apply Z.ltb_lt in Hexp. rewrite Hexp.
  split; [reflexivity |]. split; [| exact Hne].
  unfold GetWallet. rewrite contextOf_wallet.
  apply String.eqb_neq in Hne. rewrite Hne. rewrite Hne. reflexivity.
Qed.

End AccountFacts.

Lemma generated_token_rejected_after_expiry_witness :
  Auth.toyMiddleware "secret"
    ("Bearer " ++ Auth.toyGenerate "user-1" "wallet1" "secret" 24%Z 1000%Z)%string
    (1000 + 24 * Auth.Hour)%Z
  = Auth.HTTPError Auth.StatusUnauthorized "invalid or expired token".
Proof.
  apply (generated_token_rejected_after_expiry Auth.toySign Auth.toyEncode
           Auth.toyDecode "user-1" "wallet1" "secret" 24%Z 1000%Z
           (1000 + 24 * Auth.Hour)%Z).
  - vm_compute. reflexivity.
  - vm_compute. reflexivity.
  - vm_compute. discriminate.
Defined.


Lemma bearer_scheme_any_case_witness :
  Auth.toyMiddleware "secret"
    ("bEaReR " ++ Auth.toyGenerate "user-1" "wallet1" "secret" 24%Z 1000%Z)%string
    5000%Z
  = Auth.toyMiddleware "secret"
      ("Bearer " ++ Auth.toyGenerate "user-1" "wallet1" "secret" 24%Z 1000%Z)%string
      5000%Z.
Proof.
  apply (bearer_scheme_any_case Auth.toySign Auth.toyDecode "bEaReR"
           (Auth.toyGenerate "user-1" "wallet1" "secret" 24%Z 1000%Z)
           "secret" 5000%Z).
  reflexivity.
Defined.

Lemma refresh_keeps_identity_witness :
  Accounts.toyRefresh (Auth.NewAuthHandler (Some Auth.prodConfig))
    (Accounts.contextOf "user-1" "wallet1") 7000%Z
  = Accounts.Refreshed Auth.StatusOK
      (Auth.toyGenerate "user-1" "wallet1" "secret" 24%Z 7000%Z)
  /\ Auth.toyMiddleware "secret"
       ("Bearer " ++ Auth.toyGenerate "user-1" "wallet1" "secret" 24%Z 7000%Z)%string
       9000%Z
     = Auth.Next (Accounts.contextOf "user-1" "wallet1").
Proof.
  apply (refresh_keeps_identity Auth.toySign Auth.toyEncode Auth.toyDecode
           (Auth.NewAuthHandler (Some Auth.prodConfig)) Auth.prodConfig
           "secret"
           ("Bearer " ++ Auth.toyGenerate "user-1" "wallet1" "secret" 24%Z 1000%Z)%string
           7000%Z 9000%Z (Accounts.contextOf "user-1" "wallet1")).
  - reflexivity.
  - vm_compute. reflexivity.
  - vm_compute. reflexivity.
  - vm_compute. reflexivity.
  - vm_compute. reflexivity.
Defined.

Lemma profile_needs_wallet_and_long_id_witness :
  exists userID walletAddress,
    Accounts.contextOf "u1" "wallet1" = Accounts.contextOf userID walletAddress
    /\ Accounts.GetProfile (Accounts.contextOf "u1" "wallet1")
       = if (String.length userID <? 6)%nat || String.eqb walletAddress ""
         then Accounts.Panics
         else Accounts.Profile Auth.StatusOK
                (Accounts.mkProfile userID ("player_" ++ substring 0 6 userID)
                   "user@example.com" walletAddress "").
Proof.
  apply (profile_needs_wallet_and_long_id Auth.toySign Auth.toyDecode "secret"
           ("Bearer " ++ Auth.toyGenerate "u1" "wallet1" "secret" 24%Z 1000%Z)%string
           5000%Z).
  vm_compute. reflexivity.
Defined.

Lemma email_account_has_no_wallet_witness :
  exists r1 r2 ctx,
    Accounts.toyRegister (Auth.NewAuthHandler (Some Auth.prodConfig))
      (Some Accounts.sampleRegister) "0b5c2a9e-user" 1000%Z
    = Accounts.Authenticated Accounts.StatusCreated r1
    /\ Accounts.toyLogin (Auth.NewAuthHandler (Some Auth.prodConfig))
         (Some Accounts.sampleLogin) "0b5c2a9e-user" 1000%Z
       = Accounts.Authenticated Auth.StatusOK r2
    /\ Accounts.ar_Token r1 = Accounts.ar_Token r2
    /\ Auth.toyMiddleware "secret" ("Bearer " ++ Accounts.ar_Token r1)%string 5000%Z
       = Auth.Next ctx
    /\ Accounts.GetWallet ctx
       = Accounts.Failed Auth.StatusBadRequest "No wallet connected"
    /\ Accounts.GetProfile ctx = Accounts.Panics.
Proof.
  apply (email_account_has_no_wallet Auth.toySign Auth.toyEncode Auth.toyDecode
           Accounts.toyValidateRegister (fun _ => None)
           (Auth.NewAuthHandler (Some Auth.prodConfig)) Auth.prodConfig
           Accounts.sampleRegister Accounts.sampleLogin "0b5c2a9e-user"
           1000%Z 5000%Z).
  - reflexivity.
  - reflexivity.
  - reflexivity.
  - vm_compute. reflexivity.
  - vm_compute. reflexivity.
  - vm_compute. reflexivity.
Defined.

Lemma connected_wallet_is_reported_witness :
  exists ctx,
    Auth.toyMiddleware "secret"
      ("Bearer " ++ Auth.toyGenerate "uid" "wallet1" "secret" 24%Z 0%Z)%string 5000%Z
    = Auth.Next ctx
    /\ Accounts.GetWallet ctx
       = Accounts.Wallet Auth.StatusOK
           (Accounts.mkWalletInfo "wallet1" true "1000" "Kekels Meme Token" "KMT")
    /\ "wallet1"%string <> ""%string.
Proof.
  apply (connected_wallet_is_reported Auth.toySign Auth.toyEncode Auth.toyDecode
           string Auth.toyBase58 Auth.toyHex Auth.toyHex Auth.toyScanByte
           Auth.toyVerify
           (Auth.NewAuthHandler (Some Auth.devConfig))
           (snd (Auth.toyWalletConnect (Auth.NewAuthHandler (Some Auth.devConfig))
                   (Some Auth.forgedRequest) "uid" 0%Z))
           Auth.devConfig (Some Auth.forgedRequest) "uid" 0%Z 5000%Z
           Auth.StatusOK "uid" "wallet1"
           (Auth.toyGenerate "uid" "wallet1" "secret" 24%Z 0%Z)).
  - reflexivity.
  - vm_compute. reflexivity.
  - vm_compute. reflexivity.
  - vm_compute. reflexivity.
  - vm_compute. reflexivity.
Defined.

(** ** Signature formats *)

Section SignatureFacts.

Import Auth Accounts.

Variable PubKey : Type.
Variable PublicKeyFromBase58 : string -> option PubKey.
Variable hexDecode : string -> option string.
Variable base64Decode : string -> option string.
Variable scanByte : string -> option ascii.
Variable ed25519Verify : PubKey -> string -> string -> bool.

Lemma decimalOfByte_digits (b : ascii) :
  allDigits (decimalOfByte b) = true /\ decimalOfByte b <> EmptyString.
Proof.
  destruct b as [[] [] [] [] [] [] [] []]; split;
    solve [vm_compute; reflexivity | discriminate].
Qed.

Lemma allDigits_digitsAndCommas (s : string) :
  allDigits s = true -> digitsAndCommas s = true.
Proof.
  induction s as [| c s IH]; simpl; [reflexivity |].
  intros H. apply andb_prop in H. destruct H as [Hc Hs].
  rewrite Hc, (IH Hs). reflexivity.
Qed.

Lemma digitsAndCommas_app (s t : string) :
  digitsAndCommas (s ++ t) = digitsAndCommas s && digitsAndCommas t.
Proof.
  induction s as [| c s IH]; simpl; [reflexivity |].
  rewrite IH, andb_assoc. reflexivity.
Qed.

Lemma joinWith_digitsAndCommas (parts : list string) :
  Forall (fun p => allDigits p = true) parts ->
  digitsAndCommas (joinWith ","%char parts) = true.
Proof.
  induction parts as [| p parts IH]; intros H; [reflexivity |].
  inversion H as [| ? ? Hp Hrest]; subst.
  destruct parts as [| q parts]; [exact (allDigits_digitsAndCommas _ Hp) |].
  change (joinWith ","%char (p :: q :: parts))
    with (p ++ String ","%char (joinWith ","%char (q :: parts)))%string.
  rewrite digitsAndCommas_app, (allDigits_digitsAndCommas _ Hp).
  change (digitsAndCommas (String ","%char (joinWith ","%char (q :: parts))))
    with ((isDigit ","%char || Ascii.eqb ","%char ","%char)
          && digitsAndCommas (joinWith ","%char (q :: parts))).
  rewrite (IH Hrest). reflexivity.
Qed.

Lemma other_char_absent (c : ascii) (s : string) :
  isDigit c = false -> Ascii.eqb c ","%char = false ->
  digitsAndCommas s = true -> hasChar c s = false.
Proof.
  intros Hd Hc. induction s as [| d s IH];
    cbn [hasChar digitsAndCommas]; [reflexivity |].
  intros H. apply andb_prop in H. destruct H as [Hdc Hs].
  rewrite (IH Hs), orb_false_r.
  destruct (Ascii.eqb_spec c d) as [<- | Hne]; [| reflexivity].
  rewrite Hd, Hc in Hdc. discriminate.
Qed.

Lemma comma_absent (s : string) :
  allDigits s = true -> hasChar ","%char s = false.
Proof.
  induction s as [| d s IH]; cbn [hasChar allDigits]; [reflexivity |].
  intros H. apply andb_prop in H. destruct H as [Hd Hs].
  rewrite (IH Hs), orb_false_r.
  destruct (Ascii.eqb_spec ","%char d) as [<- | Hne];
    [vm_compute in Hd; discriminate | reflexivity].
Qed.

Lemma removeChar_absent (c : ascii) (s : string) :
  hasChar c s = false -> removeChar c s = s.
Proof.
  induction s as [| d s IH]; cbn [hasChar removeChar]; [reflexivity |].
  destruct (Ascii.eqb c d); cbn [orb]; [discriminate |].
  intros H. rewrite (IH H). reflexivity.
Qed.

Lemma trimRightSet_closing (cutset s : string) :
  (forall c, hasChar c cutset = true -> hasChar c s = false) ->
  hasChar "]"%char cutset = true ->
  trimRightSet cutset (s ++ "]") = s.
Proof.
  intros Hs Hclose. induction s as [| d s IH].
  - simpl. rewrite Hclose. reflexivity.
  - assert (Hd : hasChar d cutset = false).
    { destruct (hasChar d cutset) eqn:E; [| reflexivity].
      specialize (Hs d E). simpl in Hs. rewrite Ascii.eqb_refl in Hs.
      discriminate. }
    assert (Hrest : forall c, hasChar c cutset = true -> hasChar c s = false).
    { intros c Hc. specialize (Hs c Hc). simpl in Hs.
      apply orb_false_elim in Hs. exact (proj2 Hs). }
    change ((String d s ++ "]")%string) with (String d (s ++ "]")).
    cbn [trimRightSet]. rewrite (IH Hrest), Hd.
    destruct s; reflexivity.
Qed.

Lemma Trim_brackets (s : string) :
  digitsAndCommas s = true -> s <> EmptyString ->
  Trim ("[" ++ s ++ "]") "[]" = s.
Proof.
  intros Hs Hne. unfold Trim.
  assert (Hfree : forall c, hasChar c "[]" = true -> hasChar c s = false).
  { intros c Hc. apply other_char_absent; [| | exact Hs];
      simpl in Hc; rewrite orb_false_r in Hc;
      apply orb_prop in Hc; destruct Hc as [Hc | Hc];
      apply Ascii.eqb_eq in Hc; subst c; reflexivity. }
  destruct s as [| d s]; [congruence |].
  assert (Hd : hasChar d "[]" = false).
  { destruct (hasChar d "[]") eqn:E; [| reflexivity].
    specialize (Hfree d E). simpl in Hfree. rewrite Ascii.eqb_refl in Hfree.
    discriminate. }
  change (trimLeftSet "[]" ("[" ++ String d s ++ "]"))
    with (trimLeftSet "[]" (String d (s ++ "]"))).
  cbn [trimLeftSet]. rewrite Hd.
  exact (trimRightSet_closing "[]" (String d s) Hfree eq_refl).
Qed.

Lemma joinWith_nonempty (sep : ascii) (p : string) (parts : list string) :
  p <> EmptyString -> joinWith sep (p :: parts) <> EmptyString.
Proof.
  intros Hp. destruct parts as [| q parts]; [exact Hp |].
  change (joinWith sep (p :: q :: parts))
    with (p ++ String sep (joinWith sep (q :: parts)))%string.
  destruct p; [congruence | discriminate].
Qed.

Lemma Split_joinWith (sep : ascii) (parts : list string) :
  parts <> [] ->
  Forall (fun p => hasChar sep p = false) parts ->
  Split (joinWith sep parts) sep = parts.
Proof.
  induction parts as [| p parts IH]; intros Hne H; [congruence |].
  inversion H as [| ? ? Hp Hrest]; subst.
  destruct parts as [| q parts]; [exact (Split_no_separator _ _ Hp) |].
  change (joinWith sep (p :: q :: parts))
    with (p ++ String sep (joinWith sep (q :: parts)))%string.
  rewrite (Split_app_separator _ _ _ Hp), IH; [reflexivity | discriminate | exact Hrest].
Qed.

Lemma scanBytes_decimal (bytes : string) :
  (forall b, scanByte (decimalOfByte b) = Some b) ->
  scanBytes scanByte (map decimalOfByte (bytesOf bytes)) = Some bytes.
Proof.
  intros Hscan. induction bytes as [| b bytes IH]; [reflexivity |].
  cbn [bytesOf map scanBytes]. rewrite Hscan, IH. reflexivity.
Qed.

Lemma bytesOf_length (s : string) : List.length (bytesOf s) = String.length s.
Proof. induction s as [| c s IH]; simpl; [reflexivity | rewrite IH; reflexivity]. Qed.

(** X8. The [buffer] format round-trips between client and server: the
    text the wallet client makes of the 64 bytes of a signature
    ([JSON.stringify] of the array of numbers) is parsed back by
    [parseBufferSignature] to the same 64 bytes, given that [Sscanf] reads
    back the decimal text of a byte. *)
Theorem buffer_signature_round_trip (bytes : string) :
  (forall b, scanByte (decimalOfByte b) = Some b) ->
  String.length bytes = 64%nat ->
  parseBufferSignature scanByte (stringifyBytes bytes) = Some bytes.
Proof.
  intros Hscan Hlen. unfold parseBufferSignature, stringifyBytes.
  set (parts := map decimalOfByte (bytesOf bytes)).
  assert (Hparts : Forall (fun p => allDigits p = true) parts).
  { apply Forall_forall. intros p Hp. apply in_map_iff in Hp.
    destruct Hp as (b & <- & _). apply decimalOfByte_digits. }
  assert (Hne : parts <> []).
  { subst parts. destruct bytes; [discriminate Hlen | discriminate]. }
  assert (Hj : digitsAndCommas (joinWith ","%char parts) = true)
    by exact (joinWith_digitsAndCommas parts Hparts).
  assert (Hjne : joinWith ","%char parts <> EmptyString).
  { subst parts. destruct bytes as [| b bytes]; [discriminate Hlen |].
    apply joinWith_nonempty. apply decimalOfByte_digits. }
  rewrite (Trim_brackets _ Hj Hjne).
  rewrite (removeChar_absent " "%char)
    by (apply other_char_absent; [reflexivity | reflexivity | exact Hj]).
  rewrite (removeChar_absent (ascii_of_nat 10))
    by (apply other_char_absent; [reflexivity | reflexivity | exact Hj]).
  rewrite (removeChar_absent (ascii_of_nat 9))
    by (apply other_char_absent; [reflexivity | reflexivity | exact Hj]).
  rewrite (Split_joinWith ","%char parts Hne).
  - subst parts. rewrite length_map, bytesOf_length, Hlen. simpl negb. cbv iota.
    exact (scanBytes_decimal bytes Hscan).
  - apply Forall_forall. intros p Hp. apply comma_absent.
    rewrite Forall_forall in Hparts. exact (Hparts p Hp).
Qed.

Lemma scanBytes_length (parts : list string) :
  forall b, scanBytes scanByte parts = Some b ->
            String.length b = List.length parts.
Proof.
  induction parts as [| p parts IH]; intros b; simpl.
  - intros H. injection H as <-. reflexivity.
  - destruct (scanByte p) as [c |]; [| discriminate].
    destruct (scanBytes scanByte parts) as [r |]; [| discriminate].
    simpl. intros H. injection H as <-. simpl. rewrite (IH r eq_refl). reflexivity.
Qed.

(** X9. [parseBufferSignature] returns 64 bytes or fails, whatever bytes
    [Sscanf] reads: a signature in the [buffer] format never reaches the
    length check of [VerifySignature] with another length. *)
Theorem buffer_signature_has_64_bytes (bufferStr signatureBytes : string) :
  parseBufferSignature scanByte bufferStr = Some signatureBytes ->
  String.length signatureBytes = 64%nat.
Proof.
  unfold parseBufferSignature.
  destruct (Nat.eqb_spec
              (List.length
                 (Split (removeChar (ascii_of_nat 9)
                           (removeChar (ascii_of_nat 10)
                              (removeChar " "%char (Trim bufferStr "[]"))))
                        ","%char)) 64) as [Hl | Hl];
    simpl negb; cbv iota; [| discriminate].
  intros H. rewrite (scanBytes_length _ _ H). exact Hl.
Qed.

(** The empty text and the empty array are no signatures. *)
Example empty_buffer_refused :
  parseBufferSignature scanByte "" = None
  /\ parseBufferSignature scanByte "[]" = None.
Proof. split; reflexivity. Qed.

Lemma lowerChar_idempotent (c : ascii) : lowerChar (lowerChar c) = lowerChar c.
Proof. destruct c as [[] [] [] [] [] [] [] []]; reflexivity. Qed.

Lemma ToLower_idempotent (s : string) : ToLower (ToLower s) = ToLower s.
Proof.
  induction s as [| c s IH]; simpl; [reflexivity |].
  rewrite lowerChar_idempotent, IH. reflexivity.
Qed.

(** X10. The format name of a signature is matched without regard to
    case: [VerifySignature] gives the same result for a format and for
    its lower-case form, so [HEX], [Base64] and [Buffer] select the same
    decoders as [hex], [base64] and [buffer]. *)
Theorem signature_format_any_case (v : SolanaValidator)
  (walletAddress message signature format : string) :
  VerifySignature PubKey PublicKeyFromBase58 hexDecode base64Decode scanByte
                  ed25519Verify v walletAddress message signature format
  = VerifySignature PubKey PublicKeyFromBase58 hexDecode base64Decode scanByte
                    ed25519Verify v walletAddress message signature
                    (ToLower format).
Proof.
  unfold VerifySignature, decodeSignature.
  rewrite ToLower_idempotent. reflexivity.
Qed.

End SignatureFacts.

Lemma toyScanByte_decimal (b : ascii) :
  Auth.toyScanByte (Accounts.decimalOfByte b) = Some b.
Proof. destruct b as [[] [] [] [] [] [] [] []]; vm_compute; reflexivity. Defined.

Lemma buffer_signature_round_trip_witness :
  Auth.parseBufferSignature Auth.toyScanByte
    (Accounts.stringifyBytes Accounts.sampleSignature)
  = Some Accounts.sampleSignature.
Proof.
  apply (buffer_signature_round_trip Auth.toyScanByte Accounts.sampleSignature).
  - exact toyScanByte_decimal.
  - reflexivity.
Defined.

Lemma buffer_signature_has_64_bytes_witness :
  String.length Accounts.sampleSignature = 64%nat.
Proof.
  apply (buffer_signature_has_64_bytes Auth.toyScanByte
           (Accounts.stringifyBytes Accounts.sampleSignature)
           Accounts.sampleSignature).
  vm_compute. reflexivity.
Defined.

(** ** The stored session *)

Section SessionFacts.

Import Browser Session.

Variable User : Type.
Variable JSON_stringify : User -> string.
Variable JSON_parse : string -> option User.

Lemma find_remove_same (k : string) (l : list (string * string)) :
  find k (remove k l) = None.
Proof.
  induction l as [| [k' v] l IH]; [reflexivity |].
  cbn [remove]. destruct (String.eqb k k') eqn:E; [exact IH |].
  cbn [find]. rewrite E. exact IH.
Qed.

Lemma find_remove_other (k k' : string) (l : list (string * string)) :
  String.eqb k k' = false -> find k (remove k' l) = find k l.
Proof.
  intros Hne. induction l as [| [k2 v] l IH]; [reflexivity |].
  cbn [remove find]. destruct (String.eqb_spec k' k2) as [<- | Hk].
  - rewrite Hne. exact IH.
  - cbn [find]. rewrite IH. reflexivity.
Qed.

Lemma substring_whole (s : string) : substring 0 (String.length s) s = s.
Proof. induction s as [| c s IH]; simpl; [reflexivity | rewrite IH; reflexivity]. Qed.

Lemma prefix_app (p t : string) : String.prefix p (p ++ t) = true.
Proof.
  induction p as [| a p IH]; [destruct t; reflexivity |].
  cbn [append String.prefix].
  destruct (ascii_dec a a) as [_ | Hne]; [exact IH | contradiction].
Qed.

Lemma prefix_inv (p : string) :
  forall t, String.prefix p t = true -> exists r, t = (p ++ r)%string.
Proof.
  induction p as [| a p IH]; intros t H; [exists t; reflexivity |].
  destruct t as [| b t]; [discriminate H |].
  cbn [String.prefix] in H.
  destruct (ascii_dec a b) as [<- | Hne]; [| discriminate H].
  destruct (IH t H) as [r ->]. exists r. reflexivity.
Qed.

Lemma prefix_formatToken (t : string) :
  String.prefix "Bearer " (formatToken t) = true.
Proof.
  unfold formatToken. destruct (String.prefix "Bearer " t) eqn:E; [exact E |].
  apply prefix_app.
Qed.

Lemma formatToken_idempotent (t : string) :
  formatToken (formatToken t) = formatToken t.
Proof.
  unfold formatToken at 1. rewrite prefix_formatToken. reflexivity.
Qed.

Lemma stripBearer_prefixed (t : string) : stripBearer ("Bearer " ++ t) = t.
Proof.
  unfold stripBearer. rewrite prefix_app.
  change (String.length ("Bearer " ++ t) - 7)%nat with (String.length t - 0)%nat.
  rewrite Nat.sub_0_r.
  change (substring 7 (String.length t) ("Bearer " ++ t))
    with (substring 0 (String.length t) t).
  apply substring_whole.
Qed.

(** X11. The [Bearer ] prefix is added once and taken off again: the
    slice's formatting of a token is idempotent, the socket service's
    stripping undoes it, and a token stripped of the prefix is the token
    that was given. *)
Theorem bearer_prefix_added_once (t : string) :
  formatToken (formatToken t) = formatToken t
  /\ stripBearer (formatToken t) = stripBearer t
  /\ stripBearer ("Bearer " ++ t) = t.
Proof.
  split; [exact (formatToken_idempotent t) |].
  split; [| exact (stripBearer_prefixed t)].
  unfold formatToken. destruct (String.prefix "Bearer " t) eqn:E; [reflexivity |].
  rewrite stripBearer_prefixed. unfold stripBearer. rewrite E. reflexivity.
Qed.

Lemma formatToken_truthy (t : string) :
  Store.truthyS (Some (formatToken t)) = true.
Proof.
  unfold formatToken. destruct (String.prefix "Bearer " t) eqn:E; [| reflexivity].
  destruct t; [discriminate E | reflexivity].
Qed.

(** X12. A session survives a reload: after [connectSuccess] has run with
    a usable [localStorage], the initial state the slice computes from
    that storage when the page is loaded again is the state the reducer
    left, given that the stored user text is not empty and parses back to
    the user. *)
Theorem session_survives_reload (p : ConnectPayload User) (st : AuthState User)
  (ls : Storage) :
  works ls = true ->
  JSON_parse (JSON_stringify (payloadUser p)) = Some (payloadUser p) ->
  JSON_stringify (payloadUser p) <> EmptyString ->
  exists st' ls',
    connectSuccess User JSON_stringify p st ls = Some (st', ls')
    /\ st' = mkAuthState true (Some (formatToken (payloadToken p)))
                         (Some (payloadUser p)) None false
    /\ initialState User JSON_parse ls' = Some st'.
Proof.
  intros Hw Hparse Hne. unfold connectSuccess, setItem. rewrite Hw. cbn [works].
  do 2 eexists. split; [reflexivity |]. split; [reflexivity |].
  unfold initialState, getItem. cbn [works items find remove String.eqb Ascii.eqb Bool.eqb].
  rewrite formatToken_truthy. cbn [option_map].
  rewrite formatToken_idempotent.
  assert (Hs : Store.strOr (Some (JSON_stringify (payloadUser p))) "{}"
               = JSON_stringify (payloadUser p)).
  { unfold Store.strOr, Store.orS, Store.truthyS.
    apply String.eqb_neq in Hne. rewrite Hne. reflexivity. }
  rewrite Hs, Hparse. reflexivity.
Qed.

(** X13. After [disconnect] the session is gone: the state is
    unauthenticated without a token, and the initial state computed from
    the storage at the next load is the unauthenticated one. *)
Theorem logout_forgets_session (st : AuthState User) (ls : Storage) :
  works ls = true ->
  exists st' ls',
    disconnect User st ls = Some (st', ls')
    /\ isAuthenticated st' = false /\ token st' = None /\ user st' = None
    /\ initialState User JSON_parse ls' = Some (mkAuthState false None None None false).
Proof.
  intros Hw. unfold disconnect, removeItem. rewrite Hw. cbn [works].
  do 2 eexists. split; [reflexivity |]. repeat (split; [reflexivity |]).
  unfold initialState, getItem. cbn [works items].
  rewrite (find_remove_other "kekopoly_token" "kekopoly_user") by reflexivity.
  rewrite find_remove_same. reflexivity.
Qed.

End SessionFacts.

Section StoredTokenFacts.

Import Browser Session Auth Accounts.

Local Open Scope Z_scope.

Variable sign : SigningMethod -> string -> Claims -> string.
Variable encode : Token -> string.
Variable decode : string -> option Token.
Variable User : Type.
Variable JSON_stringify : User -> string.

Lemma prefix_has_space (t : string) :
  String.prefix "Bearer " t = true -> hasChar " "%char t = true.
Proof.
  intros H. destruct (prefix_inv _ _ H) as [r ->]. reflexivity.
Qed.

Lemma formatToken_raw (t : string) :
  hasChar " "%char t = false -> formatToken t = ("Bearer " ++ t)%string.
Proof.
  intros H. unfold formatToken.
  destruct (String.prefix "Bearer " t) eqn:E; [| reflexivity].
  rewrite (prefix_has_space t E) in H. discriminate H.
Qed.

(** X14. The token the backend issues authenticates the client's later
    requests: once [connectSuccess] has stored a token of [GenerateJWT],
    the Authorization header that [App] builds from the storage is
    accepted by the JWT middleware before the token expires, for the user
    and wallet the token was issued to. *)
Theorem stored_token_authenticates
  (userID walletAddress secret : string) (expirationHours now later : Z)
  (u : User) (st st' : AuthState User) (ls ls' : Storage) :
  let claims := generatedClaims userID walletAddress expirationHours now in
  let token := mkToken HS256 claims (sign HS256 secret claims) in
  decode (encode token) = Some token ->
  hasChar " "%char (encode token) = false ->
  later < NewNumericDate (now + wrap64 (expirationHours * Hour)) * Second ->
  connectSuccess User JSON_stringify
    (mkPayload (GenerateJWT sign encode userID walletAddress secret
                            expirationHours now) u) st ls
  = Some (st', ls') ->
  exists header,
    verifyGameHeader ls' = Some header
    /\ Session.token st' = Some header
    /\ JWTMiddleware sign decode secret header later
       = Next (contextOf userID walletAddress).
Proof.
  intros claims token Hdec Hsp Hexp.
  unfold GenerateJWT, SignedString. fold claims. fold token.
  unfold connectSuccess, setItem. cbn [payloadToken payloadUser].
  rewrite (formatToken_raw _ Hsp).
  destruct (works ls); [| discriminate]. cbn [works].
  intros H. injection H as <- <-.
  exists ("Bearer " ++ encode token)%string.
  split; [| split; [reflexivity |]].
  - unfold verifyGameHeader, getItem. cbn [works items].
    match goal with
    | |- context [find ?k ?l] =>
        change (find k l) with (Some ("Bearer " ++ encode token)%string)
    end.
    change (String.eqb ("Bearer " ++ encode token) "") with false. cbv iota.
    unfold formatToken. rewrite prefix_app. reflexivity.
  - subst token claims.
    rewrite (middleware_on_generated sign encode decode userID walletAddress
               secret expirationHours now later Hdec Hsp).
    apply Z.ltb_lt in Hexp. rewrite Hexp. reflexivity.
Qed.

End StoredTokenFacts.

Lemma bearer_prefix_sample :
  Session.formatToken "abc.def.ghi" = "Bearer abc.def.ghi"
  /\ Session.formatToken "Bearer abc.def.ghi" = "Bearer abc.def.ghi"
  /\ Session.stripBearer "Bearer abc.def.ghi" = "abc.def.ghi".
Proof. repeat split. Qed.

Lemma session_survives_reload_witness :
  exists st' ls',
    Session.connectSuccess string Session.toyStringifyUser
      (Session.mkPayload "abc.def.ghi" "wallet1")
      (Session.mkAuthState false None None None true)
      (Browser.mkStorage [] true)
    = Some (st', ls')
    /\ st' = Session.mkAuthState true (Some (Session.formatToken "abc.def.ghi"))
                                 (Some "wallet1"%string) None false
    /\ Session.initialState string Session.toyParseUser ls' = Some st'.
Proof.
  apply (session_survives_reload string Session.toyStringifyUser
           Session.toyParseUser (Session.mkPayload "abc.def.ghi" "wallet1")
           (Session.mkAuthState false None None None true)
           (Browser.mkStorage [] true)).
  - reflexivity.
  - reflexivity.
  - discriminate.
Defined.

Lemma logout_forgets_session_witness :
  exists st' ls',
    Session.disconnect string
      (Session.mkAuthState true (Some "Bearer abc.def.ghi"%string)
                           (Some "wallet1"%string) None false)
      (Browser.mkStorage [("kekopoly_user"%string, "wallet1"%string);
                          ("kekopoly_token"%string, "Bearer abc.def.ghi"%string)] true)
    = Some (st', ls')
    /\ Session.isAuthenticated st' = false /\ Session.token st' = None
    /\ Session.user st' = None
    /\ Session.initialState string Session.toyParseUser ls'
       = Some (Session.mkAuthState false None None None false).
Proof.
  apply (logout_forgets_session string Session.toyParseUser).
  reflexivity.
Defined.

Lemma stored_token_authenticates_witness :
  exists header,
    Session.verifyGameHeader
      (Browser.mkStorage
         [("kekopoly_user"%string, "wallet1"%string);
          ("kekopoly_token"%string,
           ("Bearer " ++ Auth.toyGenerate "user-1" "wallet1" "secret" 24%Z 1000%Z)%string)]
         true)
    = Some header
    /\ Session.token
         (Session.mkAuthState true
            (Some ("Bearer " ++ Auth.toyGenerate "user-1" "wallet1" "secret" 24%Z 1000%Z)%string)
            (Some "wallet1"%string) None false)
       = Some header
    /\ Auth.toyMiddleware "secret" header 5000%Z
       = Auth.Next (Accounts.contextOf "user-1" "wallet1").
Proof.
  apply (stored_token_authenticates Auth.toySign Auth.toyEncode Auth.toyDecode
           string Session.toyStringifyUser
           "user-1" "wallet1" "secret" 24%Z 1000%Z 5000%Z "wallet1"%string
           (Session.mkAuthState false None None None true) _
           (Browser.mkStorage [] true) _).
  - vm_compute. reflexivity.
  - vm_compute. reflexivity.
  - vm_compute. reflexivity.
  - vm_compute. reflexivity.
Defined.


(** ** Persistent connection state *)

Section ConnectionFacts.

Import Browser Connection.

Lemma lookupState_assign_same (k : string) (v : Value) (m : list (string * Value)) :
  lookupState k (assignState k v m) = Some v.
Proof.
  induction m as [| [k' w] m IH]; cbn [assignState lookupState].
  - rewrite String.eqb_refl. reflexivity.
  - destruct (String.eqb k k') eqn:E; cbn [lookupState].
    + rewrite String.eqb_refl. reflexivity.
    + rewrite E. exact IH.
Qed.

Lemma lookupState_assign_other (k k' : string) (v : Value)
  (m : list (string * Value)) :
  k' <> k -> lookupState k' (assignState k v m) = lookupState k' m.
Proof.
  intros Hne. apply String.eqb_neq in Hne.
  induction m as [| [k2 w] m IH]; cbn [assignState lookupState].
  - rewrite Hne. reflexivity.
  - destruct (String.eqb_spec k k2) as [<- | Hk]; cbn [lookupState].
    + rewrite Hne. reflexivity.
    + rewrite IH. reflexivity.
Qed.

Lemma connectionState_saveState (key : string) (value : Value) (s : Service) :
  connectionState (saveState key value s)
  = assignState key value (connectionState s).
Proof.
  unfold saveState. destruct (critical key); [| reflexivity].
  destruct (setItem _ _ _); reflexivity.
Qed.

Lemma append_eqb (p a b : string) :
  String.eqb (p ++ a) (p ++ b) = String.eqb a b.
Proof.
  induction p as [| c p IH]; [reflexivity |].
  cbn [append String.eqb]. rewrite Ascii.eqb_refl. exact IH.
Qed.

Lemma find_setItem_other (k k' v : string) (ls ls' : Storage) :
  String.eqb k' k = false ->
  setItem k v ls = Some ls' -> find k' (items ls') = find k' (items ls).
Proof.
  intros Hne. unfold setItem. destruct (works ls); [| discriminate].
  intros H. injection H as <-. cbn [items find]. rewrite Hne.
  induction (items ls) as [| [k2 w] l IH]; [reflexivity |].
  cbn [remove find]. destruct (String.eqb_spec k k2) as [<- | Hk].
  - rewrite Hne. exact IH.
  - cbn [find]. rewrite IH. reflexivity.
Qed.

Lemma localStorage_saveState_other (key other : string) (value : Value)
  (s : Service) :
  other <> key ->
  getItem ("kekopoly_" ++ other) (localStorage (saveState key value s))
  = getItem ("kekopoly_" ++ other) (localStorage s).
Proof.
  intros Hne. unfold saveState. destruct (critical key); [| reflexivity].
  destruct (setItem ("kekopoly_" ++ key) (toText value) (localStorage _))
    as [ls |] eqn:E; [| reflexivity].
  cbn [localStorage withLocalStorage withConnectionState] in *.
  unfold getItem.
  assert (Hw : works ls = works (localStorage s)).
  { unfold setItem in E. destruct (works (localStorage s)); [| discriminate].
    injection E as <-. reflexivity. }
  rewrite Hw. destruct (works (localStorage s)); [| reflexivity].
  f_equal. apply (find_setItem_other _ _ _ _ _ (eq_trans (append_eqb _ _ _)
    (proj2 (String.eqb_neq _ _) Hne)) E).
Qed.

(** X15. For an ordinary key and a state of ordinary keys, what
    [saveState] stores [loadState] returns, whether [localStorage] works
    or not; the state stays one of ordinary keys; and saving one key
    leaves what is loaded for every other key as it was. *)
Theorem saved_state_is_loaded (key : string) (value defaultValue : Value)
  (s : Service) :
  ordinaryKey key = true ->
  ordinaryState s = true ->
  loadState key defaultValue (saveState key value s) = value
  /\ ordinaryState (saveState key value s) = true
  /\ (forall other d, other <> key ->
        loadState other d (saveState key value s) = loadState other d s).
Proof.
  intros Hk Hs. split; [| split].
  - unfold loadState. rewrite connectionState_saveState, lookupState_assign_same.
    reflexivity.
  - unfold ordinaryState in *. rewrite connectionState_saveState.
    induction (connectionState s) as [| [k v] m IH]; cbn [assignState].
    + cbn [forallb fst]. rewrite Hk. reflexivity.
    + cbn [forallb fst] in Hs. apply andb_prop in Hs as [Hkv Hm].
      destruct (String.eqb key k); cbn [forallb fst].
      * rewrite Hk, Hm. reflexivity.
      * rewrite Hkv, (IH Hm). reflexivity.
  - intros other d Hne. unfold loadState.
    rewrite connectionState_saveState, (lookupState_assign_other _ _ _ _ Hne).
    rewrite (localStorage_saveState_other key other value s Hne). reflexivity.
Qed.

(** X16. Across a reload only the four critical keys survive, and as
    text: in a new service instance over the storage that [saveState]
    left, [loadState] of a critical key gives the string [String(value)]
    ("null" for [null]), and of any other key the default ([null] when
    none is given). *)
Theorem critical_state_survives_reload (key : string)
  (value defaultValue : Value) (s : Service) :
  works (localStorage s) = true ->
  loadState key defaultValue (newService (localStorage (saveState key value s)))
  = if critical key then VString (toText value) else defaulted defaultValue.
Proof.
  intros Hw. unfold saveState.
  destruct (critical key) eqn:Ec;
    [| unfold loadState, newService; cbn [connectionState lookupState];
       rewrite Ec; reflexivity].
  cbn [localStorage withConnectionState]. unfold setItem. rewrite Hw.
  cbn [localStorage withLocalStorage].
  unfold loadState, newService. cbn [connectionState lookupState localStorage].
  rewrite Ec. unfold getItem. cbn [works items find].
  rewrite String.eqb_refl. reflexivity.
Qed.

Lemma saveState_fields (key : string) (value : Value) (s : Service) :
  socket (saveState key value s) = socket s
  /\ isNavigating (saveState key value s) = isNavigating s
  /\ preserveConnection (saveState key value s) = preserveConnection s
  /\ reconnectAttempts (saveState key value s) = reconnectAttempts s
  /\ token (saveState key value s) = token s
  /\ sessionId (saveState key value s) = sessionId s
  /\ playerId (saveState key value s) = playerId s
  /\ gameId (saveState key value s) = gameId s.
Proof.
  unfold saveState. destruct (critical key); [| repeat split].
  destruct (setItem _ _ _); repeat split.
Qed.

Lemma sendMessage_fields (m : Message) (s : Service) :
  socket (sendMessage m s) = socket s
  /\ isNavigating (sendMessage m s) = isNavigating s
  /\ preserveConnection (sendMessage m s) = preserveConnection s
  /\ localStorage (sendMessage m s) = localStorage s.
Proof.
  unfold sendMessage. destruct (socket s) as [[] |] eqn:E; repeat split; exact E.
Qed.

Lemma socket_saveState (key : string) (value : Value) (s : Service) :
  socket (saveState key value s) = socket s.
Proof. apply saveState_fields. Qed.

Lemma isNavigating_saveState (key : string) (value : Value) (s : Service) :
  isNavigating (saveState key value s) = isNavigating s.
Proof. apply saveState_fields. Qed.

Lemma preserveConnection_saveState (key : string) (value : Value) (s : Service) :
  preserveConnection (saveState key value s) = preserveConnection s.
Proof. apply saveState_fields. Qed.

Lemma token_saveState (key : string) (value : Value) (s : Service) :
  token (saveState key value s) = token s.
Proof. apply saveState_fields. Qed.

Lemma saveConnection_fields (preserve : bool) (s : Service) :
  socket (saveConnection preserve s) = socket s
  /\ isNavigating (saveConnection preserve s) = isNavigating s
  /\ preserveConnection (saveConnection preserve s) = preserve
  /\ token (saveConnection preserve s) = token s.
Proof.
  unfold saveConnection. cbv zeta.
  rewrite !socket_saveState, !isNavigating_saveState,
    !preserveConnection_saveState, !token_saveState.
  repeat split.
Qed.

Lemma disconnect_false_fields (s : Service) :
  hasSocket s = true ->
  socket (disconnect false s) = None
  /\ preserveConnection (disconnect false s) = false
  /\ isNavigating (disconnect false s) = isNavigating s.
Proof.
  intros Hs.
  destruct (saveConnection_fields false s) as (Hsock & Hnav & Hp & _).
  unfold disconnect. cbv zeta.
  assert (Hhas : hasSocket (saveConnection false s) = true)
    by (unfold hasSocket; rewrite Hsock; exact Hs).
  rewrite <- Hnav. clear Hnav Hsock Hs.
  revert Hhas Hp. generalize (saveConnection false s) as s1.
  intros s1 Hhas Hp. rewrite Hhas, Hp. cbn [andb negb].
  destruct (isOpen s1).
  - destruct (sendMessage_fields (mkMessage "client_navigating" false) s1)
      as (_ & Hn & Hp' & _).
    cbn [socket preserveConnection isNavigating].
    rewrite Hn, Hp', Hp. repeat split.
  - cbn [socket preserveConnection isNavigating].
    rewrite Hp. repeat split.
Qed.

(** X17. An explicit [disconnect()] does not end a connection that is
    marked as navigating: the call closes the socket and clears
    [preserveConnection], but it leaves [isNavigating] set, so the close
    event that follows, clean or not, is handled as a navigation
    disconnect, which resets the attempt counter and starts a
    reconnection timer of 100 ms. *)
Theorem disconnect_is_undone_while_navigating (s : Service)
  (event : Backoff.CloseEvent) :
  hasSocket s = true ->
  isNavigating s = true ->
  let s' := disconnect false s in
  socket s' = None
  /\ preserveConnection s' = false
  /\ Backoff.reconnectAttempts
       (fst (Backoff.handleDisconnect (backoffView s') event)) = 0%nat
  /\ Backoff.timers (snd (Backoff.handleDisconnect (backoffView s') event))
     = [(100, Backoff.NavigationReconnect)].
Proof.
  intros Hs Hn s'.
  destruct (disconnect_false_fields s Hs) as (H1 & H2 & H3).
  split; [exact H1 |]. split; [exact H2 |].
  assert (Hnav : isNavigating s' = true) by (unfold s'; rewrite H3; exact Hn).
  unfold Backoff.handleDisconnect, backoffView.
  cbn [Backoff.isNavigating Backoff.preserveConnection Backoff.stateIsNavigating
       Backoff.reconnectTimer].
  rewrite Hnav. cbn [orb].
  destruct (reconnectTimer s'); split; reflexivity.
Qed.

Lemma lobbyCloses_fields (k : nat) :
  forall s,
    (Backoff.reconnectAttempts s + k <= Backoff.maxReconnectAttempts s)%nat ->
    Backoff.reconnectAttempts (lobbyCloses k s)
    = (Backoff.reconnectAttempts s + k)%nat
    /\ Backoff.maxReconnectAttempts (lobbyCloses k s)
       = Backoff.maxReconnectAttempts s
    /\ Backoff.reconnectInterval (lobbyCloses k s) = Backoff.reconnectInterval s
    /\ Backoff.navigating (lobbyCloses k s) = Backoff.navigating s.
Proof.
  induction k as [| k IH]; intros s Hle; cbn [lobbyCloses].
  - rewrite Nat.add_0_r. repeat split.
  - unfold handleLobbyDisconnect. cbn [Backoff.wasClean negb andb].
    assert (Hlt : (Backoff.reconnectAttempts s <? Backoff.maxReconnectAttempts s)%nat
                  = true) by (apply Nat.ltb_lt; lia).
    rewrite Hlt. cbn [fst].
    match goal with |- context [lobbyCloses k ?x] => destruct (IH x) as (H1 & H2 & H3 & H4) end.
    + cbn [Backoff.reconnectAttempts Backoff.maxReconnectAttempts]. lia.
    + rewrite H1, H2, H3, H4.
      cbn [Backoff.reconnectAttempts Backoff.maxReconnectAttempts
           Backoff.reconnectInterval].
      repeat split. lia.
Qed.

(** X18. The lobby socket and the game socket count their reconnection
    attempts on one counter. After [k] failed lobby reconnections the
    first unclean close of the game socket (outside navigation) waits as
    if it were attempt [k+1], that is [1.5^k] times the base interval, and
    once the lobby has used up the attempts the game socket is given up
    at once, without a single attempt. *)
Theorem lobby_failures_delay_game_reconnect (s : Backoff.Service) (k : nat) :
  Backoff.navigating s = false ->
  (Backoff.reconnectAttempts s + k <= Backoff.maxReconnectAttempts s)%nat ->
  let n := (Backoff.reconnectAttempts s + k)%nat in
  Backoff.timers
    (snd (Backoff.handleDisconnect (lobbyCloses k s) (Backoff.mkClose false)))
  = if (n <? Backoff.maxReconnectAttempts s)%nat
    then [(Backoff.backoffDelay (Backoff.reconnectInterval s) (S n),
           Backoff.BackoffReconnect (S n))]
    else [].
Proof.
  intros Hnav Hle n.
  destruct (lobbyCloses_fields k s Hle) as (H1 & H2 & H3 & H4).
  unfold Backoff.handleDisconnect.
  unfold Backoff.navigating in H4, Hnav. rewrite H4, Hnav.
  cbn [Backoff.wasClean negb andb]. rewrite H1, H2, H3. fold n.
  destruct (n <? Backoff.maxReconnectAttempts s)%nat; reflexivity.
Qed.

Lemma handleDisconnect_preserved (s : Backoff.Service) (event : Backoff.CloseEvent) :
  Backoff.preserveConnection s = true ->
  Backoff.preserveConnection (fst (Backoff.handleDisconnect s event)) = true
  /\ Backoff.timers (snd (Backoff.handleDisconnect s event))
     = [(100, Backoff.NavigationReconnect)]
  /\ ~ In (Backoff.ConnectionChange "failed")
         (snd (Backoff.handleDisconnect s event))
  /\ Backoff.reconnectAttempts (fst (Backoff.handleDisconnect s event)) = 0%nat.
Proof.
  intros Hp. unfold Backoff.handleDisconnect. rewrite Hp, orb_true_r.
  cbn [orb fst snd Backoff.preserveConnection Backoff.reconnectAttempts].
  split; [reflexivity |].
  destruct (Backoff.reconnectTimer s); cbn [app Backoff.timers In];
    repeat split; try reflexivity;
    intros H; repeat (destruct H as [H | H]; [discriminate H |]); exact H.
Qed.

Lemma timers_app (es1 es2 : list Backoff.Effect) :
  Backoff.timers (es1 ++ es2) = Backoff.timers es1 ++ Backoff.timers es2.
Proof.
  induction es1 as [| e es1 IH]; [reflexivity |].
  destruct e; cbn [app Backoff.timers]; rewrite IH; reflexivity.
Qed.

(** X19. [preserveConnection] is sticky: no close event, no opening of
    a new socket and no fulfilled reconnection clears it. Once it is set,
    every later close of the game socket, clean or not, starts one
    reconnection timer of 100 ms, and the client never reports the
    connection as failed: the cap on reconnection attempts no longer
    applies. *)
Theorem preserved_connection_reconnects_forever (hs : list Happening)
  (s : Backoff.Service) :
  Backoff.preserveConnection s = true ->
  Backoff.preserveConnection (fst (happen hs s)) = true
  /\ Backoff.timers (snd (happen hs s))
     = repeat (100, Backoff.NavigationReconnect) (closes hs)
  /\ ~ In (Backoff.ConnectionChange "failed") (snd (happen hs s)).
Proof.
  revert s. induction hs as [| h hs IH]; intros s Hp.
  - cbn. repeat split; [exact Hp | tauto].
  - destruct h as [event | |]; cbn [happen closes].
    + destruct (handleDisconnect_preserved s event Hp) as (H1 & H2 & H3 & _).
      destruct (Backoff.handleDisconnect s event) as [s1 es1].
      cbn [fst snd] in H1, H2, H3.
      destruct (IH s1 H1) as (I1 & I2 & I3).
      destruct (happen hs s1) as [s2 es2]. cbn [fst snd] in *.
      split; [exact I1 |]. split.
      * rewrite timers_app, H2, I2. reflexivity.
      * intros H. apply in_app_or in H. tauto.
    + apply IH. exact Hp.
    + apply IH. exact Hp.
Qed.

End ConnectionFacts.

Section SocketSessionFacts.

Import Browser Connection.

Variable User : Type.
Variable JSON_parse : string -> option User.

Lemma works_saveState (key : string) (value : Value) (s : Service) :
  works (localStorage (saveState key value s)) = works (localStorage s).
Proof.
  unfold saveState. destruct (critical key); [| reflexivity].
  cbn [localStorage withConnectionState]. unfold setItem.
  destruct (works (localStorage s)) eqn:E; [reflexivity | exact E].
Qed.

Lemma getItem_saveState_same (key : string) (value : Value) (s : Service) :
  critical key = true -> works (localStorage s) = true ->
  getItem ("kekopoly_" ++ key) (localStorage (saveState key value s))
  = Some (Some (toText value)).
Proof.
  intros Hc Hw. unfold saveState. rewrite Hc.
  cbn [localStorage withConnectionState]. unfold setItem. rewrite Hw.
  cbn [localStorage withLocalStorage]. unfold getItem. cbn [works items find].
  rewrite String.eqb_refl. reflexivity.
Qed.

Lemma localStorage_saveState_plain (key : string) (value : Value) (s : Service) :
  critical key = false -> localStorage (saveState key value s) = localStorage s.
Proof. intros Hc. unfold saveState. rewrite Hc. reflexivity. Qed.

Lemma saveConnection_storage (preserve : bool) (s : Service) :
  works (localStorage s) = true ->
  getItem "kekopoly_token" (localStorage (saveConnection preserve s))
  = Some (Some (toText (token s)))
  /\ getItem "kekopoly_user" (localStorage (saveConnection preserve s))
     = getItem "kekopoly_user" (localStorage s).
Proof.
  intros Hw. unfold saveConnection. cbv zeta. split.
  - rewrite (localStorage_saveState_other "sessionId" "token") by discriminate.
    rewrite getItem_saveState_same; [| reflexivity |].
    + rewrite !token_saveState. reflexivity.
    + rewrite !works_saveState. exact Hw.
  - rewrite (localStorage_saveState_other "sessionId" "user") by discriminate.
    rewrite (localStorage_saveState_other "token" "user") by discriminate.
    rewrite (localStorage_saveState_other "playerId" "user") by discriminate.
    rewrite (localStorage_saveState_other "gameId" "user") by discriminate.
    rewrite (localStorage_saveState_other "connectionActive" "user") by discriminate.
    reflexivity.
Qed.

Lemma localStorage_disconnect (preserve : bool) (s : Service) :
  localStorage (disconnect preserve s)
  = localStorage (saveConnection preserve s).
Proof.
  unfold disconnect. cbv zeta.
  generalize (saveConnection preserve s) as s1. intros s1.
  destruct (hasSocket s1 && negb (preserveConnection s1)).
  - destruct (isOpen s1); [| reflexivity].
    cbn [localStorage]. apply sendMessage_fields.
  - destruct (preserveConnection s1); [| reflexivity].
    match goal with
    | |- context [saveState "isNavigating" ?v ?x] =>
        pose proof (localStorage_saveState_plain "isNavigating" v x eq_refl) as Hl;
        cbn [localStorage] in Hl;
        generalize dependent (saveState "isNavigating" v x)
    end.
    intros s2 Hl. destruct (isOpen s2).
    + destruct (sendMessage_fields (mkMessage "client_navigating" true) s2)
        as (_ & _ & _ & ->). exact Hl.
    + exact Hl.
Qed.

(** X20. The socket service and the auth slice share the storage key
    [kekopoly_token]. Every call of the service's [disconnect] writes the
    service's token there, so that the initial state of the auth slice at
    the next load is an authenticated one with that token, also after a
    logout has removed the key, and with the token [Bearer null] when the
    service had no token. *)
Theorem socket_disconnect_signs_in (preserve : bool) (s : Service) (u : User) :
  works (localStorage s) = true ->
  toText (token s) <> EmptyString ->
  JSON_parse (Store.strOr (find "kekopoly_user" (items (localStorage s))) "{}")
  = Some u ->
  Session.initialState User JSON_parse (localStorage (disconnect preserve s))
  = Some (Session.mkAuthState true
            (Some (Session.formatToken (toText (token s)))) (Some u) None false).
Proof.
  intros Hw Hne Hu. rewrite localStorage_disconnect.
  destruct (saveConnection_storage preserve s Hw) as [Ht Hus].
  unfold Session.initialState. rewrite Ht, Hus.
  unfold getItem at 1. rewrite Hw.
  assert (Htr : Store.truthyS (Some (toText (token s))) = true).
  { unfold Store.truthyS. apply String.eqb_neq in Hne. rewrite Hne. reflexivity. }
  rewrite Htr, Hu. reflexivity.
Qed.

End SocketSessionFacts.

Lemma saved_state_is_loaded_witness :
  Connection.loadState "gameId" Connection.VNull
    (Connection.saveState "gameId" (Connection.VString "room1")
       (Connection.newService (Browser.mkStorage [] false)))
  = Connection.VString "room1"
  /\ Connection.ordinaryState
       (Connection.saveState "gameId" (Connection.VString "room1")
          (Connection.newService (Browser.mkStorage [] false))) = true
  /\ (forall other d, other <> "gameId"%string ->
        Connection.loadState other d
          (Connection.saveState "gameId" (Connection.VString "room1")
             (Connection.newService (Browser.mkStorage [] false)))
        = Connection.loadState other d
            (Connection.newService (Browser.mkStorage [] false))).
Proof.
  apply (saved_state_is_loaded "gameId" (Connection.VString "room1")
           Connection.VNull (Connection.newService (Browser.mkStorage [] false)));
    reflexivity.
Defined.

Lemma critical_state_survives_reload_witness :
  Connection.loadState "token" Connection.VUndefined
    (Connection.newService
       (Connection.localStorage
          (Connection.saveState "token" Connection.VNull
             (Connection.newService (Browser.mkStorage [] true)))))
  = Connection.VString "null".
Proof.
  apply (critical_state_survives_reload "token" Connection.VNull
           Connection.VUndefined
           (Connection.newService (Browser.mkStorage [] true))).
  reflexivity.
Defined.

(** A service in a running game: the socket open, the navigation flags as
    [handleGameStarted] leaves them. *)
Lemma disconnect_is_undone_while_navigating_witness :
  let s := Connection.mkService [] (Some Connection.OPEN)
             (Connection.VString "room1") (Connection.VString "p1")
             (Connection.VString "Bearer abc") (Connection.VString "sess")
             true true true 0 5 1000 false (Browser.mkStorage [] true) [] [] in
  Connection.socket (Connection.disconnect false s) = None
  /\ Connection.preserveConnection (Connection.disconnect false s) = false
  /\ Backoff.reconnectAttempts
       (fst (Backoff.handleDisconnect
               (Connection.backoffView (Connection.disconnect false s))
               (Backoff.mkClose true))) = 0%nat
  /\ Backoff.timers
       (snd (Backoff.handleDisconnect
               (Connection.backoffView (Connection.disconnect false s))
               (Backoff.mkClose true)))
     = [(100, Backoff.NavigationReconnect)].
Proof.
  intros s.
  apply (disconnect_is_undone_while_navigating s (Backoff.mkClose true));
    reflexivity.
Defined.

Lemma lobby_failures_delay_game_reconnect_witness :
  Backoff.timers
    (snd (Backoff.handleDisconnect
            (Connection.lobbyCloses 5 Backoff.initialService)
            (Backoff.mkClose false)))
  = [].
Proof.
  apply (lobby_failures_delay_game_reconnect Backoff.initialService 5).
  - reflexivity.
  - simpl. lia.
Defined.

Lemma preserved_connection_reconnects_forever_witness :
  let s := Connection.navigationResolved
             (fst (Backoff.handleDisconnect
                     {| Backoff.reconnectAttempts := 5;
                        Backoff.maxReconnectAttempts := 5;
                        Backoff.reconnectInterval := 1000;
                        Backoff.reconnectTimer := false;
                        Backoff.isNavigating := true;
                        Backoff.preserveConnection := true;
                        Backoff.stateIsNavigating := true |}
                     (Backoff.mkClose false))) in
  let hs := [Connection.Closed (Backoff.mkClose true);
             Connection.Opened;
             Connection.Resolved;
             Connection.Closed (Backoff.mkClose false);
             Connection.Closed (Backoff.mkClose false)] in
  Backoff.preserveConnection (fst (Connection.happen hs s)) = true
  /\ Backoff.timers (snd (Connection.happen hs s))
     = repeat (100, Backoff.NavigationReconnect) (Connection.closes hs)
  /\ ~ In (Backoff.ConnectionChange "failed") (snd (Connection.happen hs s)).
Proof.
  intros s hs.
  apply (preserved_connection_reconnects_forever hs s).
  reflexivity.
Defined.

Lemma socket_disconnect_signs_in_witness :
  Session.initialState string Session.toyParseUser
    (Connection.localStorage
       (Connection.disconnect false
          (Connection.newService (Browser.mkStorage [] true))))
  = Some (Session.mkAuthState true (Some "Bearer null"%string)
            (Some "{}"%string) None false).
Proof.
  apply (socket_disconnect_signs_in string Session.toyParseUser false
           (Connection.newService (Browser.mkStorage [] true)) "{}"%string).
  - reflexivity.
  - discriminate.
  - reflexivity.
Defined.


(** ** Turn checks *)

Section TurnFacts.

Import Turn.

Local Open Scope Z_scope.

Lemma recompute_fields (v : View) (now : Z) (t : Service) :
  cachedTurnResult (snd (recompute v now t)) = Some (fst (recompute v now t))
  /\ lastTurnCheckTime (snd (recompute v now t)) = now
  /\ turnCheckInterval (snd (recompute v now t)) = turnCheckInterval t.
Proof. repeat split. Qed.

(** X21. The answer of [isLocalPlayerTurn] is cached: once it has been
    computed at some time, every call made less than the check interval
    (one second) later returns the same answer and changes nothing,
    whatever the store and the service say by then. A turn change can go
    unnoticed for up to a second. *)
Theorem turn_answer_cached_for_a_second (v1 v2 : View) (now1 now2 : Z)
  (t : Service) :
  cachedTurnResult t = None \/ turnCheckInterval t <= now1 - lastTurnCheckTime t ->
  now2 - now1 < turnCheckInterval t ->
  isLocalPlayerTurn v2 now2 (snd (isLocalPlayerTurn v1 now1 t))
  = isLocalPlayerTurn v1 now1 t.
Proof.
  intros Hmiss Hsoon.
  assert (E : isLocalPlayerTurn v1 now1 t = recompute v1 now1 t).
  { unfold isLocalPlayerTurn. destruct (cachedTurnResult t) as [cached |].
    - destruct Hmiss as [Hc | Hold]; [discriminate Hc |].
      destruct (Z.ltb_spec (now1 - lastTurnCheckTime t) (turnCheckInterval t));
        [lia | reflexivity].
    - reflexivity. }
  rewrite E.
  destruct (recompute_fields v1 now1 t) as (Hc & Hl & Hi).
  destruct (recompute v1 now1 t) as [r1 t1]. cbn [fst snd] in *.
  unfold isLocalPlayerTurn. rewrite Hc, Hl, Hi.
  apply Z.ltb_lt in Hsoon. rewrite Hsoon. reflexivity.
Qed.

Lemma isLocalPlayerTurn_requests (v : View) (now : Z) (t : Service) :
  let t1 := snd (isLocalPlayerTurn v now t) in
  socketOpen t1 = socketOpen t
  /\ ((requests t1 = requests t /\ lastTurnCheck t1 = lastTurnCheck t)
      \/ (requests t1 = S (requests t) /\ lastTurnCheck t1 = Some now
          /\ 5000 < now - match lastTurnCheck t with Some z => z | None => 0 end)).
Proof.
  unfold isLocalPlayerTurn.
  destruct (cachedTurnResult t) as [cached |];
    [destruct (now - lastTurnCheckTime t <? turnCheckInterval t);
     [split; [reflexivity | left; split; reflexivity] |] |];
    unfold recompute; cbn [snd socketOpen requests lastTurnCheck];
    (split; [reflexivity |]);
    destruct (socketOpen t); cbn [andb];
    try (left; split; reflexivity);
    destruct (Z.ltb_spec 5000
                (now - match lastTurnCheck t with Some z => z | None => 0 end));
    try (left; split; reflexivity);
    right; repeat split; assumption.
Qed.

Lemma no_request_after_recent (calls : list (View * Z)) (a z : Z) :
  forall t,
    lastTurnCheck t = Some z -> a <= z ->
    Forall (fun c => snd c <= a + 5000) calls ->
    requests (snd (ask calls t)) = requests t.
Proof.
  induction calls as [| [v now] calls IH]; intros t Hl Hz Hall; [reflexivity |].
  inversion Hall as [| ? ? Hnow Hrest]; subst. cbn [snd] in Hnow.
  cbn [ask].
  pose proof (isLocalPlayerTurn_requests v now t) as H. cbv zeta in H.
  destruct (isLocalPlayerTurn v now t) as [r t1]. cbn [snd] in H.
  destruct H as (_ & [[Hr Hlc] | (_ & _ & Hgap)]).
  - specialize (IH t1 (eq_trans Hlc Hl) Hz Hrest).
    destruct (ask calls t1) as [rs t2]. cbn [snd] in *. lia.
  - rewrite Hl in Hgap. lia.
Qed.

(** X22. The turn requests are throttled: however often and in whatever
    order the interface asks within a span of five seconds,
    [isLocalPlayerTurn] schedules at most one [get_current_turn] request
    to the server. *)
Theorem one_turn_request_in_five_seconds (calls : list (View * Z)) (a : Z)
  (t : Service) :
  Forall (fun c => a <= snd c <= a + 5000) calls ->
  (requests (snd (ask calls t)) <= S (requests t))%nat.
Proof.
  revert t. induction calls as [| [v now] calls IH]; intros t Hall; [cbn; lia |].
  inversion Hall as [| ? ? Hnow Hrest]; subst. cbn [snd] in Hnow.
  cbn [ask].
  pose proof (isLocalPlayerTurn_requests v now t) as H. cbv zeta in H.
  destruct (isLocalPlayerTurn v now t) as [r t1]. cbn [snd] in H.
  destruct H as (_ & [[Hr Hlc] | (Hr & Hlc & _)]).
  - specialize (IH t1 Hrest).
    destruct (ask calls t1) as [rs t2]. cbn [snd] in *. lia.
  - assert (Hle : Forall (fun c : View * Z => snd c <= a + 5000) calls).
    { apply Forall_forall. intros c Hc. rewrite Forall_forall in Hrest.
      apply (Hrest c Hc). }
    pose proof (no_request_after_recent calls a now t1 Hlc (proj1 Hnow) Hle) as Hn.
    destruct (ask calls t1) as [rs t2]. cbn [snd] in *. lia.
Qed.

End TurnFacts.

(** ** Dice *)

Section DiceFacts.

Import Dice.

Local Open Scope Q_scope.

Lemma validDie_isDie (value : Js) : isDie (validDie value).
Proof.
  assert (Hone : isDie (JNumber 1)).
  { exists 1. split; [reflexivity |]. split; discriminate. }
  unfold validDie.
  destruct (match value with
            | JString s => option_map inject_Z (parseInt10 s)
            | JNumber q => Some q
            | _ => None
            end) as [q |]; [| exact Hone].
  destruct (Qle_bool 1 q) eqn:E1; [| exact Hone].
  destruct (Qle_bool q 6) eqn:E6; [| exact Hone].
  exists q. split; [reflexivity |].
  split; apply Qle_bool_iff; assumption.
Qed.

Lemma Qle_bool_inject_l (n : Z) : Qle_bool 1 (inject_Z n) = (1 <=? n)%Z.
Proof. unfold Qle_bool, inject_Z. cbn [Qnum Qden]. rewrite !Z.mul_1_r. reflexivity. Qed.

Lemma Qle_bool_inject_r (n : Z) : Qle_bool (inject_Z n) 6 = (n <=? 6)%Z.
Proof. unfold Qle_bool, inject_Z. cbn [Qnum Qden]. rewrite !Z.mul_1_r. reflexivity. Qed.

Lemma trimStart_digit (c : ascii) (d : Z) (rest : string) :
  digitValue c = Some d ->
  Frames.trimStart (String c rest) = String c rest
  /\ Ascii.eqb c "-"%char = false /\ Ascii.eqb c "+"%char = false.
Proof.
  destruct c as [[] [] [] [] [] [] [] []]; try (intros H; discriminate H);
    intros _; (split; [| split; reflexivity]);
    destruct rest as [| b [| e r]]; reflexivity.
Qed.

Lemma trimStart_spaces (ws s : string) :
  allSpaces ws = true -> Frames.trimStart s = s ->
  Frames.trimStart (ws ++ s) = s.
Proof.
  intros Hws Hs. induction ws as [| a ws IH]; [exact Hs |].
  cbn [allSpaces] in Hws. apply andb_prop in Hws as [Ha Hws].
  change ((String a ws ++ s)%string) with (String a (ws ++ s)%string).
  cbn [Frames.trimStart]. rewrite Ha. exact (IH Hws).
Qed.

(** [parseInt] reads one digit that stands after white space and before
    anything but a digit. *)
Lemma parseInt10_digit (ws rest : string) (c : ascii) (d : Z) :
  allSpaces ws = true -> digitValue c = Some d -> startsWithDigit rest = false ->
  parseInt10 (ws ++ String c rest) = Some d.
Proof.
  intros Hws Hc Hrest.
  destruct (trimStart_digit c d rest Hc) as (Ht & Hm & Hp).
  unfold parseInt10. rewrite (trimStart_spaces ws _ Hws Ht), Hm, Hp.
  cbn [leadingDigits]. rewrite Hc.
  destruct rest as [| e r]; [reflexivity |].
  cbn [leadingDigits]. cbn [startsWithDigit] in Hrest.
  destruct (digitValue e); [discriminate Hrest | reflexivity].
Qed.

(** X23. Whatever a [dice_rolled] message carries, every die
    [handleDiceRolled] passes on is a number from one to six, or
    [undefined] where the array of dice is too short. There is one
    validated die for every die of the message: a number from one to six
    is kept, whole or not; a text is read with [parseInt], which takes a
    digit after white space and before other characters, and is kept
    when the integer read is from one to six; every other number, text or
    value becomes a one. *)
Theorem dice_are_validated (data : Rolled) :
  Forall isDie (validatedDice data)
  /\ (isDie (rolled1 (updateDiceRollPayload data))
      \/ rolled1 (updateDiceRollPayload data) = JUndefined)
  /\ (isDie (rolled2 (updateDiceRollPayload data))
      \/ rolled2 (updateDiceRollPayload data) = JUndefined)
  /\ (forall elements, dice data = DiceArray elements ->
      validatedDice data = map validDie elements)
  /\ (forall v, dice data = DiceValue v ->
      truthy v || truthy (dice1 data) || truthy (dice2 data) = true ->
      validatedDice data = [validDie (dice1 data); validDie (dice2 data)])
  /\ (forall q, 1 <= q -> q <= 6 -> validDie (JNumber q) = JNumber q)
  /\ (forall q, ~ (1 <= q /\ q <= 6) -> validDie (JNumber q) = JNumber 1)
  /\ (forall s n, parseInt10 s = Some n -> (1 <= n <= 6)%Z ->
      validDie (JString s) = JNumber (inject_Z n))
  /\ (forall s, (forall n, parseInt10 s = Some n -> ~ (1 <= n <= 6)%Z) ->
      validDie (JString s) = JNumber 1)
  /\ (forall ws c d rest,
      allSpaces ws = true -> digitValue c = Some d -> (1 <= d <= 6)%Z ->
      startsWithDigit rest = false ->
      validDie (JString (ws ++ String c rest)) = JNumber (inject_Z d))
  /\ (forall b, validDie (JBool b) = JNumber 1)
  /\ validDie JUndefined = JNumber 1
  /\ validDie JNull = JNumber 1
  /\ validDie JObject = JNumber 1.
Proof.
  assert (H : Forall isDie (validatedDice data)).
  { unfold validatedDice. apply Forall_forall. intros d Hd.
    apply in_map_iff in Hd. destruct Hd as (v & <- & _). apply validDie_isDie. }
  assert (Hnth : forall n, isDie (nth n (validatedDice data) JUndefined)
                           \/ nth n (validatedDice data) JUndefined = JUndefined).
  { intros n. destruct (nth_in_or_default n (validatedDice data) JUndefined) as [Hin | Hd].
    - left. rewrite Forall_forall in H. exact (H _ Hin).
    - right. exact Hd. }
  assert (Hstr : forall s n, parseInt10 s = Some n -> (1 <= n <= 6)%Z ->
                 validDie (JString s) = JNumber (inject_Z n)).
  { intros s n Hs [H1 H6]. unfold validDie. rewrite Hs. cbn [option_map].
    rewrite Qle_bool_inject_l, Qle_bool_inject_r.
    apply Z.leb_le in H1, H6. rewrite H1, H6. reflexivity. }
  split; [exact H |]. split; [apply (Hnth 0%nat) |]. split; [apply (Hnth 1%nat) |].
  split.
  { intros elements E. unfold validatedDice. rewrite E. cbn [truthyField negb andb].
    reflexivity. }
  split.
  { intros v E Ht. unfold validatedDice. rewrite E. cbn [truthyField].
    destruct (truthy v); [reflexivity |].
    destruct (truthy (dice1 data)); [reflexivity |].
    destruct (truthy (dice2 data)); [reflexivity | discriminate Ht]. }
  split.
  { intros q H1 H6. unfold validDie.
    apply Qle_bool_iff in H1, H6. rewrite H1, H6. reflexivity. }
  split.
  { intros q Hq. unfold validDie.
    destruct (Qle_bool 1 q) eqn:E1; [| reflexivity].
    destruct (Qle_bool q 6) eqn:E6; [| reflexivity].
    exfalso. apply Hq. split; apply Qle_bool_iff; assumption. }
  split; [exact Hstr |].
  split.
  { intros s Hs. unfold validDie.
    destruct (parseInt10 s) as [n |]; [| reflexivity]. cbn [option_map].
    rewrite Qle_bool_inject_l, Qle_bool_inject_r.
    destruct (Z.leb_spec 1 n) as [H1 | H1]; [| reflexivity].
    destruct (Z.leb_spec n 6) as [H6 | H6]; [| reflexivity].
    exfalso. apply (Hs n eq_refl). split; assumption. }
  split.
  { intros ws c d rest Hws Hc Hd Hrest.
    apply Hstr; [apply parseInt10_digit; assumption | exact Hd]. }
  repeat split.
Qed.

(** X24. A roll without dice counts as a double: when the message has no
    truthy [dice], [dice1] or [dice2], the roll recorded is one and one
    and is flagged as doubles. *)
Theorem roll_without_dice_is_double_ones (data : Rolled) :
  truthyField (dice data) = false ->
  truthy (dice1 data) = false ->
  truthy (dice2 data) = false ->
  updateDiceRollPayload data = mkDiceRoll (JNumber 1) (JNumber 1) true.
Proof.
  intros H0 H1 H2. unfold updateDiceRollPayload, validatedDice.
  rewrite H0, H1, H2. reflexivity.
Qed.

(** An empty array of dice is no better: both dice are [undefined] and
    the roll is flagged as doubles. A die may also be a fraction. *)
Example empty_dice_array_is_doubles :
  updateDiceRollPayload (mkRolled (DiceArray []) JUndefined JUndefined)
  = mkDiceRoll JUndefined JUndefined true
  /\ validatedDice (mkRolled (DiceArray [JNumber (7 # 2); JString " 4px"])
                             JUndefined JUndefined)
     = [JNumber (7 # 2); JNumber 4].
Proof. split; reflexivity. Qed.

End DiceFacts.

Lemma turn_answer_cached_for_a_second_witness :
  let t := Turn.mkService None 0 1000 None (Turn.IdString "p1") true 0 in
  let mine := Turn.mkView (Turn.IdString "p1") Turn.IdUndefined Turn.IdUndefined
                          None None in
  let theirs := Turn.mkView (Turn.IdString "p2") Turn.IdUndefined Turn.IdUndefined
                            None None in
  Turn.isLocalPlayerTurn theirs 50999%Z
    (snd (Turn.isLocalPlayerTurn mine 50000%Z t))
  = Turn.isLocalPlayerTurn mine 50000%Z t.
Proof.
  intros t mine theirs.
  apply (turn_answer_cached_for_a_second mine theirs 50000%Z 50999%Z t).
  - left. reflexivity.
  - reflexivity.
Defined.

Lemma one_turn_request_in_five_seconds_witness :
  let t := Turn.mkService None 0 1000 None (Turn.IdString "p1") true 0 in
  let v := Turn.mkView (Turn.IdString "p1") Turn.IdUndefined Turn.IdUndefined
                       None None in
  (Turn.requests
     (snd (Turn.ask [(v, 50000%Z); (v, 51500%Z); (v, 53000%Z); (v, 55000%Z)] t))
   <= S (Turn.requests t))%nat.
Proof.
  intros t v.
  apply (one_turn_request_in_five_seconds
           [(v, 50000%Z); (v, 51500%Z); (v, 53000%Z); (v, 55000%Z)] 50000%Z t).
  repeat constructor; cbn; lia.
Defined.

Lemma roll_without_dice_is_double_ones_witness :
  Dice.updateDiceRollPayload
    (Dice.mkRolled (Dice.DiceValue Dice.JUndefined) (Dice.JNumber 0)
                   (Dice.JString ""))
  = Dice.mkDiceRoll (Dice.JNumber 1) (Dice.JNumber 1) true.
Proof.
  apply (roll_without_dice_is_double_ones
           (Dice.mkRolled (Dice.DiceValue Dice.JUndefined) (Dice.JNumber 0)
                          (Dice.JString ""))); reflexivity.
Defined.
(** ** Splitting and matching of frames *)

Section ShapeFacts.

Import Frames Shape.

Lemma prefix_boundary_short (c : ascii) :
  String.prefix "}{" (String c EmptyString) = false.
Proof.
  cbn [String.prefix]. destruct (ascii_dec "}" c); reflexivity.
Qed.

Lemma includes_cons (c : ascii) (s sub : string) :
  includes (String c s) sub = String.prefix sub (String c s) || includes s sub.
Proof. reflexivity. Qed.

(** X25. Splitting a frame at the object boundaries loses nothing and
    cuts at every boundary: the parts, put together again, are the frame,
    and no part has a closing brace directly followed by an opening one
    inside. *)
Theorem split_parts_rebuild_frame (rawData : string) :
  coalesce (splitBoundary rawData) = rawData
  /\ Forall (fun part => includes part "}{" = false) (splitBoundary rawData).
Proof.
  induction rawData as [| c rest [IHc IHf]].
  { split; [reflexivity |]. constructor; [reflexivity | constructor]. }
  cbn [splitBoundary].
  destruct (splitBoundary rest) as [| p ps] eqn:E;
    [destruct (splitBoundary_nonempty _ E) |].
  destruct (Ascii.eqb c close_brace && startsWith rest "{") eqn:B.
  - split.
    + change (coalesce (String c EmptyString :: p :: ps))
        with (String c (coalesce (p :: ps))).
      rewrite IHc. reflexivity.
    + constructor; [| exact IHf].
      rewrite includes_cons, prefix_boundary_short. reflexivity.
  - split.
    + change (coalesce (String c p :: ps)) with (String c (coalesce (p :: ps))).
      rewrite IHc. reflexivity.
    + inversion IHf as [| ? ? Hp Hps]; subst.
      constructor; [| exact Hps].
      rewrite includes_cons, Hp, orb_false_r.
      destruct p as [| d p']; [apply prefix_boundary_short |].
      rewrite prefix_boundary.
      change (coalesce (String d p' :: ps))
        with (String d (p' ++ coalesce ps)%string) in B.
      rewrite startsWith_open in B. exact B.
Qed.
Lemma scanObject_shape (s : string) :
  forall room level m,
    scanObject room level s = Some m ->
    String.prefix m s = true
    /\ endsWithClose m = true
    /\ (countChar open_brace m + level = countChar close_brace m)%nat
    /\ (level = 0%nat -> startsWith m "{" = true).
Proof.
  induction s as [| c rest IH]; intros room level m; [discriminate |].
  cbn [scanObject].
  destruct (Ascii.eqb_spec c close_brace) as [-> | Hnc].
  - destruct level as [| [| l]]; [discriminate | |].
    + intros H. injection H as <-. repeat split.
      * cbn [String.prefix]. destruct (ascii_dec close_brace close_brace);
          [destruct rest; reflexivity | contradiction].
      * intros H; discriminate H.
    + destruct (scanObject (S room) (S l) rest) as [m' |] eqn:E; [| discriminate].
      intros H. injection H as <-.
      destruct (IH _ _ _ E) as (Hp & He & Hc & _).
      repeat split.
      * cbn [String.prefix]. destruct (ascii_dec close_brace close_brace);
          [exact Hp | contradiction].
      * unfold endsWithClose in *. cbn [lastChar].
        destruct m' as [| e m'']; [discriminate He | exact He].
      * cbn [countChar]. unfold open_brace, close_brace in *.
        change (Ascii.eqb "{" "}") with false. rewrite Ascii.eqb_refl. lia.
      * intros H; discriminate H.
  - destruct (Ascii.eqb_spec c open_brace) as [-> | Hno].
    + destruct room as [| r]; [discriminate |].
      destruct (scanObject r (S level) rest) as [m' |] eqn:E; [| discriminate].
      intros H. injection H as <-.
      destruct (IH _ _ _ E) as (Hp & He & Hc & _).
      repeat split.
      * cbn [String.prefix]. destruct (ascii_dec open_brace open_brace);
          [exact Hp | contradiction].
      * unfold endsWithClose in *. cbn [lastChar].
        destruct m' as [| e m'']; [discriminate He | exact He].
      * cbn [countChar]. unfold open_brace, close_brace in *.
        change (Ascii.eqb "}" "{") with false. rewrite Ascii.eqb_refl. lia.
      * intros _. unfold startsWith. cbn [String.prefix].
        destruct (ascii_dec "{" open_brace); [destruct m'; reflexivity |].
        unfold open_brace in *. contradiction.
    + destruct level as [| l]; [discriminate |].
      destruct (scanObject room (S l) rest) as [m' |] eqn:E; [| discriminate].
      intros H. injection H as <-.
      destruct (IH _ _ _ E) as (Hp & He & Hc & _).
      repeat split.
      * cbn [String.prefix]. destruct (ascii_dec c c); [exact Hp | contradiction].
      * unfold endsWithClose in *. cbn [lastChar].
        destruct m' as [| e m'']; [discriminate He | exact He].
      * cbn [countChar].
        assert (H1 : Ascii.eqb open_brace c = false)
          by (apply Ascii.eqb_neq; congruence).
        assert (H2 : Ascii.eqb close_brace c = false)
          by (apply Ascii.eqb_neq; congruence).
        rewrite H1, H2. exact Hc.
      * intros H; discriminate H.
Qed.

Lemma matchAllFrom_shape (s : string) :
  forall skip m,
    In m (matchAllFrom skip s) -> includes s m = true /\ balancedObject m.
Proof.
  induction s as [| c rest IH]; intros skip m; [intros [] |].
  cbn [matchAllFrom]. destruct skip as [| k].
  - destruct (jsonPatternAt (String c rest)) as [m0 |] eqn:E.
    + intros [<- | Hin].
      * unfold jsonPatternAt in E.
        destruct (scanObject_shape _ _ _ _ E) as (Hp & He & Hc & Hs).
        split; [rewrite includes_cons, Hp; reflexivity |].
        split; [exact (Hs eq_refl) |]. split; [exact He |].
        rewrite Nat.add_0_r in Hc. exact Hc.
      * destruct (IH _ _ Hin) as [Hi Hb].
        split; [rewrite includes_cons, Hi; apply orb_true_r | exact Hb].
    + intros Hin. destruct (IH _ _ Hin) as [Hi Hb].
      split; [rewrite includes_cons, Hi; apply orb_true_r | exact Hb].
  - intros Hin. destruct (IH _ _ Hin) as [Hi Hb].
    split; [rewrite includes_cons, Hi; apply orb_true_r | exact Hb].
Qed.

(** X26. Every candidate the brace pattern extracts from a frame is a
    piece of the frame that starts with an opening brace, ends with a
    closing one and has as many opening as closing braces. *)
Theorem candidates_are_balanced_objects (rawData candidate : string) :
  In candidate (matchJsonPattern rawData) ->
  includes rawData candidate = true /\ balancedObject candidate.
Proof. exact (matchAllFrom_shape rawData 0 candidate). Qed.

End ShapeFacts.

(** ** The conversions of the state adapter *)

Section AdapterFacts.

Import Store.

Lemma orS_truthy_l (a b : option string) : truthyS a = true -> orS a b = a.
Proof. intros H. unfold orS. rewrite H. reflexivity. Qed.

Lemma orS_absorbs (a b c : option string) :
  truthyS b = true -> orS (orS a b) c = orS a b.
Proof. intros H. apply orS_truthy_l, truthyS_orS_r, H. Qed.

Lemma orS_empty_default (a : option string) :
  orS (orS a (Some ""%string)) (Some ""%string) = orS a (Some ""%string).
Proof. unfold orS. destruct (truthyS a) eqn:E; [rewrite E |]; reflexivity. Qed.

Lemma orZ_idempotent (a : option Z) : orZ (Some (orZ a 0)) 0 = orZ a 0.
Proof.
  unfold orZ. destruct a as [z |]; [| reflexivity].
  destruct (Z.eqb_spec z 0) as [-> | Hz]; [reflexivity |].
  apply Z.eqb_neq in Hz. rewrite Hz. reflexivity.
Qed.

Lemma orFalse_idempotent (a : option bool) :
  orFalse (Some (orFalse (Some (orFalse a)))) = orFalse a.
Proof. destruct a as [[] |]; reflexivity. Qed.

(** X27. The array entries the adapter builds are complete and stable:
    an entry always has a non-empty name, token and colour and a position
    and a balance; and the record the adapter adds to [playerSlice] for
    such an entry is converted back to the very same entry. *)
Theorem adapter_entries_complete_and_stable (player : Player) :
  let entry := toGamePlayer player in
  truthyS (name entry) = true
  /\ truthyS (token entry) = true
  /\ truthyS (color entry) = true
  /\ position entry <> None
  /\ balance entry <> None
  /\ toGamePlayer (toSlicePlayer entry) = entry.
Proof.
  destruct player as [pid n t ct e c st w pos bal j r h ij props k].
  cbv zeta. unfold toGamePlayer, toSlicePlayer.
  cbn [id name token characterToken emoji color status walletAddress position
       balance jailTurns isReady isHost inJail properties kekels orElse].
  assert (Hd : truthyS (Some defaultEmoji) = true) by reflexivity.
  assert (He : truthyS (orS e (Some defaultEmoji)) = true)
    by (apply truthyS_orS_r, Hd).
  assert (Hct : truthyS (orS ct (orS e (Some defaultEmoji))) = true)
    by (apply truthyS_orS_r, He).
  split; [apply truthyS_orS_r; reflexivity |].
  split; [apply truthyS_orS_r, Hct |].
  split; [apply truthyS_orS_r; reflexivity |].
  split; [discriminate |]. split; [discriminate |].
  rewrite (orS_absorbs n) by reflexivity.
  rewrite !(orS_absorbs t) by exact Hct.
  rewrite !(orS_absorbs c) by reflexivity.
  rewrite !orS_empty_default, !orZ_idempotent, !orFalse_idempotent.
  reflexivity.
Qed.

End AdapterFacts.

Lemma candidates_are_balanced_objects_witness :
  Frames.includes "xx{a{b}c}yy{d}" "{a{b}c}" = true
  /\ Shape.balancedObject "{a{b}c}".
Proof.
  apply (candidates_are_balanced_objects "xx{a{b}c}yy{d}" "{a{b}c}").
  left. reflexivity.
Defined.

(** ** Frames of several objects: what the recovery extracts *)

Section PatternFacts.

Import Js Frames Recovery.

Lemma append_assoc (a b c : string) : ((a ++ b) ++ c = a ++ (b ++ c))%string.
Proof. induction a as [| x a IH]; [reflexivity |]. cbn [append]. rewrite IH. reflexivity. Qed.

Lemma option_map_append (c : ascii) (s : string) (o : option string) :
  option_map (String c) (option_map (append s) o)
  = option_map (append (String c s)) o.
Proof. destruct o; reflexivity. Qed.

(** The scanner walks through a run of the pattern's language and is
    then where it was. *)
Lemma scanObject_Nest (k : nat) (s : string) :
  Nest k s ->
  forall room level rest,
    (k <= room)%nat ->
    scanObject room (S level) (s ++ rest)
    = option_map (append s) (scanObject room (S level) rest).
Proof.
  induction 1 as [k | k c s Ho Hc Hs IH | k g s Hg IHg Hs IHs];
    intros room level rest Hk.
  - cbn [append]. destruct (scanObject room (S level) rest); reflexivity.
  - change ((String c s ++ rest)%string) with (String c (s ++ rest)%string).
    cbn [scanObject]. rewrite Hc, Ho, (IH room level rest Hk).
    apply option_map_append.
  - destruct room as [| r]; [inversion Hk |].
    change ((String open_brace (g ++ String close_brace s) ++ rest)%string)
      with (String open_brace ((g ++ String close_brace s) ++ rest)%string).
    rewrite append_assoc.
    change ((String close_brace s ++ rest)%string)
      with (String close_brace (s ++ rest)%string).
    cbn [scanObject].
    change (Ascii.eqb open_brace close_brace) with false.
    change (Ascii.eqb open_brace open_brace) with true. cbv iota.
    rewrite (IHg r (S level) _ (le_S_n _ _ Hk)).
    cbn [scanObject].
    change (Ascii.eqb close_brace close_brace) with true. cbv iota.
    rewrite (IHs (S r) level rest Hk).
    destruct (scanObject (S r) (S level) rest) as [m |]; cbn [option_map];
      [| reflexivity].
    f_equal. change ((String open_brace (g ++ String close_brace s) ++ m)%string)
      with (String open_brace ((g ++ String close_brace s) ++ m)%string).
    rewrite append_assoc. reflexivity.
Qed.

(** The pattern matches an object of its language where the object
    starts, whatever follows. *)
Lemma jsonPatternAt_object (o rest : string) :
  patternObject o -> jsonPatternAt (o ++ rest) = Some o.
Proof.
  intros (body & Hb & ->). unfold jsonPatternAt.
  change ((String open_brace (body ++ String close_brace "") ++ rest)%string)
    with (String open_brace ((body ++ String close_brace "") ++ rest)%string).
  rewrite append_assoc.
  change ((String close_brace "" ++ rest)%string) with (String close_brace rest).
  cbn [scanObject].
  change (Ascii.eqb open_brace close_brace) with false.
  change (Ascii.eqb open_brace open_brace) with true. cbv iota.
  rewrite (scanObject_Nest 2 body Hb 2 0 _ (le_n 2)).
  cbn [scanObject].
  change (Ascii.eqb close_brace close_brace) with true. cbv iota.
  reflexivity.
Qed.

Lemma matchAllFrom_skip (s rest : string) :
  matchAllFrom (String.length s) (s ++ rest) = matchAllFrom 0 rest.
Proof.
  induction s as [| c s IH]; [reflexivity |].
  change ((String c s ++ rest)%string) with (String c (s ++ rest)%string).
  cbn [String.length matchAllFrom]. exact IH.
Qed.

Lemma matchAllFrom_braceFree (sep rest : string) :
  braceFree sep = true ->
  matchAllFrom 0 (sep ++ rest) = matchAllFrom 0 rest.
Proof.
  intros H. induction sep as [| c sep IH]; [reflexivity |].
  cbn [braceFree] in H. apply andb_prop in H as [H Hs].
  apply andb_prop in H as [Ho Hc].
  apply negb_true_iff in Ho, Hc.
  change ((String c sep ++ rest)%string) with (String c (sep ++ rest)%string).
  cbn [matchAllFrom]. unfold jsonPatternAt. cbn [scanObject].
  rewrite Hc, Ho. exact (IH Hs).
Qed.

Lemma matchAllFrom_object (o rest : string) :
  patternObject o ->
  matchAllFrom 0 (o ++ rest) = o :: matchAllFrom 0 rest.
Proof.
  intros Ho. pose proof (jsonPatternAt_object o rest Ho) as Hm.
  destruct Ho as (body & _ & E).
  set (tail := (body ++ String close_brace "")%string) in *.
  subst o.
  change ((String open_brace tail ++ rest)%string)
    with (String open_brace (tail ++ rest)%string) in *.
  cbn [matchAllFrom]. rewrite Hm.
  cbn [String.length]. rewrite Nat.sub_1_r. cbn [Nat.pred].
  rewrite matchAllFrom_skip. reflexivity.
Qed.

(** The pattern finds the objects of a row, each once and in order. *)
Lemma matchJsonPattern_spaced (lead : string) (items : list (string * string)) :
  braceFree lead = true -> Forall spacedItem items ->
  matchJsonPattern (lead ++ spaced items) = map fst items.
Proof.
  intros Hl Hi. unfold matchJsonPattern.
  rewrite (matchAllFrom_braceFree lead _ Hl).
  induction Hi as [| [o sep] items [Ho Hs] _ IH]; [reflexivity |].
  cbn [spaced map fst]. cbn [fst snd] in Ho, Hs.
  rewrite (matchAllFrom_object o _ Ho), (matchAllFrom_braceFree sep _ Hs), IH.
  reflexivity.
Qed.

Lemma Nest_braceFree (k : nat) (s : string) : braceFree s = true -> Nest k s.
Proof.
  induction s as [| c s IH]; [constructor |].
  cbn [braceFree]. intros H. apply andb_prop in H as [H Hs].
  apply andb_prop in H as [Ho Hc]. apply negb_true_iff in Ho, Hc.
  constructor; auto.
Qed.

(** A flat object is an object of the pattern. *)
Lemma patternObject_flat (body : string) :
  braceFree body = true ->
  patternObject (String open_brace (body ++ String close_brace EmptyString)).
Proof. intros H. exists body. split; [apply Nest_braceFree, H | reflexivity]. Qed.

End PatternFacts.

Section RecoveryFacts.

Import Js Frames Recovery.

Variable Json : Type.
Variable JSON_parse : string -> option Json.
Variable App : Type.
Variable routeMessage : Json -> Action App.
Variable routeRecovered : Json -> Action App.
Variable isNewGame : Json -> bool.
Variable onNewGameCallback : option (Json -> Action App).

Lemma routeAll_app (route : Json -> Action App) (xs ys : list Json) (a : App) :
  routeAll route (xs ++ ys) a = routeAll route ys (routeAll route xs a).
Proof. unfold routeAll. apply fold_left_app. Qed.

(** One turn of the loop of [handleMessage]: a part that parses is routed
    by [processRecoveredMessage], whose exceptions are caught. *)
Lemma recoverPart_effect (part : string) (w : Frames.World Json App) :
  exists w',
    Frames.recoverPart Json JSON_parse App routeRecovered part w = Normal w'
    /\ app w' = routeAll routeRecovered (Frames.parsedParts Json JSON_parse [part]) (app w)
    /\ recovered w' = recovered w ++ (Frames.parsedParts Json JSON_parse) [part]
    /\ socketOpen w' = socketOpen w
    /\ outbox w' = outbox w.
Proof.
  unfold Frames.recoverPart, tryCatch, parseThen. cbn [Frames.parsedParts].
  destruct (JSON_parse part) as [data |].
  - unfold processRecoveredMessage, andThen, pureStep, tryCatch, onApp,
      noteRecovered, routeAll. cbn [app socketOpen outbox recovered fold_left].
    destruct (routeRecovered data (app w)); eexists; repeat split.
  - exists w. rewrite app_nil_r. repeat split.
Qed.

Lemma recovery_loop_effect (f : string -> string) (parts : list string) :
  forall w : Frames.World Json App,
  exists w',
    forEach parts
      (fun part => Frames.recoverPart Json JSON_parse App routeRecovered (f part)) w
    = Normal w'
    /\ app w' = routeAll routeRecovered (Frames.parsedParts Json JSON_parse (map f parts)) (app w)
    /\ recovered w' = recovered w ++ (Frames.parsedParts Json JSON_parse) (map f parts)
    /\ socketOpen w' = socketOpen w
    /\ outbox w' = outbox w.
Proof.
  induction parts as [| p parts IH]; intros w.
  - exists w. cbn. rewrite app_nil_r. repeat split.
  - cbn [forEach map]. unfold andThen.
    destruct (recoverPart_effect (f p) w) as (w1 & E1 & A1 & R1 & S1 & O1).
    rewrite E1.
    destruct (IH w1) as (w2 & E2 & A2 & R2 & S2 & O2).
    exists w2. rewrite E2.
    change (f p :: map f parts) with ([f p] ++ map f parts).
    rewrite parsedParts_app, routeAll_app.
    repeat split; [congruence | | congruence | congruence].
    rewrite R2, R1, app_assoc. reflexivity.
Qed.

Lemma attemptSyncRecovery_effect (w : Frames.World Json App) :
  app (attemptSyncRecovery Json App w) = app w
  /\ recovered (attemptSyncRecovery Json App w) = recovered w
  /\ outbox (attemptSyncRecovery Json App w)
     = outbox w ++ (if socketOpen w
                    then ["get_game_state"; "get_active_players"] else []).
Proof.
  unfold attemptSyncRecovery, Frames.sendMessage.
  destruct w as [a [|] o r]; cbn; rewrite <- ?app_assoc, ?app_nil_r;
    repeat split.
Qed.

Lemma recoverFrame_effect (rawData : string) (w : Frames.World Json App) :
  exists w',
    recoverFrame Json JSON_parse App routeRecovered rawData w = Normal w'
    /\ app w' = routeAll routeRecovered (Frames.parsedParts Json JSON_parse (frameParts rawData)) (app w)
    /\ recovered w' = recovered w ++ (Frames.parsedParts Json JSON_parse) (frameParts rawData)
    /\ outbox w'
       = outbox w ++ (if socketOpen w
                      then ["get_game_state"; "get_active_players"] else []).
Proof.
  assert (Hloop : forall (f : string -> string) parts,
            exists w',
              tryCatch
                (forEach parts (fun part =>
                   Frames.recoverPart Json JSON_parse App routeRecovered (f part)))
                (fun _ w0 => Normal w0) w = Normal w'
              /\ app w' = routeAll routeRecovered (Frames.parsedParts Json JSON_parse (map f parts)) (app w)
              /\ recovered w' = recovered w ++ (Frames.parsedParts Json JSON_parse) (map f parts)
              /\ socketOpen w' = socketOpen w
              /\ outbox w' = outbox w).
  { intros f parts. destruct (recovery_loop_effect f parts w) as (w1 & E & H).
    exists w1. unfold tryCatch. rewrite E. split; [reflexivity | exact H]. }
  assert (Hend : forall w1,
            app w1 = routeAll routeRecovered (Frames.parsedParts Json JSON_parse (frameParts rawData)) (app w)
            /\ recovered w1 = recovered w ++ (Frames.parsedParts Json JSON_parse) (frameParts rawData)
            /\ socketOpen w1 = socketOpen w /\ outbox w1 = outbox w ->
            app (attemptSyncRecovery Json App w1)
            = routeAll routeRecovered (Frames.parsedParts Json JSON_parse (frameParts rawData)) (app w)
            /\ recovered (attemptSyncRecovery Json App w1)
               = recovered w ++ (Frames.parsedParts Json JSON_parse) (frameParts rawData)
            /\ outbox (attemptSyncRecovery Json App w1)
               = outbox w ++ (if socketOpen w
                              then ["get_game_state"; "get_active_players"]
                              else [])).
  { intros w1 (A & R & S & O).
    destruct (attemptSyncRecovery_effect w1) as (A' & R' & O').
    rewrite A', R', O', A, R, S, O. repeat split. }
  unfold recoverFrame, andThen, pureStep.
  unfold frameParts in Hend |- *.
  destruct (includes rawData "}{").
  - destruct (Hloop trim (splitBoundary rawData)) as (w1 & E & H).
    rewrite E. eexists. split; [reflexivity | exact (Hend w1 H)].
  - destruct (startsWith (trim rawData) "{" && endsWithClose (trim rawData)).
    + destruct (Hloop (fun s => s) (matchJsonPattern rawData)) as (w1 & E & H).
      rewrite map_id in H.
      change (tryCatch (forEach (matchJsonPattern rawData)
                (Frames.recoverPart Json JSON_parse App routeRecovered))
                (fun _ w0 => Normal w0) w = Normal w1) in E.
      rewrite E. eexists. split; [reflexivity | exact (Hend w1 H)].
    + cbn [tryCatch]. eexists. split; [reflexivity |].
      apply Hend. cbn [Frames.parsedParts]. unfold routeAll. cbn [fold_left].
      rewrite app_nil_r. repeat split.
Qed.

(** The objects the lobby recovery gives to the registered callback. *)
Lemma recoverLobbyPart_effect (part : string) (w : Frames.World Json App) :
  exists w',
    recoverLobbyPart Json JSON_parse App isNewGame onNewGameCallback part w
    = Normal w'
    /\ app w' = match onNewGameCallback with
                | Some callback =>
                    routeAll callback (filter isNewGame (Frames.parsedParts Json JSON_parse [part])) (app w)
                | None => app w
                end
    /\ outbox w' = outbox w.
Proof.
  unfold recoverLobbyPart, tryCatch, parseThen. cbn [Frames.parsedParts].
  destruct (JSON_parse part) as [data |].
  - destruct onNewGameCallback as [callback |]; [| exists w; repeat split].
    cbn [filter]. destruct (isNewGame data); [| exists w; repeat split].
    unfold andThen, pureStep, onApp, noteRecovered, routeAll.
    cbn [app socketOpen outbox recovered fold_left].
    destruct (callback data (app w)); eexists; repeat split.
  - exists w. destruct onNewGameCallback; repeat split.
Qed.

Lemma lobby_loop_effect (parts : list string) :
  forall w : Frames.World Json App,
  exists w',
    forEach parts
      (recoverLobbyPart Json JSON_parse App isNewGame onNewGameCallback) w
    = Normal w'
    /\ app w' = match onNewGameCallback with
                | Some callback =>
                    routeAll callback (filter isNewGame (Frames.parsedParts Json JSON_parse parts)) (app w)
                | None => app w
                end
    /\ outbox w' = outbox w.
Proof.
  induction parts as [| p parts IH]; intros w.
  - exists w. destruct onNewGameCallback; repeat split.
  - cbn [forEach]. unfold andThen.
    destruct (recoverLobbyPart_effect p w) as (w1 & E1 & A1 & O1).
    rewrite E1.
    destruct (IH w1) as (w2 & E2 & A2 & O2).
    exists w2. rewrite E2. split; [reflexivity |].
    split; [| congruence].
    rewrite A2, A1.
    change (p :: parts) with ([p] ++ parts).
    rewrite parsedParts_app, filter_app.
    destruct onNewGameCallback; [rewrite routeAll_app |]; reflexivity.
Qed.

(** C3, as the code has it. Neither handler throws, whatever the frame
    and whatever the handlers of the messages do. When a frame of the game
    socket does not parse, its parts are tried in order: the pieces
    between the ["}{"] boundaries if it has one, else, if it starts and
    ends with a brace, the matches of the brace pattern; each part that
    parses is routed by [processRecoveredMessage], an exception of the
    routing ending that object only, the other parts are dropped, and
    fresh state is requested on an open socket. So a run of object texts
    directly one after the other is recovered object by object, and so is
    a row of objects of the pattern (nested at most three deep) with
    brace-free text between them when the frame has no ["}{"]. The lobby
    socket searches with the brace pattern only and gives the objects of
    type [new_game_created] to the registered callback. *)
Theorem coalesced_frame_recovery (rawData : string)
  (w : Frames.World Json App)
  (o1 o2 : string) (rest : list string)
  (lead : string) (items : list (string * string)) :
  let game := handleMessage Json JSON_parse App routeMessage routeRecovered
                            rawData w in
  let lobby := handleLobbyMessage Json JSON_parse App isNewGame
                                  onNewGameCallback rawData w in
  let resync := if socketOpen w
                then ["get_game_state"; "get_active_players"] else [] in
  let called := fun objects =>
                  match onNewGameCallback with
                  | Some callback =>
                      routeAll callback (filter isNewGame objects) (app w)
                  | None => app w
                  end in
  (* neither handler throws *)
  completes game /\ completes lobby
  (* the game socket, on a frame that does not parse *)
  /\ (JSON_parse rawData = None ->
      app (finalOf game)
      = routeAll routeRecovered
          (Frames.parsedParts Json JSON_parse (frameParts rawData)) (app w)
      /\ recovered (finalOf game)
         = recovered w ++ Frames.parsedParts Json JSON_parse (frameParts rawData)
      /\ outbox (finalOf game) = outbox w ++ resync)
  (* objects directly one after the other *)
  /\ (JSON_parse rawData = None ->
      rawData = coalesce (o1 :: o2 :: rest) ->
      Forall objectText (o1 :: o2 :: rest) ->
      app (finalOf game)
      = routeAll routeRecovered
          (Frames.parsedParts Json JSON_parse (o1 :: o2 :: rest)) (app w)
      /\ recovered (finalOf game)
         = recovered w ++ Frames.parsedParts Json JSON_parse (o1 :: o2 :: rest))
  (* objects with brace-free text between them *)
  /\ (JSON_parse rawData = None ->
      rawData = spaced items -> Forall spacedItem items ->
      includes rawData "}{" = false ->
      startsWith (trim rawData) "{" && endsWithClose (trim rawData) = true ->
      app (finalOf game)
      = routeAll routeRecovered
          (Frames.parsedParts Json JSON_parse (map fst items)) (app w)
      /\ recovered (finalOf game)
         = recovered w ++ Frames.parsedParts Json JSON_parse (map fst items))
  (* the lobby socket *)
  /\ (JSON_parse (trim rawData) = None ->
      app (finalOf lobby)
      = called (Frames.parsedParts Json JSON_parse (matchJsonPattern rawData))
      /\ outbox (finalOf lobby) = outbox w)
  /\ (JSON_parse (trim rawData) = None ->
      rawData = (lead ++ spaced items)%string -> braceFree lead = true ->
      Forall spacedItem items ->
      app (finalOf lobby)
      = called (Frames.parsedParts Json JSON_parse (map fst items))).
Proof.
  intros game lobby resync called.
  assert (Hgame : JSON_parse rawData = None ->
            app (finalOf game)
            = routeAll routeRecovered
                (Frames.parsedParts Json JSON_parse (frameParts rawData)) (app w)
            /\ recovered (finalOf game)
               = recovered w
                 ++ Frames.parsedParts Json JSON_parse (frameParts rawData)
            /\ outbox (finalOf game) = outbox w ++ resync).
  { intros Hparse. unfold game, handleMessage, tryCatch, parseThen.
    rewrite Hparse.
    destruct (recoverFrame_effect rawData w) as (w' & E & H).
    rewrite E. exact H. }
  assert (Hlobby : JSON_parse (trim rawData) = None ->
            app (finalOf lobby)
            = called (Frames.parsedParts Json JSON_parse
                        (matchJsonPattern rawData))
            /\ outbox (finalOf lobby) = outbox w).
  { intros Hparse. unfold lobby, handleLobbyMessage, tryCatch, parseThen.
    rewrite Hparse.
    destruct (lobby_loop_effect (matchJsonPattern rawData) w) as (w' & E & H).
    rewrite E. exact H. }
  split; [apply handleMessage_never_throws |].
  split; [apply handleLobbyMessage_never_throws |].
  split; [exact Hgame |].
  split.
  { intros Hparse -> Hshape. destruct (Hgame Hparse) as (A & R & _).
    rewrite (frameParts_coalesce _ _ _ Hshape) in A, R. split; assumption. }
  split.
  { intros Hparse E Hitems Hinc Hends. destruct (Hgame Hparse) as (A & R & _).
    assert (Hparts : frameParts rawData = map fst items).
    { unfold frameParts. rewrite Hinc, Hends, E.
      exact (matchJsonPattern_spaced EmptyString items eq_refl Hitems). }
    rewrite Hparts in A, R. split; assumption. }
  split; [exact Hlobby |].
  intros Hparse E Hlead Hitems. destruct (Hlobby Hparse) as (A & _).
  rewrite E, (matchJsonPattern_spaced lead items Hlead Hitems) in A. exact A.
Qed.

End RecoveryFacts.

(** The sample objects are objects of the pattern. *)
Lemma toyObject_pattern :
  Recovery.patternObject (Frames.toyObject "player_joined")
  /\ Recovery.patternObject (Frames.toyObject "active_players").
Proof.
  split.
  - exists (Frames.quoted "type" ++ ":" ++ Frames.quoted "player_joined")%string.
    split; [apply Nest_braceFree |]; reflexivity.
  - exists (Frames.quoted "type" ++ ":" ++ Frames.quoted "active_players")%string.
    split; [apply Nest_braceFree |]; reflexivity.
Qed.

(** Three objects and a fragment that is no JSON directly one after the
    other, the second object of a type whose routing throws: all three
    objects are handed over, the first and the third reach the store. And
    two objects with a line break between them: both reach the store. *)
Lemma coalesced_frame_recovery_witness :
  let frame := (Frames.toyObject "player_joined"
                ++ Frames.toyObject "game_started" ++ "{oops}"
                ++ Frames.toyObject "active_players")%string in
  let result := Frames.handleMessage string Frames.toyParse (list string)
                  Frames.toyRoute Frames.toyRoute frame Frames.toyWorld in
  let spread := (Frames.toyObject "player_joined"
                 ++ String (ascii_of_nat 10) (Frames.toyObject "active_players"))%string in
  let second := Frames.handleMessage string Frames.toyParse (list string)
                  Frames.toyRoute Frames.toyRoute spread Frames.toyWorld in
  (Frames.app (Js.finalOf result) = ["player_joined"; "active_players"]
   /\ Frames.recovered (Js.finalOf result)
      = ["player_joined"; "game_started"; "active_players"])
  /\ (Frames.app (Js.finalOf second) = ["player_joined"; "active_players"]
      /\ Frames.recovered (Js.finalOf second)
         = ["player_joined"; "active_players"]).
Proof.
  intros frame result spread second. split.
  - destruct (coalesced_frame_recovery string Frames.toyParse (list string)
                Frames.toyRoute Frames.toyRoute (fun _ => false) None
                frame Frames.toyWorld
                (Frames.toyObject "player_joined")
                (Frames.toyObject "game_started")
                ["{oops}"%string; Frames.toyObject "active_players"]
                EmptyString [])
      as (_ & _ & _ & H & _).
    apply H; [reflexivity | reflexivity |].
    repeat constructor.
  - destruct (coalesced_frame_recovery string Frames.toyParse (list string)
                Frames.toyRoute Frames.toyRoute (fun _ => false) None
                spread Frames.toyWorld EmptyString EmptyString []
                EmptyString
                [(Frames.toyObject "player_joined",
                  String (ascii_of_nat 10) EmptyString);
                 (Frames.toyObject "active_players", EmptyString)])
      as (_ & _ & _ & _ & H & _).
    apply H; [reflexivity | reflexivity | | reflexivity | reflexivity].
    repeat constructor; apply toyObject_pattern.
Defined.

(** C3 as stated fails: not every object of a coalesced frame is
    extracted. Three objects in one frame, the second and the third with
    a blank between them: the frame is cut at its one boundary, the piece
    with the two last objects does not parse and is dropped, and only the
    first object is handed over, although each of the three parses. *)
Lemma coalesced_objects_lost :
  let frame := (Frames.toyObject "player_joined"
                ++ Frames.toyObject "game_state" ++ " "
                ++ Frames.toyObject "active_players")%string in
  let result := Frames.handleMessage string Frames.toyParse (list string)
                  Frames.toyRoute Frames.toyRoute frame Frames.toyWorld in
  map Frames.toyParse [Frames.toyObject "player_joined";
                       Frames.toyObject "game_state";
                       Frames.toyObject "active_players"]
  = [Some "player_joined"%string; Some "game_state"%string;
     Some "active_players"%string]
  /\ Frames.toyParse frame = None
  /\ Js.completes result
  /\ Frames.recovered (Js.finalOf result) = ["player_joined"%string]
  /\ Frames.app (Js.finalOf result) = ["player_joined"%string].
Proof. repeat split; vm_compute; auto. Qed.

(** ** The host elected from the list of active players *)

Section HostFacts.

Import Turn Host.

Lemma sameId_eq (a b : Id) : sameId a b = true -> a = b.
Proof.
  destruct a as [| | x], b as [| | y]; cbn [sameId];
    try discriminate; try reflexivity.
  intros H. apply String.eqb_eq in H. rewrite H. reflexivity.
Qed.

Lemma sameId_refl (a : Id) : sameId a a = true.
Proof. destruct a as [| | x]; cbn [sameId]; [| | apply String.eqb_refl]; reflexivity. Qed.

Lemma listed_exists (h : Id) (players : list Id) :
  existsb (fun p => sameId p h) players = true <-> In h players.
Proof.
  rewrite existsb_exists. split.
  - intros (p & Hin & Hs). apply sameId_eq in Hs. subst p. exact Hin.
  - intros Hin. exists h. split; [exact Hin | apply sameId_refl].
Qed.

(** X28. An [active_players] message that names no host but lists
    players, the first of them with an id: the host the client settles on
    is one of the listed players; a current host that is listed is kept,
    wherever it stands in the list, without a [setHost] and without an
    acknowledgement; and the election is stable, the same message handled
    again with the elected host in the store changes nothing and sends
    nothing. *)
Theorem elected_host_is_listed_and_stable (messageHostId firstPlayerId : Id)
  (others : list Id) (currentHostId playerId : Id) (socketOpen : bool) :
  truthyId messageHostId = false ->
  truthyId firstPlayerId = true ->
  let players := firstPlayerId :: others in
  let e := electHost messageHostId players currentHostId playerId socketOpen in
  In (hostId e) players
  /\ (truthyId currentHostId = true -> In currentHostId players ->
      hostId e = currentHostId /\ setHost e = None /\ acknowledged e = None)
  /\ electHost messageHostId players (hostId e) playerId socketOpen
     = mkElection (hostId e) None (isHost e) None.
Proof.
  intros Hm Hf players e.
  assert (Hkeep : forall h, truthyId h = true -> In h players ->
            electHost messageHostId players h playerId socketOpen
            = mkElection h None (Some (sameId playerId h)) None).
  { intros h Ht Hin. unfold electHost, players. rewrite Hm, Ht.
    apply listed_exists in Hin. unfold players in Hin. rewrite Hin.
    reflexivity. }
  assert (He : (hostId e = currentHostId
                /\ isHost e = Some (sameId playerId currentHostId)
                /\ truthyId currentHostId = true /\ In currentHostId players)
               \/ (hostId e = firstPlayerId
                   /\ isHost e = Some (sameId playerId firstPlayerId))).
  { unfold e, electHost, players. rewrite Hm.
    destruct (truthyId currentHostId
              && existsb (fun p => sameId p currentHostId)
                         (firstPlayerId :: others)) eqn:E;
      cbn [hostId isHost]; [left | right; split; reflexivity].
    apply andb_prop in E as [Ht E]. apply listed_exists in E.
    repeat split; assumption. }
  split; [| split].
  - destruct He as [(H1 & _ & _ & Hin) | (H1 & _)]; rewrite H1;
      [exact Hin | left; reflexivity].
  - intros Ht Hin. unfold e. rewrite (Hkeep currentHostId Ht Hin).
    repeat split.
  - destruct He as [(H1 & H2 & Ht & Hin) | (H1 & H2)]; rewrite H1, H2.
    + exact (Hkeep currentHostId Ht Hin).
    + apply (Hkeep firstPlayerId Hf). left. reflexivity.
Qed.

End HostFacts.

(** A client that holds the second listed player as host. *)
Lemma elected_host_is_listed_and_stable_witness :
  let players := [Turn.IdString "p1"; Turn.IdString "p2"] in
  let e := Host.electHost Turn.IdUndefined players (Turn.IdString "p2")
             (Turn.IdString "p2") true in
  In (Host.hostId e) players
  /\ (Turn.truthyId (Turn.IdString "p2") = true ->
      In (Turn.IdString "p2") players ->
      Host.hostId e = Turn.IdString "p2" /\ Host.setHost e = None
      /\ Host.acknowledged e = None)
  /\ Host.electHost Turn.IdUndefined players (Host.hostId e)
       (Turn.IdString "p2") true
     = Host.mkElection (Host.hostId e) None (Host.isHost e) None.
Proof.
  apply (elected_host_is_listed_and_stable Turn.IdUndefined (Turn.IdString "p1")
           [Turn.IdString "p2"] (Turn.IdString "p2") (Turn.IdString "p2") true);
    reflexivity.
Defined.
